(** * gemDirect1: completion markers, completion waiting and the FastVideo adapter

    A shallow embedding of three Python sources of the repository:

    - [comfyui_nodes/write_done_marker.py]  (module [Marker]),
    - [test_workflow.py], function [wait_for_completion]  (module [Waiter])
      and functions [verify_workflow_connections] and
      [update_workflow_image]  (module [Workflow]),
    - [scripts/fastvideo/fastvideo_server.py]  (module [FastVideo], and
      module [Health] for its health probe).

    Python code that raises and mutates is written in a small state and
    exception monad [Py W A]: a computation takes the world [W] and returns
    either a value or a raised exception, together with the new world.
    The operating system, the clock, the websocket peer and the FastVideo
    worker are the environment: they live in the world as data (a directory
    tree, a fault oracle, a script of messages, ...). *)

From Stdlib Require Import ZArith String Ascii List Lia.
From stdpp Require Import gmap strings pretty list fin_maps.

Local Open Scope Z_scope.

(* ===================================================================== *)
(** ** Python exceptions and the [Py] monad                               *)
(* ===================================================================== *)

(** The sources distinguish FastAPI's [HTTPException] from every other
    [Exception]; for the latter only the class name and [str(e)] matter. *)
Inductive exn : Type :=
| HTTPException (status_code : Z) (detail : string)
| PyError (cls : string) (msg : string).

(** [str(e)] *)
Definition str_of_exn (e : exn) : string :=
  match e with
  | HTTPException _ d => d
  | PyError _ m => m
  end.

Inductive res (A : Type) : Type :=
| Ok (a : A)
| Raise (e : exn).
Arguments Ok {A} a.
Arguments Raise {A} e.

Definition Py (W A : Type) : Type := W -> res A * W.

Definition ret {W A} (a : A) : Py W A := fun w => (Ok a, w).

Definition raise {W A} (e : exn) : Py W A := fun w => (Raise e, w).

Definition bind {W A B} (c : Py W A) (k : A -> Py W B) : Py W B :=
  fun w =>
    match c w with
    | (Ok a, w') => k a w'
    | (Raise e, w') => (Raise e, w')
    end.

(** [try: body  except Exception as e: handler e] *)
Definition try_except {W A} (body : Py W A) (handler : exn -> Py W A) : Py W A :=
  fun w =>
    match body w with
    | (Ok a, w') => (Ok a, w')
    | (Raise e, w') => handler e w'
    end.

(** [try: body  finally: cleanup]; an exception of [cleanup] replaces the
    outcome of [body]. *)
Definition try_finally {W A} (body : Py W A) (cleanup : Py W unit) : Py W A :=
  fun w =>
    match body w with
    | (r, w') =>
        match cleanup w' with
        | (Ok _, w'') => (r, w'')
        | (Raise e, w'') => (Raise e, w'')
        end
    end.

Definition get {W} : Py W W := fun w => (Ok w, w).
Definition modify {W} (f : W -> W) : Py W unit := fun w => (Ok tt, f w).

Declare Scope py_scope.
Delimit Scope py_scope with py.
Notation "x <- c ;; k" := (bind c (fun x => k))
  (at level 100, c at next level, right associativity) : py_scope.
Notation "c ;; k" := (bind c (fun _ => k))
  (at level 100, right associativity) : py_scope.

(* ===================================================================== *)
(** ** Strings as Python uses them                                        *)
(* ===================================================================== *)

Module Str.

Definition slash : ascii := "/"%char.

(** [s.startswith(p)] *)
Fixpoint startswith (p s : string) : bool :=
  match p, s with
  | EmptyString, _ => true
  | String a p', String b s' => if Ascii.eqb a b then startswith p' s' else false
  | String _ _, EmptyString => false
  end.

(** [p in s] for strings: does [p] occur in [s] as a substring? *)
Fixpoint contains (p s : string) : bool :=
  startswith p s ||
  match s with
  | EmptyString => false
  | String _ s' => contains p s'
  end.

(** [s.endswith("/")] *)
Fixpoint endswith_slash (s : string) : bool :=
  match s with
  | EmptyString => false
  | String c EmptyString => Ascii.eqb c slash
  | String _ s' => endswith_slash s'
  end.

(** [s.split("/")]: never empty, the split of the empty string is one empty string. *)
Fixpoint split_slash (s : string) : list string :=
  match s with
  | EmptyString => [EmptyString]
  | String c s' =>
      if Ascii.eqb c slash then EmptyString :: split_slash s'
      else match split_slash s' with
           | x :: xs => String c x :: xs
           | [] => [String c EmptyString]
           end
  end.

(** No ["/"] occurs in [s]. *)
Fixpoint slash_free (s : string) : bool :=
  match s with
  | EmptyString => true
  | String c s' => negb (Ascii.eqb c slash) && slash_free s'
  end.

(** ASCII lower-casing of one character and of a string ([s.lower()] on
    the ASCII range, the range the matched signatures live in). *)
Definition lower_ascii (c : ascii) : ascii :=
  let n := nat_of_ascii c in
  if (Nat.leb 65 n && Nat.leb n 90)%bool then ascii_of_nat (n + 32) else c.

Fixpoint lower (s : string) : string :=
  match s with
  | EmptyString => EmptyString
  | String c s' => String (lower_ascii c) (lower s')
  end.

(** [s.split(",", 1)]: at most one split, at the first comma. *)
Fixpoint split_comma_once (s : string) : list string :=
  match s with
  | EmptyString => [EmptyString]
  | String c s' =>
      if Ascii.eqb c ","%char then [EmptyString; s']
      else match split_comma_once s' with
           | x :: xs => String c x :: xs
           | [] => [String c EmptyString]
           end
  end.

(** Two decimal digits, zero padded: the [%m], [%d], [%H], [%M], [%S]
    fields of [strftime]. *)
Definition pad2 (n : Z) : string :=
  if n <? 10 then "0" +:+ pretty n else pretty n.

End Str.

(* ===================================================================== *)
(** ** The file system the scripts run against                            *)
(* ===================================================================== *)

(** A POSIX-like name space of directories and regular files.  A path is
    resolved to a key: whether it is absolute, and its components with
    empty and ["."] components dropped (so ["a//b/"], ["a/./b"] and
    ["a/b"] name the same node).  Symbolic links and [".."] are outside the
    model.  Besides the failures the name space itself causes (a missing
    parent, a directory where a file is expected), every system call can
    fail for reasons the name space does not show (permissions, a full or
    broken disk, a cross-device rename): the world's [fault] oracle says
    which calls do, and with which message. *)
Module Posix.

Abbreviation key := (bool * list string)%type (only parsing).

Inductive node : Type :=
| Dir
| File (data : string).

Definition real_name (c : string) : Prop := c ≠ EmptyString ∧ c ≠ ".".

Definition is_abs (p : string) : bool := Str.startswith "/" p.

Definition components (p : string) : list string :=
  filter real_name (Str.split_slash p).

Definition resolve (p : string) : key := (is_abs p, components p).

Definition parent (k : key) : key := (k.1, removelast k.2).

(** The path ends in ["/"] or in a ["."] component, or is empty: it can
    only name a directory. *)
Definition dirlike (p : string) : bool :=
  bool_decide (¬ real_name (List.last (Str.split_slash p) EmptyString)).

Definition is_dir (t : gmap key node) (k : key) : bool :=
  match k.2 with
  | [] => true
  | _ => match t !! k with Some Dir => true | _ => false end
  end.

(** What a path names, if anything. *)
Definition node_at (t : gmap key node) (p : string) : option node :=
  if String.eqb p EmptyString then None
  else
    let k := resolve p in
    if dirlike p then (if is_dir t k then Some Dir else None)
    else match k.2 with [] => Some Dir | _ => t !! k end.

Inductive syscall : Type :=
| SysMkdir (k : key)
| SysOpen (p : string)
| SysWrite (p data : string)
| SysFlush (p : string)
| SysFsync (p : string)
| SysClose (p : string)
| SysReplace (src dst : string)
| SysStat (p : string)
| SysRemove (p : string).

(** [time.gmtime()] *)
Record struct_time : Type := {
  tm_year : Z; tm_mon : Z; tm_mday : Z;
  tm_hour : Z; tm_min : Z; tm_sec : Z }.

Record world : Type := {
  tree : gmap key node;
  fault : syscall -> option string; (* [Some msg]: the call fails with [msg] *)
  torn : nat;                       (* bytes of a failing write that reach the file *)
  trace : list syscall;             (* the calls made so far, oldest first *)
  stdout : list string;             (* the lines printed so far, oldest first *)
  utc : struct_time }.

Definition set_tree (f : gmap key node -> gmap key node) (w : world) : world :=
  {| tree := f (tree w); fault := fault w; torn := torn w;
     trace := trace w; stdout := stdout w; utc := utc w |}.

Definition record_call (c : syscall) (w : world) : world :=
  {| tree := tree w; fault := fault w; torn := torn w;
     trace := trace w ++ [c]; stdout := stdout w; utc := utc w |}.

Definition add_line (line : string) (w : world) : world :=
  {| tree := tree w; fault := fault w; torn := torn w;
     trace := trace w; stdout := stdout w ++ [line]; utc := utc w |}.

Definition os_error (msg : string) : exn := PyError "OSError" msg.

Local Open Scope py_scope.

Definition print (line : string) : Py world unit := modify (add_line line).

(** Enter a system call: it is recorded, and fails at once when the
    oracle says so. *)
Definition call (c : syscall) : Py world unit :=
  fun w =>
    match fault w c with
    | Some msg => (Raise (os_error msg), record_call c w)
    | None => (Ok tt, record_call c w)
    end.

(** [os.makedirs(p, exist_ok=True)], walking down from the root or the
    current directory: existing directories are kept, missing ones are
    made, a regular file in the way is an error. *)
Fixpoint mkdirs (abs : bool) (above todo : list string) : Py world unit :=
  match todo with
  | [] => ret tt
  | c :: rest =>
      let k := (abs, above ++ [c]) in
      w <- get ;;
      match tree w !! k with
      | Some Dir => mkdirs abs (above ++ [c]) rest
      | Some (File _) => raise (os_error ("[Errno 17] File exists: " +:+ c))
      | None =>
          call (SysMkdir k) ;;
          modify (set_tree (insert k Dir)) ;;
          mkdirs abs (above ++ [c]) rest
      end
  end.

Definition makedirs (p : string) : Py world unit :=
  if String.eqb p EmptyString then
    raise (os_error "[Errno 2] No such file or directory")
  else mkdirs (is_abs p) [] (components p).

(** [open(p, 'w', encoding='utf-8')]: creates or truncates; the handle is
    the path. *)
Definition open_w (p : string) : Py world string :=
  call (SysOpen p) ;;
  w <- get ;;
  if dirlike p then raise (os_error ("[Errno 21] Is a directory: " +:+ p))
  else if negb (is_dir (tree w) (parent (resolve p))) then
    raise (os_error ("[Errno 2] No such file or directory: " +:+ p))
  else
    match node_at (tree w) p with
    | Some Dir => raise (os_error ("[Errno 21] Is a directory: " +:+ p))
    | _ => modify (set_tree (insert (resolve p) (File EmptyString))) ;; ret p
    end.

(** [f.write(data)]: appends to the open file; a failing write leaves the
    first [torn] bytes of [data] behind.  A handle whose file is gone from
    the name space writes nowhere. *)
Definition append_to (k : key) (data : string) (t : gmap key node) : gmap key node :=
  match t !! k with
  | Some (File old) => <[k := File (old +:+ data)]> t
  | _ => t
  end.

Definition write (f data : string) : Py world unit :=
  fun w =>
    let w1 := record_call (SysWrite f data) w in
    match fault w (SysWrite f data) with
    | Some msg =>
        (Raise (os_error msg),
         set_tree (append_to (resolve f) (String.substring 0 (torn w) data)) w1)
    | None => (Ok tt, set_tree (append_to (resolve f) data) w1)
    end.

Definition flush (f : string) : Py world unit := call (SysFlush f).
Definition fsync (f : string) : Py world unit := call (SysFsync f).
Definition close (f : string) : Py world unit := call (SysClose f).

(** [with open(p, 'w', encoding='utf-8') as f: body f] *)
Definition with_open_w {A} (p : string) (body : string -> Py world A) : Py world A :=
  f <- open_w p ;;
  try_finally (body f) (close f).

(** [os.replace(src, dst)] for a regular file [src]: one step that
    installs the file under [dst], over whatever file was there. *)
Definition os_replace (src dst : string) : Py world unit :=
  call (SysReplace src dst) ;;
  w <- get ;;
  match node_at (tree w) src with
  | Some (File d) =>
      match node_at (tree w) dst with
      | Some Dir => raise (os_error ("[Errno 21] Is a directory: " +:+ dst))
      | _ =>
          if dirlike dst || negb (is_dir (tree w) (parent (resolve dst))) then
            raise (os_error ("[Errno 2] No such file or directory: " +:+ dst))
          else
            modify (set_tree (fun t => <[resolve dst := File d]> (delete (resolve src) t)))
      end
  | Some Dir =>
      (* renaming directories is not modelled; the marker writer opens
         [src] for writing first, which a directory refuses *)
      raise (os_error ("[Errno 21] Is a directory: " +:+ src))
  | None => raise (os_error ("[Errno 2] No such file or directory: " +:+ src))
  end.

(** [os.path.exists(p)]: never raises; an error of the underlying [stat]
    reads as "does not exist". *)
Definition path_exists (p : string) : Py world bool :=
  fun w =>
    let w1 := record_call (SysStat p) w in
    match fault w (SysStat p) with
    | Some _ => (Ok false, w1)
    | None => (Ok (bool_decide (is_Some (node_at (tree w) p))), w1)
    end.

(** [os.remove(p)] *)
Definition os_remove (p : string) : Py world unit :=
  call (SysRemove p) ;;
  w <- get ;;
  match node_at (tree w) p with
  | Some (File _) => modify (set_tree (delete (resolve p)))
  | Some Dir => raise (os_error ("[Errno 21] Is a directory: " +:+ p))
  | None => raise (os_error ("[Errno 2] No such file or directory: " +:+ p))
  end.

(** [os.path.join(a, b)] (posixpath) *)
Definition path_join (a b : string) : string :=
  if Str.startswith "/" b then b
  else if String.eqb a EmptyString || Str.endswith_slash a then a +:+ b
  else a +:+ "/" +:+ b.

End Posix.

(* ===================================================================== *)
(** ** comfyui_nodes/write_done_marker.py                                 *)
(* ===================================================================== *)

Module Marker.
Import Posix.
Local Open Scope py_scope.

(** The double quote character, as a string. *)
Definition dquote : string := String "034"%char EmptyString.

(** The two shapes of value the payload dict holds. *)
Inductive jvalue : Type :=
| JStr (s : string)
| JInt (n : Z).

Definition dumps_value (v : jvalue) : string :=
  match v with
  | JStr s => dquote +:+ s +:+ dquote
  | JInt n => pretty n
  end.

Definition dumps_item (kv : string * jvalue) : string :=
  dquote +:+ kv.1 +:+ dquote +:+ ": " +:+ dumps_value kv.2.

Fixpoint dumps_items (items : list (string * jvalue)) : string :=
  match items with
  | [] => EmptyString
  | [kv] => dumps_item kv
  | kv :: rest => dumps_item kv +:+ ", " +:+ dumps_items rest
  end.

(** [json.dumps(payload)] with the default separators, for a dict whose
    keys and strings need no escaping (the marker's never do: fixed keys,
    a timestamp of digits and punctuation). *)
Definition json_dumps (payload : list (string * jvalue)) : string :=
  "{" +:+ dumps_items payload +:+ "}".

(** [json.dump(payload, f)] *)
Definition json_dump (payload : list (string * jvalue)) (f : string) : Py world unit :=
  write f (json_dumps payload).

(** [time.strftime('%Y-%m-%dT%H:%M:%SZ', t)] *)
Definition strftime_iso (t : struct_time) : string :=
  pretty (tm_year t) +:+ "-" +:+ Str.pad2 (tm_mon t) +:+ "-" +:+ Str.pad2 (tm_mday t)
  +:+ "T" +:+ Str.pad2 (tm_hour t) +:+ ":" +:+ Str.pad2 (tm_min t) +:+ ":"
  +:+ Str.pad2 (tm_sec t) +:+ "Z".

Definition iso_now : Py world string :=
  w <- get ;; ret (strftime_iso (utc w)).

Definition final_name (prefix : string) : string := prefix +:+ ".done".
Definition tmp_name (prefix tmp_ext : string) : string := prefix +:+ ".done" +:+ tmp_ext.
Definition final_path (output_dir prefix : string) : string :=
  path_join output_dir (final_name prefix).
Definition tmp_path (output_dir prefix tmp_ext : string) : string :=
  path_join output_dir (tmp_name prefix tmp_ext).

Definition payload_of (timestamp : string) (frame_count : option Z)
  : list (string * jvalue) :=
  [("Timestamp", JStr timestamp)] ++
  match frame_count with
  | Some n => [("FrameCount", JInt n)]
  | None => []
  end.

Definition msg_atomic (final : string) : string :=
  "[WriteDoneMarker] Created done marker atomically: " +:+ final.
Definition msg_degraded (exc : exn) : string :=
  "[WriteDoneMarker] Atomic rename failed: " +:+ str_of_exn exc
  +:+ "; falling back to direct write.".
Definition msg_fallback (final : string) : string :=
  "[WriteDoneMarker] Created done marker with fallback write: " +:+ final.
Definition msg_failed (exc2 : exn) : string :=
  "[WriteDoneMarker] Failed to write final marker: " +:+ str_of_exn exc2.

(** The [try] block: temporary file, flush, fsync, atomic replace. *)
Definition atomic_publish (tmp final : string) (payload : list (string * jvalue))
  : Py world bool :=
  with_open_w tmp (fun f =>
    json_dump payload f ;;
    flush f ;;
    try_except (fsync f) (fun _ => ret tt)) ;;
  os_replace tmp final ;;
  print (msg_atomic final) ;;
  ret true.

(** The [except] block: direct write of the final path, then the
    temporary file is removed if it can be. *)
Definition fallback_publish (tmp final : string) (payload : list (string * jvalue))
  (exc : exn) : Py world bool :=
  print (msg_degraded exc) ;;
  try_except
    (with_open_w final (fun f => json_dump payload f) ;;
     try_except
       (there <- path_exists tmp ;;
        if there then os_remove tmp else ret tt)
       (fun _ => ret tt) ;;
     print (msg_fallback final) ;;
     ret true)
    (fun exc2 =>
       print (msg_failed exc2) ;;
       ret false).

Definition write_done_marker (output_dir prefix : string)
  (frame_count : option Z) (tmp_ext : string) : Py world bool :=
  makedirs output_dir ;;
  let final := final_path output_dir prefix in
  let tmp := tmp_path output_dir prefix tmp_ext in
  timestamp <- iso_now ;;
  let payload := payload_of timestamp frame_count in
  try_except (atomic_publish tmp final payload)
             (fallback_publish tmp final payload).

(** [main]: the exit status for parsed command-line arguments. *)
Definition main (output_dir prefix : string) (frames : option Z) (tmp_ext : string)
  : Py world Z :=
  ok <- write_done_marker output_dir prefix frames tmp_ext ;;
  ret (if ok : bool then 0 else 2).

End Marker.

(* ===================================================================== *)
(** ** test_workflow.py: wait_for_completion                              *)
(* ===================================================================== *)

(** Time is a clock of [hz] ticks per second, as fine as one likes, that
    advances only while a call blocks: opening the connection and every
    [recv] take at least one tick, everything else takes none.  What the
    peer sends, and when, is the world's [inbox]. *)
Module Waiter.
Local Open Scope py_scope.

#[local] Set Warnings "-register-all".

(** What [json.loads] returns.  Numbers are integers, as in the messages
    ComfyUI sends; an object is the parsed dict in document order, its
    keys distinct. *)
Inductive json : Type :=
| JNull
| JBool (b : bool)
| JNum (n : Z)
| JString (s : string)
| JArray (items : list json)
| JObject (fields : list (string * json)).

(** What one [ws.recv()] brings. *)
Inductive frame : Type :=
| Text (parsed : option json) (* a non-empty message; [None]: it is not JSON *)
| Empty                       (* an empty message *)
| RecvError (msg : string).   (* [recv] raised: socket timeout, closed connection *)

Record world : Type := {
  hz : positive;                  (* clock ticks per second *)
  now : Z;                        (* [time.time()], in ticks *)
  connect_takes : positive;       (* how long [create_connection] blocks *)
  connect_error : option string;  (* [Some msg]: it raises *)
  inbox : nat -> positive * frame;(* the k-th [recv]: how long it blocks, what it brings *)
  received : nat;                 (* [recv] calls made so far *)
  connected : bool;
  stdout : list string }.

Definition add_line (line : string) (w : world) : world :=
  {| hz := hz w; now := now w; connect_takes := connect_takes w;
     connect_error := connect_error w; inbox := inbox w;
     received := received w; connected := connected w;
     stdout := stdout w ++ [line] |}.

Definition print (line : string) : Py world unit := modify (add_line line).

(** [websocket.create_connection(ws_url, timeout=10)] *)
Definition create_connection : Py world unit :=
  fun w =>
    let w' := {| hz := hz w; now := now w + Z.pos (connect_takes w);
                 connect_takes := connect_takes w;
                 connect_error := connect_error w; inbox := inbox w;
                 received := received w;
                 connected := bool_decide (connect_error w = None);
                 stdout := stdout w |} in
    match connect_error w with
    | Some msg => (Raise (PyError "WebSocketException" msg), w')
    | None => (Ok tt, w')
    end.

(** [ws.recv()]: blocks for as long as the peer (or the socket timeout)
    makes it, then brings the next frame. *)
Definition ws_recv : Py world frame :=
  fun w =>
    let '(d, f) := inbox w (received w) in
    (Ok f,
     {| hz := hz w; now := now w + Z.pos d; connect_takes := connect_takes w;
        connect_error := connect_error w; inbox := inbox w;
        received := S (received w); connected := connected w;
        stdout := stdout w |}).

(** [ws.close()]: the client library swallows the errors of closing. *)
Definition ws_close : Py world unit :=
  modify (fun w =>
    {| hz := hz w; now := now w; connect_takes := connect_takes w;
       connect_error := connect_error w; inbox := inbox w;
       received := received w; connected := false; stdout := stdout w |}).

(** [type(v).__name__] *)
Definition type_name (v : json) : string :=
  match v with
  | JNull => "NoneType"
  | JBool _ => "bool"
  | JNum _ => "int"
  | JString _ => "str"
  | JArray _ => "list"
  | JObject _ => "dict"
  end.

Fixpoint lookup_field (k : string) (fields : list (string * json)) : option json :=
  match fields with
  | [] => None
  | (k', v) :: rest => if String.eqb k k' then Some v else lookup_field k rest
  end.

(** [d.get(k, default)] on a dict *)
Definition get_or (k : string) (default : json) (fields : list (string * json)) : json :=
  match lookup_field k fields with
  | Some x => x
  | None => default
  end.

(** [v.get(k, default)] *)
Definition py_get (v : json) (k : string) (default : json) : Py world json :=
  match v with
  | JObject fields => ret (get_or k default fields)
  | _ => raise (PyError "AttributeError"
                  ("'" +:+ type_name v +:+ "' object has no attribute 'get'"))
  end.

(** [a == b] on parsed JSON ([True == 1] holds in Python). *)
Fixpoint py_eq (a b : json) {struct a} : bool :=
  match a, b with
  | JNull, JNull => true
  | JBool x, JBool y => Bool.eqb x y
  | JBool x, JNum n => Z.b2z x =? n
  | JNum n, JBool x => n =? Z.b2z x
  | JNum m, JNum n => m =? n
  | JString s, JString t => String.eqb s t
  | JArray xs, JArray ys =>
      (fix all2 (xs ys : list json) {struct xs} : bool :=
         match xs, ys with
         | [], [] => true
         | x :: xs', y :: ys' => py_eq x y && all2 xs' ys'
         | _, _ => false
         end) xs ys
  | JObject fs, JObject gs =>
      Nat.eqb (length fs) (length gs) &&
      (fix all_in (fs : list (string * json)) {struct fs} : bool :=
         match fs with
         | [] => true
         | (k, v) :: fs' =>
             match lookup_field k gs with
             | Some v' => py_eq v v' && all_in fs'
             | None => false
             end
         end) fs
  | _, _ => false
  end.

Definition quoted (s : string) : string := "'" +:+ s +:+ "'".

Fixpoint join_comma (parts : list string) : string :=
  match parts with
  | [] => EmptyString
  | [x] => x
  | x :: rest => x +:+ ", " +:+ join_comma rest
  end.

(** [repr(v)]; exact for strings that need no escaping. *)
Fixpoint py_repr (v : json) : string :=
  match v with
  | JNull => "None"
  | JBool true => "True"
  | JBool false => "False"
  | JNum n => pretty n
  | JString s => quoted s
  | JArray items => "[" +:+ join_comma (List.map py_repr items) +:+ "]"
  | JObject fields =>
      "{" +:+ join_comma
                (List.map (fun kv : string * json =>
                             match kv with
                             | (k, x) => quoted k +:+ ": " +:+ py_repr x
                             end) fields) +:+ "}"
  end.

(** [str(v)], what an f-string shows. *)
Definition py_str (v : json) : string :=
  match v with
  | JString s => s
  | _ => py_repr v
  end.

(** The number a value stands for in arithmetic, if it is one. *)
Definition as_number (v : json) : option Z :=
  match v with
  | JNum n => Some n
  | JBool b => Some (Z.b2z b)
  | _ => None
  end.

Definition type_error (msg : string) : exn := PyError "TypeError" msg.

(** [v > 0] *)
Definition py_gt0 (v : json) : Py world bool :=
  match as_number v with
  | Some n => ret (0 <? n)
  | None => raise (type_error ("'>' not supported between instances of '"
                                 +:+ type_name v +:+ "' and 'int'"))
  end.

(** [x / y * 100] shown with [:.0f]: the quotient [100 x / y] rounded to
    the nearest integer, ties to even (exact arithmetic stands in for the
    float). *)
Definition round_half_even (num den : Z) : Z :=
  let q := num / den in
  let r := num mod den in
  if 2 * r <? den then q
  else if den <? 2 * r then q + 1
  else if Z.even q then q else q + 1.

Definition show_pct (x y : Z) : string :=
  let q := round_half_even (100 * x) y in
  if (q =? 0) && (x <? 0) then "-0" else pretty q.

(** The percentage of a progress line:
    [(progress / max_progress * 100) if max_progress > 0 else 0], as
    [:.0f] shows it. *)
Definition pct_text (progress max_progress : json) : Py world string :=
  positive_max <- py_gt0 max_progress ;;
  if positive_max : bool then
    match as_number progress, as_number max_progress with
    | Some x, Some y => ret (show_pct x y)
    | _, _ => raise (type_error ("unsupported operand type(s) for /: '"
                       +:+ type_name progress +:+ "' and '"
                       +:+ type_name max_progress +:+ "'"))
    end
  else ret "0".

(** How one pass through the loop body ends. *)
Inductive step : Type :=
| Continue (last_progress : json)
| Return (value : bool).

(** The statements of the loop body after [data = json.loads(msg)]. *)
Definition handle_message (data last_progress : json) : Py world step :=
  msg_type <- py_get data "type" JNull ;;
  if py_eq msg_type (JString "executing") then
    d <- py_get data "data" (JObject []) ;;
    node <- py_get d "node" JNull ;;
    print ("   Executing node: " +:+ py_str node) ;;
    ret (Continue last_progress)
  else if py_eq msg_type (JString "progress") then
    d <- py_get data "data" (JObject []) ;;
    progress <- py_get d "value" (JNum 0) ;;
    d' <- py_get data "data" (JObject []) ;;
    max_progress <- py_get d' "max" (JNum 100) ;;
    if negb (py_eq progress last_progress) then
      pct <- pct_text progress max_progress ;;
      print ("   Progress: " +:+ py_str progress +:+ "/" +:+ py_str max_progress
             +:+ " (" +:+ pct +:+ "%)") ;;
      ret (Continue progress)
    else ret (Continue last_progress)
  else if py_eq msg_type (JString "executed") then
    print "   ✅ Generation complete!" ;;
    ws_close ;;
    ret (Return true)
  else if py_eq msg_type (JString "error") then
    d <- py_get data "data" (JObject []) ;;
    error <- py_get d "exception_message" (JString "Unknown error") ;;
    print ("   ❌ Error: " +:+ py_str error) ;;
    ws_close ;;
    ret (Return false)
  else ret (Continue last_progress).

(** Is the exception a [json.JSONDecodeError]? *)
Definition is_json_decode_error (e : exn) : bool :=
  match e with
  | PyError cls _ => String.eqb cls "JSONDecodeError"
  | HTTPException _ _ => false
  end.

(** The loop body: its [try] with the two [except] clauses. *)
Definition iteration (last_progress : json) : Py world step :=
  try_except
    (msg <- ws_recv ;;
     match msg with
     | RecvError m => raise (PyError "WebSocketException" m)
     | Empty => ret (Continue last_progress)
     | Text None => raise (PyError "JSONDecodeError" "Expecting value")
     | Text (Some data) => handle_message data last_progress
     end)
    (fun e =>
       if is_json_decode_error e then ret (Continue last_progress)
       else
         print ("   ⚠️  WebSocket error: " +:+ str_of_exn e) ;;
         ret (Continue last_progress)).

(** [while time.time() - start_time < timeout: ...] and the statements
    after it.  The loop is unrolled at most [fuel] times; [None] means the
    fuel ran out. *)
Fixpoint wait_loop (fuel : nat) (timeout start_time : Z) (last_progress : json)
  (w : world) : option (res bool * world) :=
  match fuel with
  | O => None
  | S fuel' =>
      if now w - start_time <? timeout * Z.pos (hz w) then
        match iteration last_progress w with
        | (Ok (Return value), w') => Some (Ok value, w')
        | (Ok (Continue last_progress'), w') =>
            wait_loop fuel' timeout start_time last_progress' w'
        | (Raise e, w') => Some (Raise e, w')
        end
      else
        Some ((ws_close ;;
               print ("❌ Timeout after " +:+ pretty timeout +:+ " seconds") ;;
               ret false) w)
  end.

Definition nl : string := String "010"%char EmptyString.

(** [wait_for_completion(prompt_id, client_id, timeout)]; the two ids only
    name the connection. *)
Definition wait_for_completion (fuel : nat) (timeout : Z) (w : world)
  : option (res bool * world) :=
  let w1 := add_line (nl +:+ "⏳ Waiting for generation (timeout: "
                      +:+ pretty timeout +:+ "s)...") w in
  let on_error (e : exn) : Py world bool :=
    print ("❌ WebSocket connection error: " +:+ str_of_exn e) ;;
    ret false in
  match create_connection w1 with
  | (Raise e, w2) => Some (on_error e w2)
  | (Ok _, w2) =>
      match wait_loop fuel timeout (now w2) (JNum 0) w2 with
      | None => None
      | Some (Ok value, w3) => Some (Ok value, w3)
      | Some (Raise e, w3) => Some (on_error e w3)
      end
  end.

End Waiter.

(* ===================================================================== *)
(** ** scripts/fastvideo/fastvideo_server.py                              *)
(* ===================================================================== *)

(** The adapter's console output is not modelled; everything else the
    request handler does is.  Pillow, base64, imageio and the FastVideo
    worker are libraries the handler calls into: the world carries their
    behaviour ([libs]). *)
Module FastVideo.
Import Posix.
Local Open Scope py_scope.

(** [GenerateVideoRequest], once FastAPI has parsed the JSON body. *)
Record GenerateVideoRequest : Type := {
  prompt : string;
  negativePrompt : option string;
  keyframeBase64 : option string;
  fps : Z;
  numFrames : Z;
  width : Z;
  height : Z;
  seed : option Z;
  outputDir : string }.

Definition in_range (ge le x : Z) : bool := (ge <=? x) && (x <=? le).

(** The [Field(..., ge=, le=)] constraints of the request model. *)
Definition fps_ok (r : GenerateVideoRequest) : bool := in_range 8 30 (fps r).
Definition numFrames_ok (r : GenerateVideoRequest) : bool := in_range 8 300 (numFrames r).
Definition width_ok (r : GenerateVideoRequest) : bool := in_range 256 1920 (width r).
Definition height_ok (r : GenerateVideoRequest) : bool := in_range 256 1080 (height r).

Definition valid_request (r : GenerateVideoRequest) : bool :=
  fps_ok r && numFrames_ok r && width_ok r && height_ok r.

(** The fields a validation error names. *)
Definition invalid_fields (r : GenerateVideoRequest) : list string :=
  (if fps_ok r then [] else ["fps"]) ++
  (if numFrames_ok r then [] else ["numFrames"]) ++
  (if width_ok r then [] else ["width"]) ++
  (if height_ok r then [] else ["height"]).

Record GenerateVideoResponse : Type := {
  status : string;
  outputVideoPath : option string;
  frames : option Z;
  durationMs : option Z;
  response_seed : option Z;
  warnings : list string;
  error : option string }.

(** A Pillow image: its mode, its size, its pixels (kept abstract). *)
Record image : Type := {
  mode : string;
  size : Z * Z;
  raster : string }.

(** [img.convert(m)] and [img.resize(sz, LANCZOS)], as far as mode and
    size go. *)
Definition convert (m : string) (img : image) : image :=
  {| mode := m; size := size img; raster := raster img |}.
Definition resize (sz : Z * Z) (img : image) : image :=
  {| mode := mode img; size := sz; raster := raster img |}.

Record SamplingParam : Type := {
  sp_prompt : string;
  sp_num_frames : Z;
  sp_fps : Z;
  sp_width : Z;
  sp_height : Z;
  sp_seed : Z;
  sp_negative_prompt : string;
  sp_image : option image }.

(** The values a result dict of the worker holds. *)
Inductive pyval : Type :=
| VNone
| VStr (s : string)
| VFrames (video : list string).

(** What [generator.generate_video] returns: a dict, a list of frames, or
    something else (its class name, and whether it is truthy). *)
Inductive worker_result : Type :=
| RDict (items : list (string * pyval))
| RList (video : list string)
| ROther (cls : string) (truthy : bool).

Record libs : Type := {
  (** [base64.b64decode] *)
  b64decode : string -> res string;
  (** [Image.open(BytesIO(data))], with the decoding a later [convert]
      triggers *)
  image_open : string -> res image;
  (** the n-th [VideoGenerator(args, MultiprocExecutor, ...)]: the
      milliseconds it takes, and a handle or an exception *)
  construct : nat -> Z * res nat;
  (** the n-th [generator.generate_video(sampling_param=...)]: the
      milliseconds it takes, what it returns or raises, and the files it
      leaves behind *)
  generate : nat -> nat -> SamplingParam -> gmap key node
             -> Z * res worker_result * gmap key node;
  (** the bytes [imageio.mimsave] encodes from frames at a frame rate *)
  encode : list string -> Z -> res string }.

Record world : Type := {
  disk : Posix.world;
  lib : libs;
  time_ms : Z;                (* [time.time()], in milliseconds *)
  _generator : option nat;    (* the module's global *)
  loads : nat;                (* [VideoGenerator(...)] calls so far *)
  calls : list SamplingParam; (* [generate_video] calls of the worker so far *)
  warnings_var : list string  (* the handler's local [warnings] *) }.

Definition set_disk (d : Posix.world) (w : world) : world :=
  {| disk := d; lib := lib w; time_ms := time_ms w; _generator := _generator w;
     loads := loads w; calls := calls w; warnings_var := warnings_var w |}.

Definition set_warnings (ws : list string) (w : world) : world :=
  {| disk := disk w; lib := lib w; time_ms := time_ms w; _generator := _generator w;
     loads := loads w; calls := calls w; warnings_var := ws |}.

(** Run a file-system computation on the adapter's disk. *)
Definition on_disk {A} (c : Py Posix.world A) : Py world A :=
  fun w => match c (disk w) with (r, d') => (r, set_disk d' w) end.

(** Lift a library outcome. *)
Definition of_res {A} (r : res A) : Py world A :=
  match r with
  | Ok a => ret a
  | Raise e => raise e
  end.

Definition time_time : Py world Z := w <- get ;; ret (time_ms w).

(** [VideoGenerator(args, MultiprocExecutor, log_stats=False)] *)
Definition VideoGenerator : Py world nat :=
  fun w =>
    match construct (lib w) (loads w) with
    | (took, r) =>
        (r, {| disk := disk w; lib := lib w; time_ms := time_ms w + took;
               _generator := _generator w; loads := S (loads w);
               calls := calls w; warnings_var := warnings_var w |})
    end.

Definition get_generator : Py world nat :=
  w <- get ;;
  match _generator w with
  | None =>
      g <- VideoGenerator ;;
      modify (fun w =>
        {| disk := disk w; lib := lib w; time_ms := time_ms w;
           _generator := Some g; loads := loads w; calls := calls w;
           warnings_var := warnings_var w |}) ;;
      ret g
  | Some g => ret g
  end.

Definition decode_base64_image (base64_str : string) : Py world image :=
  base64_str <-
    (if Str.startswith "data:" base64_str then
       match Str.split_comma_once base64_str with
       | _ :: second :: _ => ret second
       | _ => raise (PyError "IndexError" "list index out of range")
       end
     else ret base64_str) ;;
  w <- get ;;
  image_data <- of_res (b64decode (lib w) base64_str) ;;
  img <- of_res (image_open (lib w) image_data) ;;
  ret (convert "RGB" img).

(** [generator.generate_video(sampling_param=sampling_param)] *)
Definition worker_generate (generator : nat) (sampling_param : SamplingParam)
  : Py world worker_result :=
  fun w =>
    match generate (lib w) (length (calls w)) generator sampling_param
                   (tree (disk w)) with
    | (took, r, files) =>
        (r, {| disk := set_tree (fun _ => files) (disk w); lib := lib w;
               time_ms := time_ms w + took; _generator := _generator w;
               loads := loads w; calls := calls w ++ [sampling_param];
               warnings_var := warnings_var w |})
    end.

(** [imageio.mimsave(path, video, fps=fps)] *)
Definition mimsave (path : string) (video : pyval) (fps : Z) : Py world unit :=
  match video with
  | VFrames video_frames =>
      w <- get ;;
      data <- of_res (encode (lib w) video_frames fps) ;;
      on_disk (with_open_w path (fun f => write f data))
  | _ => raise (PyError "TypeError" "cannot encode this value as video frames")
  end.

(** Truthiness of Python values. *)
Definition truthy_str (s : string) : bool := negb (String.eqb s EmptyString).
Definition truthy_opt (o : option string) : bool :=
  match o with Some s => truthy_str s | None => false end.
Definition truthy_val (v : pyval) : bool :=
  match v with
  | VNone => false
  | VStr s => truthy_str s
  | VFrames video => negb (bool_decide (video = []))
  end.
Definition truthy_result (r : worker_result) : bool :=
  match r with
  | RDict items => negb (bool_decide (items = []))
  | RList video => negb (bool_decide (video = []))
  | ROther _ t => t
  end.

Fixpoint dict_lookup (k : string) (items : list (string * pyval)) : option pyval :=
  match items with
  | [] => None
  | (k', v) :: rest => if String.eqb k k' then Some v else dict_lookup k rest
  end.

(** [d.get(k)] *)
Definition dict_get (k : string) (items : list (string * pyval)) : pyval :=
  match dict_lookup k items with Some v => v | None => VNone end.

(** [a or b] *)
Definition py_or (a b : pyval) : pyval := if truthy_val a then a else b.

Fixpoint join_with (sep : string) (parts : list string) : string :=
  match parts with
  | [] => EmptyString
  | [x] => x
  | x :: rest => x +:+ sep +:+ join_with sep rest
  end.

(** [str(Path(...))] of a resolved path. *)
Definition render (k : key) : string :=
  match k with
  | (true, names) => "/" +:+ join_with "/" names
  | (false, []) => "."
  | (false, names) => join_with "/" names
  end.

(** [f"{result.keys()}"]; exact for keys that need no escaping. *)
Definition show_keys (items : list (string * pyval)) : string :=
  "dict_keys([" +:+ join_with ", " (List.map (fun kv => "'" +:+ kv.1 +:+ "'") items) +:+ "])".

(** [str(v)] for a result value. *)
Definition str_val (v : pyval) : string :=
  match v with
  | VNone => "None"
  | VStr s => s
  | VFrames video => "[" +:+ join_with ", " video +:+ "]"
  end.

(** [Path(v)]: only strings are paths. *)
Definition as_path (v : pyval) : Py world string :=
  match v with
  | VStr s => ret s
  | _ => raise (PyError "TypeError"
                  "expected str, bytes or os.PathLike object")
  end.

(** The [except Exception as e] clause around the worker call. *)
Definition classify_worker_error (e : exn) : exn :=
  let error_msg := str_of_exn e in
  if Str.contains "CUDA out of memory" error_msg
     || Str.contains "OutOfMemoryError" error_msg then
    HTTPException 507
      "CUDA OOM: Try reducing numFrames, resolution, or closing other GPU processes"
  else if Str.contains "No such file" error_msg
          || Str.contains "model" (Str.lower error_msg) then
    HTTPException 500 ("Model not found or corrupted: " +:+ error_msg)
  else
    HTTPException 500 ("Generation failed: " +:+ error_msg).

Definition show_size (sz : Z * Z) : string :=
  "(" +:+ pretty sz.1 +:+ ", " +:+ pretty sz.2 +:+ ")".

(** A fresh output file name under the output directory. *)
Definition fresh_output_path (output_dir : key) : Py world string :=
  timestamp <- time_time ;;
  let output_filename := "fastvideo_" +:+ pretty timestamp +:+ ".mp4" in
  ret (render (output_dir.1, output_dir.2 ++ [output_filename])).

(** The keyframe block of the handler. *)
Definition load_keyframe (request : GenerateVideoRequest) : Py world (option image) :=
  match keyframeBase64 request with
  | Some keyframe =>
      if truthy_str keyframe then
        try_except
          (start_image <- decode_base64_image keyframe ;;
           if bool_decide (size start_image = (width request, height request)) then
             ret (Some start_image)
           else
             w <- get ;;
             modify (set_warnings
               (warnings_var w ++
                ["Keyframe resized from " +:+ show_size (size start_image)
                 +:+ " to " +:+ show_size (width request, height request)])) ;;
             ret (Some (resize (width request, height request) start_image)))
          (fun e =>
             raise (HTTPException 400
                      ("Failed to decode keyframe image: " +:+ str_of_exn e)))
      else ret None
  | None => ret None
  end.

Definition sampling_param_of (request : GenerateVideoRequest)
  (start_image : option image) : SamplingParam :=
  let full_prompt :=
    if truthy_opt (negativePrompt request) then
      prompt request +:+ String "010"%char (String "010"%char "Negative: ")
      +:+ default EmptyString (negativePrompt request)
    else prompt request in
  {| sp_prompt := full_prompt;
     sp_num_frames := numFrames request;
     sp_fps := fps request;
     sp_width := width request;
     sp_height := height request;
     sp_seed := match seed request with Some n => n | None => -1 end;
     sp_negative_prompt :=
       if truthy_opt (negativePrompt request)
       then default EmptyString (negativePrompt request) else EmptyString;
     sp_image := start_image |}.

(** The [try] around the worker call, with its classifying [except]. *)
Definition run_worker (generator : nat) (sampling_param : SamplingParam)
  : Py world worker_result :=
  try_except
    (result <- worker_generate generator sampling_param ;;
     if negb (truthy_result result) then
       raise (PyError "Exception" "Generator returned empty results")
     else ret result)
    (fun e => raise (classify_worker_error e)).

(** Where the video is: the path the worker names, or a file the handler
    encodes itself. *)
Definition resolve_output (request : GenerateVideoRequest) (output_dir : key)
  (result : worker_result) : Py world pyval :=
  match result with
  | RDict items =>
      let output_path :=
        py_or (dict_get "save_path" items) (dict_get "output_video_path" items) in
      if negb (truthy_val output_path) then
        output_path <- fresh_output_path output_dir ;;
        match dict_lookup "video" items with
        | Some video_frames =>
            mimsave output_path video_frames (fps request) ;;
            ret (VStr output_path)
        | None =>
            raise (PyError "Exception"
                     ("Result dict missing save_path and video data: "
                      +:+ show_keys items))
        end
      else ret output_path
  | RList video =>
      output_path <- fresh_output_path output_dir ;;
      mimsave output_path (VFrames video) (fps request) ;;
      ret (VStr output_path)
  | ROther cls _ =>
      raise (PyError "Exception" ("Unexpected result type: <class '" +:+ cls +:+ "'>"))
  end.

Definition error_response (e : exn) : Py world GenerateVideoResponse :=
  w <- get ;;
  ret {| status := "error"; outputVideoPath := None; frames := None;
         durationMs := None; response_seed := None;
         warnings := warnings_var w; error := Some (str_of_exn e) |}.

(** The first statements of the handler's [try]: the output directory,
    then the generator. *)
Definition prepare (request : GenerateVideoRequest) : Py world nat :=
  let output_dir := resolve (outputDir request) in
  on_disk (mkdirs output_dir.1 [] output_dir.2) ;;
  try_except get_generator
    (fun e => raise (HTTPException 500
                       ("Failed to load FastVideo model: " +:+ str_of_exn e))).

(** Its last statements: the existence check and the response. *)
Definition finish (request : GenerateVideoRequest) (duration_ms : Z)
  (output_path : pyval) : Py world GenerateVideoResponse :=
  path <- as_path output_path ;;
  there <- on_disk (path_exists path) ;;
  if negb there then
    raise (HTTPException 500
             ("Video generation succeeded but output file not created: "
              +:+ str_val output_path))
  else
    w <- get ;;
    ret {| status := "complete";
           outputVideoPath := Some (str_val output_path);
           frames := Some (numFrames request);
           durationMs := Some duration_ms;
           response_seed := seed request;
           warnings := warnings_var w;
           error := None |}.

(** The two outer [except] clauses. *)
Definition outer_except (e : exn) : Py world GenerateVideoResponse :=
  match e with
  | HTTPException _ _ => raise e
  | PyError _ _ => error_response e
  end.

(** The handler of [POST /generate]. *)
Definition generate_video (request : GenerateVideoRequest)
  : Py world GenerateVideoResponse :=
  start_time <- time_time ;;
  modify (set_warnings []) ;;
  try_except
    (generator <- prepare request ;;
     start_image <- load_keyframe request ;;
     result <- run_worker generator (sampling_param_of request start_image) ;;
     end_time <- time_time ;;
     let duration_ms := end_time - start_time in
     output_path <- resolve_output request (resolve (outputDir request)) result ;;
     finish request duration_ms output_path)
    outer_except.

(** What goes back over HTTP. *)
Inductive http_body : Type :=
| Model (r : GenerateVideoResponse)  (* the response model, as JSON *)
| Detail (detail : string)           (* an [HTTPException]'s detail *)
| Invalid (fields : list string).    (* the request model's validation errors *)

Record http_response : Type := {
  http_status : Z;
  body : http_body }.

(** [POST /generate] as FastAPI serves it: a body that violates the
    request model is answered 422 before the handler runs; an
    [HTTPException] of the handler becomes its status and detail; a
    returned model is a 200. *)
Definition post_generate (request : GenerateVideoRequest) (w : world)
  : http_response * world :=
  if valid_request request then
    match generate_video request w with
    | (Ok r, w') => ({| http_status := 200; body := Model r |}, w')
    | (Raise (HTTPException code detail), w') =>
        ({| http_status := code; body := Detail detail |}, w')
    | (Raise (PyError _ _), w') =>
        ({| http_status := 500; body := Detail "Internal Server Error" |}, w')
    end
  else ({| http_status := 422; body := Invalid (invalid_fields request) |}, w).

End FastVideo.

(* ===================================================================== *)
(** ** Vocabulary of the statements                                       *)
(* ===================================================================== *)

Section Vocabulary.
Import Posix.

(** The non-empty prefixes of a list, shortest first. *)
Fixpoint heads {A} (l : list A) : list (list A) :=
  match l with
  | [] => []
  | x :: rest => [x] :: List.map (cons x) (heads rest)
  end.

(** The keys [mkdirs abs above todo] visits, in order. *)
Definition steps (abs : bool) (above todo : list string) : list key :=
  List.map (fun q => (abs, above ++ q)) (heads todo).

(** The directories on the way down to a key, the key itself last. *)
Definition chain (k : key) : list key := steps k.1 [] k.2.

Definition is_file_at (t : gmap key node) (k : key) : bool :=
  match t !! k with Some (File _) => true | _ => false end.

Definition is_dir_at (t : gmap key node) (k : key) : bool :=
  match t !! k with Some Dir => true | _ => false end.

(** No regular file sits where [os.makedirs p] needs a directory. *)
Definition clear_way (t : gmap key node) (p : string) : bool :=
  forallb (fun k => negb (is_file_at t k)) (chain (resolve p)).

(** The directory [p] and all its parents exist. *)
Definition dir_exists (t : gmap key node) (p : string) : bool :=
  forallb (is_dir_at t) (chain (resolve p)).

(** No system call fails for reasons outside the name space. *)
Definition no_faults (w : Posix.world) : Prop := forall c, fault w c = None.

(** The same world at a later reading of the clock. *)
Definition at_time (t : struct_time) (w : Posix.world) : Posix.world :=
  {| tree := tree w; fault := fault w; torn := torn w; trace := trace w;
     stdout := stdout w; utc := t |}.

(** The text of the marker written at time [t]. *)
Definition marker_text (t : struct_time) (frame_count : option Z) : string :=
  Marker.json_dumps (Marker.payload_of (Marker.strftime_iso t) frame_count).

(** What file operations leave alone: the environment's oracle and
    clock, and which keys are directories. *)
Definition same_env (w w' : Posix.world) : Prop :=
  fault w' = fault w ∧ torn w' = torn w ∧ utc w' = utc w.

Definition dirs_kept (w w' : Posix.world) : Prop :=
  forall k, tree w' !! k = Some Dir ↔ tree w !! k = Some Dir.

Definition file_step (w w' : Posix.world) : Prop :=
  same_env w w' ∧ dirs_kept w w'.

(** A computation all of whose runs are file steps. *)
Definition keeps_dirs {A} (c : Py Posix.world A) : Prop :=
  forall w r w', c w = (r, w') → file_step w w'.

(** The calls of the atomic path and of the direct write, in order. *)
Definition atomic_calls (tmp final text : string) : list syscall :=
  [SysOpen tmp; SysWrite tmp text; SysFlush tmp; SysFsync tmp; SysClose tmp;
   SysReplace tmp final].

Definition direct_calls (final text : string) : list syscall :=
  [SysOpen final; SysWrite final text; SysClose final].

(** The best-effort removal of the temporary file, as the fallback
    does it. *)
Definition cleanup (tmp : string) : Py Posix.world unit :=
  try_except
    (bind (path_exists tmp)
       (fun there : bool => if there then os_remove tmp else ret tt))
    (fun _ => ret tt).

(** The world once the temporary file is written, flushed, synced and
    closed. *)
Definition tmp_written (tmp text : string) (w : Posix.world) : Posix.world :=
  record_call (SysClose tmp)
    (record_call (SysFsync tmp)
       (record_call (SysFlush tmp)
          (set_tree (append_to (resolve tmp) text)
             (record_call (SysWrite tmp text)
                (set_tree (insert (resolve tmp) (File EmptyString))
                   (record_call (SysOpen tmp) w)))))).

(** The world the atomic path leaves when nothing fails. *)
Definition after_atomic (tmp final text : string) (w : Posix.world) : Posix.world :=
  add_line (Marker.msg_atomic final)
    (set_tree (fun t => <[resolve final := File text]> (delete (resolve tmp) t))
       (record_call (SysReplace tmp final) (tmp_written tmp text w))).

(** The world a direct write of [final] leaves when nothing fails. *)
Definition after_direct (final text : string) (w : Posix.world) : Posix.world :=
  record_call (SysClose final)
    (set_tree (append_to (resolve final) text)
       (record_call (SysWrite final text)
          (set_tree (insert (resolve final) (File EmptyString))
             (record_call (SysOpen final) w)))).

(** The world the fallback leaves when its direct write and its removal
    of the temporary file both work, after [exc] was caught in world [w]. *)
Definition after_fallback (tmp final text : string) (exc : exn) (w : Posix.world)
  : Posix.world :=
  add_line (Marker.msg_fallback final)
    (set_tree (delete (resolve tmp))
       (record_call (SysRemove tmp)
          (record_call (SysStat tmp)
             (after_direct final text (add_line (Marker.msg_degraded exc) w))))).

(** A disk with nothing on it and no failing call, on 3 November 2025. *)
Definition quiet_disk : Posix.world :=
  {| tree := ∅; fault := fun _ => None; torn := 0; trace := []; stdout := [];
     utc := {| tm_year := 2025; tm_mon := 11; tm_mday := 3;
               tm_hour := 9; tm_min := 44; tm_sec := 7 |} |}.

End Vocabulary.

Section WaiterVocabulary.
Import Waiter.

(** The frame the next [recv] brings, how long that [recv] blocks, and the
    world when it returns. *)
Definition next_frame (w : Waiter.world) : frame := (inbox w (received w)).2.

Definition next_wait (w : Waiter.world) : Z := Z.pos (inbox w (received w)).1.

Definition after_recv (w : Waiter.world) : Waiter.world :=
  {| hz := hz w; now := now w + next_wait w; connect_takes := connect_takes w;
     connect_error := connect_error w; inbox := inbox w;
     received := S (received w); connected := connected w;
     stdout := stdout w |}.

(** The frame the [i]-th [recv] from now brings, and the ticks the first
    [count] receives from now take together. *)
Definition frame_at (w : Waiter.world) (i : nat) : frame :=
  (inbox w (received w + i)).2.

Fixpoint ticks (script : nat → positive * frame) (from count : nat) : Z :=
  match count with
  | O => 0
  | S count' => Z.pos (script from).1 + ticks script (S from) count'
  end.

Definition ticks_before (w : Waiter.world) (count : nat) : Z :=
  ticks (inbox w) (received w) count.

(** Does a parsed message end the wait, and with which answer?
    ['executed'] ends it with [True]; ['error'] ends it with [False],
    unless its ['data'] is not a dict (then [.get] raises and the loop goes
    on). *)
Definition verdict (data : json) : option bool :=
  match data with
  | JObject fields =>
      let msg_type := get_or "type" JNull fields in
      if py_eq msg_type (JString "executed") then Some true
      else if py_eq msg_type (JString "error") then
        match get_or "data" (JObject []) fields with
        | JObject _ => Some false
        | _ => None
        end
      else None
  | _ => None
  end.

Definition terminal (f : frame) : option bool :=
  match f with
  | Text (Some data) => verdict data
  | _ => None
  end.

(** The exception message an ['error'] message carries. *)
Definition exception_message (data : json) : json :=
  match data with
  | JObject fields =>
      match get_or "data" (JObject []) fields with
      | JObject d => get_or "exception_message" (JString "Unknown error") d
      | _ => JString "Unknown error"
      end
  | _ => JString "Unknown error"
  end.

(** The line printed when a message ends the wait. *)
Definition last_line (f : frame) : string :=
  match f with
  | Text (Some (JObject fields)) =>
      if py_eq (get_or "type" JNull fields) (JString "executed")
      then "   ✅ Generation complete!"
      else "   ❌ Error: " +:+ py_str (exception_message (JObject fields))
  | _ => EmptyString
  end.

(** What printing and closing leave alone: the clock and the peer. *)
Definition same_clock (w w' : Waiter.world) : Prop :=
  hz w' = hz w ∧ now w' = now w ∧ inbox w' = inbox w ∧ received w' = received w.

Definition clock_quiet {A} (c : Py Waiter.world A) : Prop :=
  forall w r w', c w = (r, w') → same_clock w w'.

(** Ticks of the timeout. *)
Definition deadline (timeout : Z) (w : Waiter.world) : Z := timeout * Z.pos (hz w).

(** The loop was left because the [j]-th message from [w] on ended the
    wait with [value]: no earlier message did, and the timeout had not
    elapsed when that message's [recv] began. *)
Definition exits_on_message (timeout start : Z) (w w' : Waiter.world) (value : bool)
  : Prop :=
  ∃ j : nat,
    (∀ i : nat, (i < j)%nat → terminal (frame_at w i) = None)
    ∧ terminal (frame_at w j) = Some value
    ∧ now w + ticks_before w j - start < deadline timeout w
    ∧ now w' = now w + ticks_before w (S j)
    ∧ received w' = (received w + S j)%nat
    ∧ connected w' = false
    ∧ ∃ lines, stdout w' = lines ++ [last_line (frame_at w j)].

Definition timeout_line (timeout : Z) : string :=
  "❌ Timeout after " +:+ pretty timeout +:+ " seconds".

(** The loop was left because the timeout had elapsed when its test was
    evaluated for the [k]-th time from [w] on, no message having ended the
    wait before. *)
Definition exits_on_timeout (timeout start : Z) (w w' : Waiter.world) : Prop :=
  ∃ k : nat,
    (∀ i : nat, (i < k)%nat →
       terminal (frame_at w i) = None
       ∧ now w + ticks_before w i - start < deadline timeout w)
    ∧ deadline timeout w ≤ now w + ticks_before w k - start
    ∧ now w' = now w + ticks_before w k
    ∧ received w' = (received w + k)%nat
    ∧ connected w' = false
    ∧ ∃ lines, stdout w' = lines ++ [timeout_line timeout].

(** The world when the loop is entered: the banner is printed and the
    connection is open. *)
Definition loop_entry (timeout : Z) (w : Waiter.world) : Waiter.world :=
  (create_connection
     (Waiter.add_line (nl +:+ "⏳ Waiting for generation (timeout: "
                       +:+ pretty timeout +:+ "s)...") w)).2.


(** A peer that says nothing: every [recv] times out after ten ticks. *)
Definition silent (k : nat) : positive * frame := (10%positive, RecvError "timed out").

(** A peer whose first message is an error, after three ticks. *)
Definition failing (k : nat) : positive * frame :=
  match k with
  | O => (3%positive,
          Text (Some (JObject [("type", JString "error");
                               ("data", JObject [("exception_message",
                                                  JString "CUDA out of memory")])])))
  | _ => silent k
  end.

(** A peer that reports progress and then completion. *)
Definition finishing (k : nat) : positive * frame :=
  match k with
  | O => (2%positive,
          Text (Some (JObject [("type", JString "progress");
                               ("data", JObject [("value", JNum 1); ("max", JNum 4)])])))
  | 1%nat => (2%positive, Text (Some (JObject [("type", JString "executed")])))
  | _ => silent k
  end.

(** A client about to wait: one tick per second, the clock at 100, a
    connection that takes eight seconds to open. *)
Definition waiting_for (script : nat → positive * frame) : Waiter.world :=
  {| hz := 1; now := 100; connect_takes := 8; connect_error := None;
     inbox := script; received := 0; connected := false; stdout := [] |}.

End WaiterVocabulary.

Section AdapterVocabulary.
Import Posix FastVideo.
Local Open Scope py_scope.

(** The two signatures the handler looks for in a worker's error text. *)
Definition oom_signature (error_msg : string) : bool :=
  Str.contains "CUDA out of memory" error_msg
  || Str.contains "OutOfMemoryError" error_msg.

Definition model_signature (error_msg : string) : bool :=
  Str.contains "No such file" error_msg
  || Str.contains "model" (Str.lower error_msg).

(** No [","] occurs in [s]. *)
Fixpoint comma_free (s : string) : bool :=
  match s with
  | EmptyString => true
  | String c s' => negb (Ascii.eqb c ","%char) && comma_free s'
  end.

(** Decoding proper: base64, then the image, then the conversion to
    RGB. *)
Definition decode_payload (payload : string) : Py FastVideo.world image :=
  w <- get ;;
  image_data <- of_res (b64decode (lib w) payload) ;;
  img <- of_res (image_open (lib w) image_data) ;;
  ret (convert "RGB" img).

(** The world in which the handler's [try] starts. *)
Definition at_start (w : FastVideo.world) : FastVideo.world := set_warnings [] w.

(** A computation that neither touches the module's generator nor
    constructs one. *)
Definition keeps_generator {A} (c : Py FastVideo.world A) : Prop :=
  forall w r w', c w = (r, w') → _generator w' = _generator w ∧ loads w' = loads w.

(** The service answering requests one after the other. *)
Fixpoint serve (requests : list GenerateVideoRequest) (w : FastVideo.world)
  : list http_response * FastVideo.world :=
  match requests with
  | [] => ([], w)
  | request :: rest =>
      match post_generate request w with
      | (response, w1) =>
          match serve rest w1 with
          | (responses, w2) => (response :: responses, w2)
          end
      end
  end.

(** Libraries for the examples: base64 is the identity on strings without
    an exclamation mark and rejects the others, every image opens
    as a 300 by 300 palette image, the generator loads in a second and a
    half, and the worker, after four seconds, names an output file that it
    has or has not written. *)
Definition example_libs (loads_fine : bool) (outcome : gmap (bool * list string) node
                                               → res worker_result * gmap (bool * list string) node)
  : libs :=
  {| b64decode := fun s =>
       if Str.contains "!" s then Raise (PyError "binascii.Error" "Incorrect padding")
       else Ok s;
     image_open := fun data => Ok {| mode := "P"; size := (300, 300); raster := data |};
     construct := fun n =>
       (1500, if loads_fine then Ok n
              else Raise (PyError "RuntimeError" "no CUDA-capable device is detected"));
     generate := fun n g sp files =>
       match outcome files with (r, files') => (4000, r, files') end;
     encode := fun video rate => Ok "mp4" |}.

Definition adapter (l : libs) : FastVideo.world :=
  {| disk := quiet_disk; lib := l; time_ms := 1000000; _generator := None;
     loads := 0; calls := []; warnings_var := [] |}.

(** A worker that writes the file it names. *)
Definition writes_file (files : gmap (bool * list string) node)
  : res worker_result * gmap (bool * list string) node :=
  (Ok (RDict [("save_path", VStr "artifacts/fastvideo/out.mp4")]),
   <[(false, ["artifacts"; "fastvideo"; "out.mp4"]) := File "mp4"]> files).


(** A worker that runs out of GPU memory while loading model weights. *)
Definition out_of_memory (files : gmap (bool * list string) node)
  : res worker_result * gmap (bool * list string) node :=
  (Raise (PyError "RuntimeError"
            "CUDA out of memory while moving the model to the device"), files).

Definition example_request : GenerateVideoRequest :=
  {| prompt := "a lighthouse at dusk"; negativePrompt := None;
     keyframeBase64 := None; fps := 16; numFrames := 25;
     width := 576; height := 1024; seed := Some 7;
     outputDir := "artifacts/fastvideo" |}.

Definition with_keyframe (keyframe : string) (r : GenerateVideoRequest)
  : GenerateVideoRequest :=
  {| prompt := prompt r; negativePrompt := negativePrompt r;
     keyframeBase64 := Some keyframe; fps := fps r; numFrames := numFrames r;
     width := width r; height := height r; seed := seed r;
     outputDir := outputDir r |}.

Definition with_frames (n : Z) (r : GenerateVideoRequest) : GenerateVideoRequest :=
  {| prompt := prompt r; negativePrompt := negativePrompt r;
     keyframeBase64 := keyframeBase64 r; fps := fps r; numFrames := n;
     width := width r; height := height r; seed := seed r;
     outputDir := outputDir r |}.

End AdapterVocabulary.

(* ===================================================================== *)
(** ** test_workflow.py: the workflow checks                              *)
(* ===================================================================== *)

(** The workflow is what [json.load] returned: a [Waiter.json] value
    (its numbers are integers: a float, which the two functions would look
    at only as the first element of a two-element list, is outside the
    type).  [update_workflow_image] updates the dicts in place and returns
    the dict it was given; here it returns the updated value, which is
    what the only caller goes on with (the parsed JSON shares no
    sub-object, so nothing else can see the update).  The messages of
    exceptions are CPython 3.11's. *)
Module Workflow.
Import Waiter.
Local Open Scope py_scope.

(** [v.items()] *)
Definition py_items (v : json) : Py world (list (string * json)) :=
  match v with
  | JObject fields => ret fields
  | _ => raise (PyError "AttributeError"
                  ("'" +:+ type_name v +:+ "' object has no attribute 'items'"))
  end.

(** [v[k]] for a string [k] *)
Definition py_getitem (v : json) (k : string) : Py world json :=
  match v with
  | JObject fields =>
      match lookup_field k fields with
      | Some x => ret x
      | None => raise (PyError "KeyError" (quoted k))
      end
  | JArray _ => raise (type_error "list indices must be integers or slices, not str")
  | JString _ => raise (type_error "string indices must be integers, not 'str'")
  | _ => raise (type_error ("'" +:+ type_name v +:+ "' object is not subscriptable"))
  end.

(** A dict after [d[k] = v]: an existing key keeps its place, a new one
    goes to the end. *)
Fixpoint set_field (k : string) (v : json) (fields : list (string * json))
  : list (string * json) :=
  match fields with
  | [] => [(k, v)]
  | (k', v') :: rest =>
      if String.eqb k k' then (k', v) :: rest else (k', v') :: set_field k v rest
  end.

(** [target[k] = v] for a string [k]; the updated target is returned. *)
Definition py_setitem (target : json) (k : string) (v : json) : Py world json :=
  match target with
  | JObject fields => ret (JObject (set_field k v fields))
  | JArray _ => raise (type_error "list indices must be integers or slices, not str")
  | _ => raise (type_error ("'" +:+ type_name target
                            +:+ "' object does not support item assignment"))
  end.

(** The inner loop of [verify_workflow_connections], over the inputs of
    one node. *)
Fixpoint check_inputs (workflow : list (string * json)) (node_id : string)
  (inputs : list (string * json)) (issues : list string) : list string :=
  match inputs with
  | [] => issues
  | (input_name, input_value) :: rest =>
      check_inputs workflow node_id rest
        match input_value with
        | JArray [first; _] =>
            let ref_node_id := py_str first in
            match lookup_field ref_node_id workflow with
            | None =>
                issues ++ ["Node " +:+ node_id +:+ ": references non-existent node "
                           +:+ ref_node_id]
            | Some _ => issues
            end
        | _ => issues
        end
  end.

(** Its outer loop, over the nodes. *)
Fixpoint check_nodes (workflow nodes : list (string * json)) (issues : list string)
  : Py world (list string) :=
  match nodes with
  | [] => ret issues
  | (node_id, node) :: rest =>
      inputs <- py_get node "inputs" (JObject []) ;;
      items <- py_items inputs ;;
      check_nodes workflow rest (check_inputs workflow node_id items issues)
  end.

Fixpoint print_all (lines : list string) : Py world unit :=
  match lines with
  | [] => ret tt
  | line :: rest => print line ;; print_all rest
  end.

Definition verify_workflow_connections (workflow : json) : Py world bool :=
  print (nl +:+ "🔗 Verifying workflow connections...") ;;
  nodes <- py_items workflow ;;
  issues <- check_nodes nodes nodes [] ;;
  match issues with
  | _ :: _ =>
      print "❌ Connection issues found:" ;;
      print_all (List.map (fun issue => "   - " +:+ issue) issues) ;;
      ret false
  | [] =>
      print ("✅ All " +:+ pretty (Z.of_nat (length nodes))
             +:+ " nodes properly connected") ;;
      ret true
  end.

(** The dict [target] seen after the object under its key [k] was updated
    in place and is now [v]. *)
Definition seen_through (k : string) (v : json) (target : json) : json :=
  match target with
  | JObject fields => JObject (set_field k v fields)
  | _ => target
  end.

Definition update_workflow_image (workflow : json) (image_name : string)
  : Py world json :=
  print (nl +:+ "🖼️  Updating workflow with image: " +:+ image_name) ;;
  node <- py_getitem workflow "2" ;;
  inputs <- py_getitem node "inputs" ;;
  inputs' <- py_setitem inputs "image" (JString image_name) ;;
  print ("✅ Workflow updated to use: " +:+ image_name) ;;
  ret (seen_through "2" (seen_through "inputs" inputs' node) workflow).

End Workflow.

Section WorkflowVocabulary.
Import Waiter Workflow.

(** The inputs a node declares, when the node and its ['inputs'] are
    dicts. *)
Definition node_inputs (node : json) : option (list (string * json)) :=
  match node with
  | JObject fields =>
      match get_or "inputs" (JObject []) fields with
      | JObject items => Some items
      | _ => None
      end
  | _ => None
  end.

(** Every input that is a two-element list names, by the string of its
    first element, a node of the workflow. *)
Definition connected_inputs (workflow inputs : list (string * json)) : Prop :=
  ∀ input_name first second,
    In (input_name, JArray [first; second]) inputs →
    lookup_field (py_str first) workflow ≠ None.

Definition all_connected (workflow : list (string * json)) : Prop :=
  ∀ node_id node,
    In (node_id, node) workflow →
    ∃ inputs, node_inputs node = Some inputs ∧ connected_inputs workflow inputs.

(** [workflow['2']['inputs']], when all three are dicts. *)
Definition image_slot (workflow : json) : option (list (string * json)) :=
  match workflow with
  | JObject nodes =>
      match lookup_field "2" nodes with
      | Some (JObject fields) =>
          match lookup_field "inputs" fields with
          | Some (JObject inputs) => Some inputs
          | _ => None
          end
      | _ => None
      end
  | _ => None
  end.

(** A client with nothing on its console. *)
Definition console : Waiter.world := waiting_for silent.

(** A workflow of three nodes: a checkpoint loader, an image loader and a
    sampler that refers to both. *)
Definition small_nodes : list (string * json) :=
    [("1", JObject [("class_type", JString "ImageOnlyCheckpointLoader");
                    ("inputs", JObject [("ckpt_name", JString "svd_xt.safetensors")])]);
     ("2", JObject [("class_type", JString "LoadImage");
                    ("inputs", JObject [("image", JString "example.png")])]);
     ("3", JObject [("class_type", JString "SVD_img2vid_Conditioning");
                    ("inputs", JObject [("clip_vision", JArray [JString "1"; JNum 1]);
                                        ("init_image", JArray [JNum 2; JNum 0]);
                                        ("video_frames", JNum 25)])])].

Definition small_workflow : json := JObject small_nodes.
(** The first line [update_workflow_image] prints. *)
Definition updating_line (image_name : string) : string :=
  nl +:+ "🖼️  Updating workflow with image: " +:+ image_name.

End WorkflowVocabulary.

(* ===================================================================== *)
(** ** scripts/fastvideo/fastvideo_server.py: the health probe            *)
(* ===================================================================== *)

(** [GET /health].  [_model_id] is the module's global, read from the
    environment when the module is imported; [environ] is [os.environ]
    when the probe runs.  The dict it returns goes out as JSON. *)
Module Health.
Import Waiter FastVideo.
Local Open Scope py_scope.

Definition health_check (_model_id : string) (environ : string → option string)
  : Py FastVideo.world json :=
  w <- get ;;
  ret (JObject
         [("status", JString "ok");
          ("service", JString "fastvideo-adapter");
          ("modelId", JString _model_id);
          ("modelLoaded",
           JBool (match _generator w with Some _ => true | None => false end));
          ("attentionBackend",
           JString (default "VIDEO_SPARSE_ATTN"
                      (environ "FASTVIDEO_ATTENTION_BACKEND")))]).

End Health.

Section HealthVocabulary.
Import Waiter FastVideo Health.

(** What the probe says about the generator in world [w]. *)
Definition model_loaded (w : FastVideo.world) : json :=
  match (health_check "hao-ai-lab/FastHunyuan-diffusers" (fun _ => None) w).1 with
  | Ok (JObject fields) => get_or "modelLoaded" JNull fields
  | _ => JNull
  end.

End HealthVocabulary.

(* ===================================================================== *)
(** ** More vocabulary: footprints, traffic, the handler's stages         *)
(* ===================================================================== *)

#[global] Instance syscall_eq_dec : EqDecision Posix.syscall.
Proof. solve_decision. Defined.

Section PublicationVocabulary.
Import Posix.

(** A computation that changes the tree at the keys [ks] at most. *)
Definition only_touches {A} (ks : list (bool * list string)) (c : Py Posix.world A)
  : Prop :=
  ∀ w r w', c w = (r, w') → ∀ k, k ∉ ks → tree w' !! k = tree w !! k.

(** An empty disk on which the calls [bad] names fail; a failing write
    leaves its first [n] bytes behind. *)
Definition faulty_disk (bad : syscall → option string) (n : nat) : Posix.world :=
  {| tree := ∅; fault := bad; torn := n; trace := []; stdout := [];
     utc := utc quiet_disk |}.

(** Every [os.replace] fails. *)
Definition cross_device (c : syscall) : option string :=
  match c with
  | SysReplace _ _ => Some "[Errno 18] Invalid cross-device link"
  | _ => None
  end.

(** Every [os.replace] fails, and so does every write to [final]. *)
Definition disk_full (final : string) (c : syscall) : option string :=
  match c with
  | SysReplace _ _ => Some "[Errno 18] Invalid cross-device link"
  | SysWrite p _ =>
      if String.eqb p final then Some "[Errno 28] No space left on device" else None
  | _ => None
  end.

(** The oracle under which the call [bad] fails with [msg] and no other
    call fails. *)
Definition only_fails (bad : syscall) (msg : string) (c : syscall) : option string :=
  if decide (c = bad) then Some msg else None.

End PublicationVocabulary.

Section TrafficVocabulary.
Import Waiter.

(** The first message that ends the wait is the [j]-th from [w] on, says
    [value], and its [recv] begins before the timeout has elapsed,
    counted from [w]. *)
Definition ends_wait (timeout : Z) (w : Waiter.world) (j : nat) (value : bool) : Prop :=
  (∀ i : nat, (i < j)%nat → terminal (frame_at w i) = None)
  ∧ terminal (frame_at w j) = Some value
  ∧ ticks_before w j < deadline timeout w.

(** Two clients that hear the same traffic, as far as the wait can tell:
    the same clock, and receives that take as long and bring frames that
    end the wait, or do not, alike. *)
Definition same_traffic (a b : Waiter.world) : Prop :=
  hz a = hz b ∧ now a = now b ∧ received a = received b
  ∧ ∀ k : nat, (inbox a k).1 = (inbox b k).1
               ∧ terminal (inbox a k).2 = terminal (inbox b k).2.

(** A peer that sends [noise] first and then reports completion. *)
Definition finishing_after (noise : frame) (k : nat) : positive * frame :=
  match k with
  | O => (2%positive, noise)
  | 1%nat => (2%positive, Text (Some (JObject [("type", JString "executed")])))
  | _ => silent k
  end.

(** A peer that reports completion after thirty seconds of silence. *)
Definition finishing_late (k : nat) : positive * frame :=
  match k with
  | 3%nat => (2%positive, Text (Some (JObject [("type", JString "executed")])))
  | _ => silent k
  end.

End TrafficVocabulary.

Section HandlerVocabulary.
Import Posix FastVideo.
Local Open Scope py_scope.

(** A computation that leaves [f] of the world as it is. *)
Definition leaves {A B} (f : FastVideo.world → B) (c : Py FastVideo.world A) : Prop :=
  ∀ w r w', c w = (r, w') → f w' = f w.

(** The exceptions the handler's [try] block lets through to its outer
    [except] clauses: any exception that is not an [HTTPException], and
    the [HTTPException]s of the handler itself. *)
Definition from_handler (e : exn) : Prop :=
  match e with
  | HTTPException code _ => code = 400 ∨ code = 500 ∨ code = 507
  | PyError _ _ => True
  end.

Definition not_http {A} (r : res A) : Prop :=
  match r with
  | Raise (HTTPException _ _) => False
  | _ => True
  end.

(** imageio knows nothing of FastAPI: encoding raises no
    [HTTPException]. *)
Definition plain_encoder (l : libs) : Prop :=
  ∀ video rate, not_http (encode l video rate).

(** The handler's [try] block, [start] being the clock read before
    it. *)
Definition handler_body (request : GenerateVideoRequest) (start : Z)
  : Py FastVideo.world GenerateVideoResponse :=
  generator <- prepare request ;;
  start_image <- load_keyframe request ;;
  result <- run_worker generator (sampling_param_of request start_image) ;;
  end_time <- time_time ;;
  output_path <- resolve_output request (resolve (outputDir request)) result ;;
  finish request (end_time - start) output_path.

(** The in-band error response. *)
Definition error_model (msg : string) (ws : list string) : GenerateVideoResponse :=
  {| status := "error"; outputVideoPath := None; frames := None;
     durationMs := None; response_seed := None; warnings := ws; error := Some msg |}.

(** A worker that returns an empty dict. *)
Definition returns_nothing (files : gmap (bool * list string) node)
  : res worker_result * gmap (bool * list string) node :=
  (Ok (RDict []), files).

(** A worker that returns frame counts and no video. *)
Definition returns_metadata (files : gmap (bool * list string) node)
  : res worker_result * gmap (bool * list string) node :=
  (Ok (RDict [("num_frames", VStr "25"); ("save_path", VNone)]), files).

(** The warning for a keyframe of another size than the request's. *)
Definition resized_line (from : Z * Z) (request : GenerateVideoRequest) : string :=
  "Keyframe resized from " +:+ show_size from
  +:+ " to " +:+ show_size (width request, height request).

(** A request that writes below [artifacts/fastvideo] finds a regular
    file called [artifacts]. *)
Definition blocked_adapter : FastVideo.world :=
  set_disk (set_tree (insert (false, ["artifacts"]) (File "notes")) quiet_disk)
    (adapter (example_libs true writes_file)).




End HandlerVocabulary.


(* ===================================================================== *)
(** ** Paths                                                              *)
(* ===================================================================== *)

Section PathLemmas.
Import Posix.

Lemma append_nil_r (s : string) : s +:+ EmptyString = s.
Proof. induction s as [|c s IH]; [done | by rewrite <- IH at 2]. Qed.

Lemma append_assoc (a b c : string) : (a +:+ b) +:+ c = a +:+ (b +:+ c).
Proof.
  induction a as [|x a IH]; [done |].
  change (String x ((a +:+ b) +:+ c) = String x (a +:+ b +:+ c)). by rewrite IH.
Qed.

Lemma split_slash_nonempty (s : string) : Str.split_slash s ≠ [].
Proof.
  destruct s as [|c s]; simpl; [done |].
  destruct (Ascii.eqb c Str.slash); [done |].
  by destruct (Str.split_slash s).
Qed.

Lemma split_slash_app (a b : string) :
  Str.split_slash (a +:+ String Str.slash b) = Str.split_slash a ++ Str.split_slash b.
Proof.
  induction a as [|c a IH].
  - reflexivity.
  - change (String c a +:+ String Str.slash b) with (String c (a +:+ String Str.slash b)).
    cbn [Str.split_slash].
    destruct (Ascii.eqb c Str.slash); rewrite IH; [done |].
    pose proof (split_slash_nonempty a) as Hne.
    by destruct (Str.split_slash a).
Qed.

Lemma split_slash_free (n : string) :
  Str.slash_free n = true → Str.split_slash n = [n].
Proof.
  induction n as [|c n IH]; simpl; [done |].
  destruct (Ascii.eqb c Str.slash); simpl; [done |].
  intros H. by rewrite (IH H).
Qed.

Lemma slash_free_app (a b : string) :
  Str.slash_free (a +:+ b) = Str.slash_free a && Str.slash_free b.
Proof.
  induction a as [|c a IH]; simpl; [done |].
  rewrite IH. by destruct (Ascii.eqb c Str.slash).
Qed.

Lemma endswith_slash_inv (d : string) :
  Str.endswith_slash d = true → ∃ d', d = d' +:+ String Str.slash EmptyString.
Proof.
  induction d as [|c d IH]; simpl; [done |].
  destruct d as [|c' d].
  - intros H%Ascii.eqb_eq. subst c. by exists EmptyString.
  - intros H. destruct (IH H) as [d' Hd']. exists (String c d').
    rewrite Hd'. reflexivity.
Qed.

(** Appending a slash-free suffix extends the last component. *)
Lemma split_slash_app_free (a e : string) :
  Str.slash_free e = true →
  Str.split_slash (a +:+ e) =
    removelast (Str.split_slash a) ++ [List.last (Str.split_slash a) EmptyString +:+ e].
Proof.
  intros He. induction a as [|c a IH].
  - simpl. by apply split_slash_free.
  - change (String c a +:+ e) with (String c (a +:+ e)).
    cbn [Str.split_slash].
    pose proof (split_slash_nonempty a) as Hne.
    destruct (Ascii.eqb c Str.slash).
    + rewrite IH. destruct (Str.split_slash a) as [|x xs]; [done |].
      reflexivity.
    + rewrite IH. destruct (Str.split_slash a) as [|x xs]; [done |].
      destruct xs as [|y ys]; reflexivity.
Qed.

Lemma startswith_slash_app (d x : string) :
  d ≠ EmptyString → Str.startswith "/" (d +:+ x) = Str.startswith "/" d.
Proof. by destruct d. Qed.

Lemma slash_free_not_abs (n : string) :
  Str.slash_free n = true → Str.startswith "/" n = false.
Proof.
  destruct n as [|c n]; [done |].
  cbn [Str.slash_free Str.startswith].
  destruct (Ascii.eqb_spec c Str.slash) as [->|Hne]; [done |].
  intros _. destruct (Ascii.eqb_spec "/"%char c) as [<-|]; [done | reflexivity].
Qed.

Lemma real_name_empty : ¬ real_name EmptyString.
Proof. by intros [? _]. Qed.

Lemma filter_real_singleton (n : string) :
  real_name n → filter real_name [n] = [n].
Proof. intros H. by rewrite filter_cons_True. Qed.

Lemma filter_real_empty : filter real_name [EmptyString] = [].
Proof. rewrite filter_cons_False; [done | apply real_name_empty]. Qed.

(** Joining a directory and a plain file name. *)
Lemma path_join_cases (d n : string) :
  Str.slash_free n = true →
  (d = EmptyString ∧ path_join d n = n) ∨
  (∃ d', d = d' +:+ String Str.slash EmptyString ∧ path_join d n = d' +:+ String Str.slash n) ∨
  (d ≠ EmptyString ∧ Str.endswith_slash d = false ∧ path_join d n = d +:+ String Str.slash n).
Proof.
  intros Hn. unfold path_join. rewrite (slash_free_not_abs n Hn).
  destruct (String.eqb_spec d EmptyString) as [->|Hd].
  - left. done.
  - destruct (Str.endswith_slash d) eqn:E.
    + right; left. apply endswith_slash_inv in E as [d' ->]. exists d'.
      split; [done |]. cbn [orb]. cbv iota. by rewrite append_assoc.
    + right; right. done.
Qed.

Lemma components_join (d n : string) :
  Str.slash_free n = true → real_name n →
  components (path_join d n) = components d ++ [n].
Proof.
  intros Hn Hreal. unfold components.
  destruct (path_join_cases d n Hn) as [[-> ->]|[(d' & -> & ->)|(_ & _ & ->)]].
  - rewrite (split_slash_free n Hn).
    change (Str.split_slash EmptyString) with [EmptyString].
    by rewrite filter_real_empty, filter_real_singleton.
  - rewrite !split_slash_app, !filter_app, (split_slash_free n Hn).
    change (Str.split_slash EmptyString) with [EmptyString].
    by rewrite filter_real_empty, filter_real_singleton, app_nil_r.
  - by rewrite split_slash_app, filter_app, (split_slash_free n Hn),
      filter_real_singleton.
Qed.

Lemma is_abs_join (d n : string) :
  Str.slash_free n = true → is_abs (path_join d n) = is_abs d.
Proof.
  intros Hn. unfold is_abs.
  destruct (path_join_cases d n Hn) as [[-> ->]|[(d' & -> & ->)|(Hd & _ & ->)]].
  - by apply slash_free_not_abs.
  - destruct d'; reflexivity.
  - by apply startswith_slash_app.
Qed.

Lemma resolve_join (d n : string) :
  Str.slash_free n = true → real_name n →
  resolve (path_join d n) = ((resolve d).1, (resolve d).2 ++ [n]).
Proof.
  intros Hn Hreal. unfold resolve.
  by rewrite is_abs_join, components_join.
Qed.

Lemma last_split_join (d n : string) :
  Str.slash_free n = true →
  List.last (Str.split_slash (path_join d n)) EmptyString = n.
Proof.
  intros Hn.
  destruct (path_join_cases d n Hn) as [[-> ->]|[(d' & -> & ->)|(_ & _ & ->)]];
    rewrite ?split_slash_app, (split_slash_free n Hn), ?last_last; done.
Qed.

Lemma dirlike_join (d n : string) :
  Str.slash_free n = true → real_name n → dirlike (path_join d n) = false.
Proof.
  intros Hn Hreal. unfold dirlike. rewrite (last_split_join d n Hn).
  apply bool_decide_eq_false. tauto.
Qed.

Lemma parent_snoc (b : bool) (l : list string) (n : string) :
  parent (b, l ++ [n]) = (b, l).
Proof. unfold parent. simpl. by rewrite removelast_last. Qed.

Lemma length_append (a b : string) :
  String.length (a +:+ b) = (String.length a + String.length b)%nat.
Proof.
  induction a as [|c a IH]; [done |].
  change (S (String.length (a +:+ b)) = S (String.length a + String.length b)).
  by rewrite IH.
Qed.

(** The two file names of a marker. *)
Lemma real_name_done (x e : string) : real_name (x +:+ ".done" +:+ e).
Proof.
  split; intros H; apply (f_equal String.length) in H;
    rewrite !length_append in H; simpl in H; lia.
Qed.

End PathLemmas.

(* ===================================================================== *)
(** ** Reasoning about [Py] computations and file steps                   *)
(* ===================================================================== *)

Section MonadLemmas.
Context {W A B : Type}.

Lemma bind_ok (c : Py W A) (k : A → Py W B) (w w' : W) (a : A) :
  c w = (Ok a, w') → bind c k w = k a w'.
Proof. intros H. unfold bind. by rewrite H. Qed.

Lemma bind_raise (c : Py W A) (k : A → Py W B) (w w' : W) (e : exn) :
  c w = (Raise e, w') → bind c k w = (Raise e, w').
Proof. intros H. unfold bind. by rewrite H. Qed.

Lemma bind_inv (c : Py W A) (k : A → Py W B) (w w' : W) (r : res B) :
  bind c k w = (r, w') →
  (∃ a w1, c w = (Ok a, w1) ∧ k a w1 = (r, w')) ∨
  (∃ e, c w = (Raise e, w') ∧ r = Raise e).
Proof.
  unfold bind. destruct (c w) as [[a|e] w1]; intros H.
  - left. eauto.
  - right. inversion H; subst. eauto.
Qed.

Lemma try_except_ok (c : Py W A) (h : exn → Py W A) (w w' : W) (a : A) :
  c w = (Ok a, w') → try_except c h w = (Ok a, w').
Proof. intros H. unfold try_except. by rewrite H. Qed.

Lemma try_except_raise (c : Py W A) (h : exn → Py W A) (w w' : W) (e : exn) :
  c w = (Raise e, w') → try_except c h w = h e w'.
Proof. intros H. unfold try_except. by rewrite H. Qed.

Lemma try_except_inv (c : Py W A) (h : exn → Py W A) (w w' : W) (r : res A) :
  try_except c h w = (r, w') →
  (∃ a, c w = (Ok a, w') ∧ r = Ok a) ∨
  (∃ e w1, c w = (Raise e, w1) ∧ h e w1 = (r, w')).
Proof.
  unfold try_except. destruct (c w) as [[a|e] w1]; intros H.
  - left. inversion H; subst. eauto.
  - right. eauto.
Qed.

Lemma try_finally_inv (c : Py W A) (f : Py W unit) (w w' : W) (r : res A) :
  try_finally c f w = (r, w') →
  ∃ r1 w1 r2, c w = (r1, w1) ∧ f w1 = (r2, w') ∧
    match r2 with Ok _ => r = r1 | Raise e => r = Raise e end.
Proof.
  unfold try_finally. destruct (c w) as [r1 w1].
  destruct (f w1) as [[u|e] w2] eqn:E; intros H; inversion H; subst.
  - by exists r, w1, (Ok u).
  - by exists r1, w1, (Raise e).
Qed.
End MonadLemmas.

Section Stability.
Import Posix.

Lemma file_step_refl (w : Posix.world) : file_step w w.
Proof. by repeat split. Qed.

Lemma file_step_trans (w1 w2 w3 : Posix.world) :
  file_step w1 w2 → file_step w2 w3 → file_step w1 w3.
Proof.
  intros [(F1 & T1 & U1) D1] [(F2 & T2 & U2) D2].
  repeat split; try congruence; intros H.
  - apply D1, D2, H.
  - apply D2, D1, H.
Qed.

Lemma keeps_ret {A} (a : A) : keeps_dirs (ret a).
Proof. intros w r w' [= <- <-]. apply file_step_refl. Qed.

Lemma keeps_raise {A} (e : exn) : keeps_dirs (@raise _ A e).
Proof. intros w r w' [= <- <-]. apply file_step_refl. Qed.

Lemma keeps_get : keeps_dirs (@get Posix.world).
Proof. intros w r w' [= <- <-]. apply file_step_refl. Qed.

Lemma keeps_bind {A B} (c : Py Posix.world A) (k : A → Py Posix.world B) :
  keeps_dirs c → (∀ a, keeps_dirs (k a)) → keeps_dirs (bind c k).
Proof.
  intros Hc Hk w r w' H.
  apply bind_inv in H as [(a & w1 & H1 & H2)|(e & H1 & _)].
  - eapply file_step_trans; [eapply Hc | eapply Hk]; eauto.
  - eapply Hc; eauto.
Qed.

Lemma keeps_try_except {A} (c : Py Posix.world A) (h : exn → Py Posix.world A) :
  keeps_dirs c → (∀ e, keeps_dirs (h e)) → keeps_dirs (try_except c h).
Proof.
  intros Hc Hh w r w' H.
  apply try_except_inv in H as [(a & H1 & _)|(e & w1 & H1 & H2)].
  - eapply Hc; eauto.
  - eapply file_step_trans; [eapply Hc | eapply Hh]; eauto.
Qed.

Lemma keeps_try_finally {A} (c : Py Posix.world A) (f : Py Posix.world unit) :
  keeps_dirs c → keeps_dirs f → keeps_dirs (try_finally c f).
Proof.
  intros Hc Hf w r w' H.
  apply try_finally_inv in H as (r1 & w1 & r2 & H1 & H2 & _).
  eapply file_step_trans; [eapply Hc | eapply Hf]; eauto.
Qed.

Lemma keeps_print (line : string) : keeps_dirs (print line).
Proof. intros w r w' [= <- <-]. by repeat split. Qed.

Lemma keeps_call (c : syscall) : keeps_dirs (call c).
Proof.
  intros w r w'. unfold call. destruct (fault w c); intros [= <- <-];
    by repeat split.
Qed.

(** Replacing the tree keeps directories when the new tree has the same
    ones. *)
Lemma keeps_set_tree (f : gmap key node → gmap key node) (w : Posix.world) :
  (∀ k, f (tree w) !! k = Some Dir ↔ tree w !! k = Some Dir) →
  file_step w (set_tree f w).
Proof. intros H. split; [by repeat split | exact H]. Qed.

Lemma insert_file_dirs (t : gmap key node) (k : key) (d : string) :
  t !! k ≠ Some Dir →
  ∀ k', <[k := File d]> t !! k' = Some Dir ↔ t !! k' = Some Dir.
Proof.
  intros Hk k'. destruct (decide (k = k')) as [<-|Hne].
  - rewrite lookup_insert_eq. split; [done | intros H; by rewrite H in Hk].
  - by rewrite lookup_insert_ne.
Qed.

Lemma delete_file_dirs (t : gmap key node) (k : key) :
  t !! k ≠ Some Dir →
  ∀ k', delete k t !! k' = Some Dir ↔ t !! k' = Some Dir.
Proof.
  intros Hk k'. destruct (decide (k = k')) as [<-|Hne].
  - rewrite lookup_delete_eq. split; [done | intros H; by rewrite H in Hk].
  - by rewrite lookup_delete_ne.
Qed.

Lemma append_to_dirs (t : gmap key node) (k : key) (d : string) :
  ∀ k', append_to k d t !! k' = Some Dir ↔ t !! k' = Some Dir.
Proof.
  unfold append_to. destruct (t !! k) as [[|old]|] eqn:E; try done.
  apply insert_file_dirs. by rewrite E.
Qed.

(** A path that is not directory-like and names no directory has a key
    that holds no directory. *)
Lemma node_at_not_dir (t : gmap key node) (p : string) :
  dirlike p = false → node_at t p ≠ Some Dir → t !! resolve p ≠ Some Dir.
Proof.
  unfold node_at. intros Hd.
  destruct (String.eqb p EmptyString) eqn:E.
  - apply String.eqb_eq in E. subst p. done.
  - rewrite Hd. destruct ((resolve p).2); done.
Qed.

Lemma keeps_open_w (p : string) : keeps_dirs (open_w p).
Proof.
  intros w r w'. unfold open_w, bind, call, get, modify, raise, ret.
  destruct (fault w (SysOpen p)); [intros [= <- <-]; by repeat split |].
  cbn [tree record_call].
  destruct (dirlike p) eqn:Hd; [intros [= <- <-]; by repeat split |].
  destruct (negb _); [intros [= <- <-]; by repeat split |].
  destruct (node_at (tree w) p) as [[|d]|] eqn:E; intros [= <- <-];
    try (by repeat split).
  all: split; [by repeat split |].
  all: intros k; cbn [tree set_tree record_call].
  all: apply insert_file_dirs, node_at_not_dir; [done | by rewrite E].
Qed.

Lemma keeps_write (f data : string) : keeps_dirs (write f data).
Proof.
  intros w r w'. unfold write.
  destruct (fault w (SysWrite f data)); intros [= <- <-];
    (split; [by repeat split |]); intros k; apply append_to_dirs.
Qed.

Lemma keeps_flush (f : string) : keeps_dirs (flush f).
Proof. apply keeps_call. Qed.
Lemma keeps_fsync (f : string) : keeps_dirs (fsync f).
Proof. apply keeps_call. Qed.
Lemma keeps_close (f : string) : keeps_dirs (close f).
Proof. apply keeps_call. Qed.

Lemma keeps_with_open_w {A} (p : string) (body : string → Py Posix.world A) :
  (∀ f, keeps_dirs (body f)) → keeps_dirs (with_open_w p body).
Proof.
  intros Hb. unfold with_open_w.
  apply keeps_bind; [apply keeps_open_w | intros f].
  apply keeps_try_finally; [apply Hb | apply keeps_close].
Qed.

Lemma keeps_path_exists (p : string) : keeps_dirs (path_exists p).
Proof.
  intros w r w'. unfold path_exists.
  destruct (fault w (SysStat p)); intros [= <- <-]; by repeat split.
Qed.

Lemma node_at_file (t : gmap key node) (p d : string) :
  node_at t p = Some (File d) → t !! resolve p = Some (File d).
Proof.
  unfold node_at. destruct (String.eqb p EmptyString); [done |].
  destruct (dirlike p).
  - by destruct (is_dir t (resolve p)).
  - by destruct ((resolve p).2).
Qed.

Lemma keeps_os_remove (p : string) : keeps_dirs (os_remove p).
Proof.
  intros w r w'. unfold os_remove, bind, call, get, modify, raise, ret.
  destruct (fault w (SysRemove p)); [intros [= <- <-]; by repeat split |].
  cbn [tree record_call].
  destruct (node_at (tree w) p) as [[|d]|] eqn:E; intros [= <- <-];
    try (by repeat split).
  split; [by repeat split |]. intros k; cbn [tree set_tree record_call].
  apply delete_file_dirs. by rewrite (node_at_file _ _ _ E).
Qed.

Lemma keeps_os_replace (src dst : string) : keeps_dirs (os_replace src dst).
Proof.
  intros w r w'. unfold os_replace, bind, call, get, modify, raise, ret.
  destruct (fault w (SysReplace src dst)); [intros [= <- <-]; by repeat split |].
  cbn [tree record_call].
  destruct (node_at (tree w) src) as [[|d]|] eqn:Es;
    [intros [= <- <-]; by repeat split | | intros [= <- <-]; by repeat split].
  destruct (node_at (tree w) dst) as [[|d']|] eqn:Ed;
    [intros [= <- <-]; by repeat split | |].
  all: destruct (dirlike dst) eqn:Hd; cbn [orb];
    [intros [= <- <-]; by repeat split |].
  all: destruct (negb _); intros [= <- <-]; [by repeat split |].
  all: split; [by repeat split |].
  all: intros k; cbn [tree set_tree record_call].
  all: rewrite insert_file_dirs.
  all: try (apply delete_file_dirs; by rewrite (node_at_file _ _ _ Es)).
  all: rewrite delete_file_dirs by (by rewrite (node_at_file _ _ _ Es)).
  all: apply node_at_not_dir; [done | by rewrite Ed].
Qed.

End Stability.

Section Makedirs.
Import Posix.
Local Open Scope py_scope.

Lemma steps_cons (abs : bool) (above : list string) (c : string) (rest : list string) :
  steps abs above (c :: rest) = (abs, above ++ [c]) :: steps abs (above ++ [c]) rest.
Proof.
  unfold steps. cbn [heads List.map]. f_equal.
  rewrite List.map_map. apply List.map_ext. intros q.
  by rewrite <- app_assoc.
Qed.

Lemma mkdirs_cons (abs : bool) (above : list string) (c : string)
  (rest : list string) (w : Posix.world) :
  mkdirs abs above (c :: rest) w =
    match tree w !! (abs, above ++ [c]) with
    | Some Dir => mkdirs abs (above ++ [c]) rest w
    | Some (File _) => (Raise (os_error ("[Errno 17] File exists: " +:+ c)), w)
    | None =>
        match fault w (SysMkdir (abs, above ++ [c])) with
        | Some msg => (Raise (os_error msg), record_call (SysMkdir (abs, above ++ [c])) w)
        | None =>
            mkdirs abs (above ++ [c]) rest
              (set_tree (insert (abs, above ++ [c]) Dir)
                 (record_call (SysMkdir (abs, above ++ [c])) w))
        end
    end.
Proof.
  cbn [mkdirs]. unfold bind at 1. unfold get at 1.
  destruct (tree w !! (abs, above ++ [c])) as [[|d]|]; try reflexivity.
  unfold bind at 1. unfold call at 1.
  destruct (fault w (SysMkdir (abs, above ++ [c]))); reflexivity.
Qed.

Lemma mkdirs_spec (abs : bool) (todo : list string) :
  ∀ (above : list string) (w : Posix.world) (r : res unit) (w' : Posix.world),
    mkdirs abs above todo w = (r, w') →
    same_env w w' ∧ stdout w' = stdout w
    ∧ (∀ k, tree w !! k = Some Dir → tree w' !! k = Some Dir)
    ∧ (∀ k, k ∉ steps abs above todo → tree w' !! k = tree w !! k)
    ∧ (∀ k d, tree w' !! k = Some (File d) ↔ tree w !! k = Some (File d))
    ∧ (r = Ok tt → ∀ k, k ∈ steps abs above todo → tree w' !! k = Some Dir).
Proof.
  induction todo as [|c rest IH]; intros above w r w' H.
  - injection H as <- <-. repeat split; try done.
    intros _ k Hk. by apply elem_of_nil in Hk.
  - rewrite mkdirs_cons in H. rewrite steps_cons.
    set (k0 := (abs, above ++ [c])) in *.
    destruct (tree w !! k0) as [[|d]|] eqn:E.
    + apply IH in H as (Henv & Hout & Hdir & Hother & Hfile & Hok).
      repeat split; try apply Henv; try done.
      * intros k Hk. apply Hother. intros Hin. apply Hk. by right.
      * apply Hfile.
      * apply Hfile.
      * intros Hr k [->|Hk]%elem_of_cons; [by apply Hdir | by apply Hok].
    + injection H as <- <-. repeat split; try done.
    + destruct (fault w (SysMkdir k0)) as [msg|] eqn:F.
      * injection H as <- <-. repeat split; try done.
      * apply IH in H as (Henv & Hout & Hdir & Hother & Hfile & Hok).
        cbn [tree set_tree record_call stdout] in *.
        repeat split; try apply Henv; try done.
        -- intros k Hk. apply Hdir. destruct (decide (k0 = k)) as [<-|Hne].
           ++ by rewrite lookup_insert_eq.
           ++ by rewrite lookup_insert_ne.
        -- intros k Hk. rewrite Hother.
           ++ rewrite lookup_insert_ne; [done |]. intros <-. apply Hk. by left.
           ++ intros Hin. apply Hk. by right.
        -- intros Hk. apply Hfile in Hk.
           destruct (decide (k0 = k)) as [<-|Hne].
           ++ by rewrite lookup_insert_eq in Hk.
           ++ by rewrite lookup_insert_ne in Hk.
        -- intros Hk. apply Hfile.
           destruct (decide (k0 = k)) as [<-|Hne].
           ++ discriminate (eq_trans (eq_sym E) Hk).
           ++ by rewrite lookup_insert_ne.
        -- intros Hr k [->|Hk]%elem_of_cons; [| by apply Hok].
           apply Hdir. by rewrite lookup_insert_eq.
Qed.


(** With no regular file in the way and no failing [mkdir], the
    directories get made. *)
Lemma mkdirs_ok (abs : bool) (todo : list string) :
  ∀ (above : list string) (w : Posix.world),
    (∀ k, fault w (SysMkdir k) = None) →
    forallb (fun k => negb (is_file_at (tree w) k)) (steps abs above todo) = true →
    ∃ w', mkdirs abs above todo w = (Ok tt, w').
Proof.
  induction todo as [|c rest IH]; intros above w Hf H; [by eexists |].
  rewrite mkdirs_cons. rewrite steps_cons in H.
  cbn [forallb] in H. apply andb_prop in H as [H1 H2].
  unfold is_file_at in H1.
  destruct (tree w !! (abs, above ++ [c])) as [[|d]|] eqn:E; try done.
  - by apply IH.
  - rewrite Hf. apply IH; [done |].
    cbn [tree set_tree record_call].
    rewrite forallb_forall in H2. apply forallb_forall. intros k Hk.
    specialize (H2 k Hk). unfold is_file_at in *.
    destruct (decide ((abs, above ++ [c]) = k)) as [<-|Hne].
    + by rewrite lookup_insert_eq.
    + by rewrite lookup_insert_ne.
Qed.

End Makedirs.

Section Primitives.
Import Posix Marker.
Local Open Scope py_scope.

Lemma call_ok (c : syscall) (w : Posix.world) :
  fault w c = None → call c w = (Ok tt, record_call c w).
Proof. intros H. unfold call. by rewrite H. Qed.

Lemma call_fails (c : syscall) (w : Posix.world) (msg : string) :
  fault w c = Some msg → call c w = (Raise (os_error msg), record_call c w).
Proof. intros H. unfold call. by rewrite H. Qed.

Lemma dirlike_nonempty (p : string) : dirlike p = false → p ≠ EmptyString.
Proof. intros H ->. done. Qed.

(** For a path that can name a file, [node_at] is the lookup of its key. *)
Lemma node_at_lookup (t : gmap key node) (p : string) :
  dirlike p = false → (resolve p).2 ≠ [] → node_at t p = t !! resolve p.
Proof.
  intros Hd Hne. unfold node_at.
  destruct (String.eqb_spec p EmptyString) as [->|_]; [done |].
  rewrite Hd. by destruct ((resolve p).2).
Qed.

Lemma open_w_ok (p : string) (w : Posix.world) :
  fault w (SysOpen p) = None →
  dirlike p = false → (resolve p).2 ≠ [] →
  is_dir (tree w) (parent (resolve p)) = true →
  tree w !! resolve p ≠ Some Dir →
  open_w p w =
    (Ok p, set_tree (insert (resolve p) (File EmptyString)) (record_call (SysOpen p) w)).
Proof.
  intros Hf Hd Hne Hpar Hnot. unfold open_w.
  rewrite (bind_ok _ _ _ _ _ (call_ok _ _ Hf)).
  unfold bind at 1, get at 1. cbn [tree record_call].
  rewrite Hd, Hpar. cbn [negb].
  rewrite (node_at_lookup _ _ Hd Hne).
  destruct (tree w !! resolve p) as [[|d]|]; done.
Qed.

Lemma write_ok (f data : string) (w : Posix.world) :
  fault w (SysWrite f data) = None →
  write f data w =
    (Ok tt, set_tree (append_to (resolve f) data) (record_call (SysWrite f data) w)).
Proof. intros H. unfold write. by rewrite H. Qed.

Lemma os_replace_ok (src dst d : string) (w : Posix.world) :
  fault w (SysReplace src dst) = None →
  dirlike src = false → (resolve src).2 ≠ [] →
  dirlike dst = false → (resolve dst).2 ≠ [] →
  tree w !! resolve src = Some (File d) →
  tree w !! resolve dst ≠ Some Dir →
  is_dir (tree w) (parent (resolve dst)) = true →
  os_replace src dst w =
    (Ok tt,
     set_tree (fun t => <[resolve dst := File d]> (delete (resolve src) t))
       (record_call (SysReplace src dst) w)).
Proof.
  intros Hf Hds Hns Hdd Hnd Hsrc Hdst Hpar. unfold os_replace.
  rewrite (bind_ok _ _ _ _ _ (call_ok _ _ Hf)).
  unfold bind at 1, get at 1. cbn [tree record_call].
  rewrite (node_at_lookup _ _ Hds Hns), Hsrc, (node_at_lookup _ _ Hdd Hnd).
  rewrite Hdd, Hpar. cbn [negb orb].
  destruct (tree w !! resolve dst) as [[|d']|]; done.
Qed.

Lemma path_exists_ok (p : string) (w : Posix.world) :
  fault w (SysStat p) = None →
  path_exists p w =
    (Ok (bool_decide (is_Some (node_at (tree w) p))), record_call (SysStat p) w).
Proof. intros H. unfold path_exists. by rewrite H. Qed.

Lemma os_remove_ok (p d : string) (w : Posix.world) :
  fault w (SysRemove p) = None →
  node_at (tree w) p = Some (File d) →
  os_remove p w =
    (Ok tt, set_tree (delete (resolve p)) (record_call (SysRemove p) w)).
Proof.
  intros Hf Hn. unfold os_remove.
  rewrite (bind_ok _ _ _ _ _ (call_ok _ _ Hf)).
  unfold bind at 1, get at 1. cbn [tree record_call]. by rewrite Hn.
Qed.

(** [try: os.fsync(...)  except Exception: pass] *)
Lemma fsync_swallowed (f : string) (w : Posix.world) :
  try_except (fsync f) (fun _ => ret tt) w = (Ok tt, record_call (SysFsync f) w).
Proof.
  unfold try_except, fsync, call. by destruct (fault w (SysFsync f)).
Qed.

End Primitives.

Section Publish.
Import Posix Marker.
Local Open Scope py_scope.
Variables (tmp final : string) (payload : list (string * jvalue)).
Let text := json_dumps payload.
Let kt := resolve tmp.
Let kf := resolve final.

Lemma append_to_fresh (k : key) (data : string) (t : gmap key node) :
  append_to k data (<[k := File EmptyString]> t) = <[k := File data]> t.
Proof.
  unfold append_to. rewrite lookup_insert_eq.
  by rewrite insert_insert_eq.
Qed.

Lemma is_dir_insert_file (t : gmap key node) (k k' : key) (d : string) :
  t !! k ≠ Some Dir → is_dir (<[k := File d]> t) k' = is_dir t k'.
Proof.
  intros Hk. unfold is_dir. destruct (k'.2); [done |].
  destruct (decide (k = k')) as [<-|Hne].
  - rewrite lookup_insert_eq. by destruct (t !! k) as [[|?]|].
  - by rewrite lookup_insert_ne.
Qed.

Lemma tree_tmp_written (w : Posix.world) :
  tree (tmp_written tmp text w) = <[kt := File text]> (tree w).
Proof.
  unfold tmp_written. cbn [tree set_tree record_call]. apply append_to_fresh.
Qed.

Lemma tree_after_atomic (w : Posix.world) :
  tree (after_atomic tmp final text w) = <[kf := File text]> (delete kt (tree w)).
Proof.
  unfold after_atomic. cbn [tree add_line set_tree record_call].
  rewrite tree_tmp_written. by rewrite delete_insert_eq.
Qed.

(** The [with] block of the atomic path. *)
Lemma tmp_write_ok (w : Posix.world) :
  fault w (SysOpen tmp) = None →
  fault w (SysWrite tmp text) = None →
  fault w (SysFlush tmp) = None →
  fault w (SysClose tmp) = None →
  dirlike tmp = false → kt.2 ≠ [] →
  is_dir (tree w) (parent kt) = true →
  tree w !! kt ≠ Some Dir →
  with_open_w tmp (fun f =>
    json_dump payload f ;; flush f ;; try_except (fsync f) (fun _ => ret tt)) w
  = (Ok tt, tmp_written tmp text w).
Proof.
  intros Fo Fw Ff Fc Hdt Hnt Hpt Ht.
  unfold with_open_w.
  unfold bind at 1.
  rewrite (open_w_ok tmp w Fo Hdt Hnt Hpt Ht).
  unfold try_finally, json_dump.
  unfold bind at 1. rewrite write_ok by exact Fw.
  unfold bind at 1. unfold flush. rewrite call_ok by exact Ff.
  rewrite fsync_swallowed.
  unfold close. by rewrite call_ok by exact Fc.
Qed.

Lemma atomic_publish_ok (w : Posix.world) :
  fault w (SysOpen tmp) = None →
  fault w (SysWrite tmp text) = None →
  fault w (SysFlush tmp) = None →
  fault w (SysClose tmp) = None →
  fault w (SysReplace tmp final) = None →
  dirlike tmp = false → kt.2 ≠ [] →
  dirlike final = false → kf.2 ≠ [] →
  is_dir (tree w) (parent kt) = true →
  is_dir (tree w) (parent kf) = true →
  tree w !! kt ≠ Some Dir →
  tree w !! kf ≠ Some Dir →
  atomic_publish tmp final payload w = (Ok true, after_atomic tmp final text w).
Proof.
  intros Fo Fw Ff Fc Fr Hdt Hnt Hdf Hnf Hpt Hpf Ht Hf.
  unfold atomic_publish.
  rewrite (bind_ok _ _ _ _ _ (tmp_write_ok w Fo Fw Ff Fc Hdt Hnt Hpt Ht)).
  unfold bind at 1.
  erewrite os_replace_ok; try done.
  - rewrite tree_tmp_written. apply lookup_insert_eq.
  - rewrite tree_tmp_written.
    destruct (decide (resolve tmp = resolve final)) as [E|E].
    + rewrite <- E. fold kt. rewrite lookup_insert_eq. done.
    + by rewrite lookup_insert_ne.
  - rewrite tree_tmp_written. by rewrite is_dir_insert_file.
Qed.

(** The atomic path when only the replace fails. *)
Lemma atomic_publish_replace_fails (w : Posix.world) (msg : string) :
  fault w (SysOpen tmp) = None →
  fault w (SysWrite tmp text) = None →
  fault w (SysFlush tmp) = None →
  fault w (SysClose tmp) = None →
  fault w (SysReplace tmp final) = Some msg →
  dirlike tmp = false → kt.2 ≠ [] →
  is_dir (tree w) (parent kt) = true →
  tree w !! kt ≠ Some Dir →
  atomic_publish tmp final payload w
  = (Raise (os_error msg), record_call (SysReplace tmp final) (tmp_written tmp text w)).
Proof.
  intros Fo Fw Ff Fc Fr Hdt Hnt Hpt Ht.
  unfold atomic_publish.
  rewrite (bind_ok _ _ _ _ _ (tmp_write_ok w Fo Fw Ff Fc Hdt Hnt Hpt Ht)).
  unfold os_replace. apply bind_raise, bind_raise, call_fails. exact Fr.
Qed.

Lemma direct_write_ok (w : Posix.world) :
  fault w (SysOpen final) = None →
  fault w (SysWrite final text) = None →
  fault w (SysClose final) = None →
  dirlike final = false → kf.2 ≠ [] →
  is_dir (tree w) (parent kf) = true →
  tree w !! kf ≠ Some Dir →
  with_open_w final (fun f => json_dump payload f) w
    = (Ok tt, after_direct final text w).
Proof.
  intros Fo Fw Fc Hd Hn Hp Hf. unfold with_open_w.
  unfold bind at 1. rewrite (open_w_ok final w Fo Hd Hn Hp Hf).
  unfold try_finally, json_dump. rewrite write_ok by exact Fw.
  unfold close. by rewrite call_ok by exact Fc.
Qed.

Lemma tree_after_direct (w : Posix.world) :
  tree (after_direct final text w) = <[kf := File text]> (tree w).
Proof.
  unfold after_direct. cbn [tree set_tree record_call].
  apply append_to_fresh.
Qed.

Lemma keeps_cleanup : keeps_dirs (cleanup tmp).
Proof.
  apply keeps_try_except; [| intros; apply keeps_ret].
  apply keeps_bind; [apply keeps_path_exists |].
  intros [|]; [apply keeps_os_remove | apply keeps_ret].
Qed.

Lemma cleanup_total (w : Posix.world) :
  ∃ w', (cleanup tmp) w = (Ok tt, w') ∧ stdout w' = stdout w.
Proof.
  unfold cleanup, try_except, bind, path_exists.
  destruct (fault w (SysStat tmp)); [eexists; split; [reflexivity | done] |].
  destruct (bool_decide _); [| eexists; split; [reflexivity | done]].
  unfold os_remove, bind, call, get, modify, raise, ret.
  cbn [fault tree record_call].
  destruct (fault w (SysRemove tmp)); [eexists; split; [reflexivity | done] |].
  cbn [fault tree record_call].
  destruct (node_at (tree w) tmp) as [[|d]|];
    eexists; (split; [reflexivity | done]).
Qed.

Lemma cleanup_removes (w : Posix.world) (d : string) :
  fault w (SysStat tmp) = None →
  fault w (SysRemove tmp) = None →
  node_at (tree w) tmp = Some (File d) →
  (cleanup tmp) w =
    (Ok tt, set_tree (delete kt)
              (record_call (SysRemove tmp) (record_call (SysStat tmp) w))).
Proof.
  intros Fs Fr Hn. unfold cleanup, try_except.
  unfold bind at 1. rewrite path_exists_ok by exact Fs.
  rewrite Hn. rewrite bool_decide_eq_true_2 by eauto.
  by erewrite os_remove_ok.
Qed.

Lemma fallback_publish_unfold (exc : exn) (w : Posix.world) :
  fallback_publish tmp final payload exc w =
    match with_open_w final (fun f => json_dump payload f)
            (add_line (msg_degraded exc) w) with
    | (Ok _, w1) =>
        match (cleanup tmp) w1 with
        | (Ok _, w2) => (Ok true, add_line (msg_fallback final) w2)
        | (Raise exc2, w2) => (Ok false, add_line (msg_failed exc2) w2)
        end
    | (Raise exc2, w1) => (Ok false, add_line (msg_failed exc2) w1)
    end.
Proof.
  unfold fallback_publish. unfold bind at 1. unfold print at 1, modify at 1.
  unfold try_except at 1. unfold bind at 1.
  destruct (with_open_w final _ _) as [[u|exc2] w1]; [| reflexivity].
  unfold bind at 1. fold (cleanup tmp).
  destruct ((cleanup tmp) w1) as [[u'|exc2] w2]; reflexivity.
Qed.

(** The handler never raises: it answers [True] or [False]. *)
Lemma fallback_total (exc : exn) (w : Posix.world) :
  ∃ b w', fallback_publish tmp final payload exc w = (Ok b, w').
Proof.
  rewrite fallback_publish_unfold.
  destruct (with_open_w final _ _) as [[u|exc2] w1]; [| by eexists _, _].
  destruct ((cleanup tmp) w1) as [[u'|exc2] w2]; by eexists _, _.
Qed.

(** [False] is answered only when the direct write raised. *)
Lemma fallback_false (exc : exn) (w w' : Posix.world) :
  fallback_publish tmp final payload exc w = (Ok false, w') →
  ∃ exc2 w1,
    with_open_w final (fun f => json_dump payload f)
      (add_line (msg_degraded exc) w) = (Raise exc2, w1)
    ∧ w' = add_line (msg_failed exc2) w1.
Proof.
  rewrite fallback_publish_unfold.
  destruct (with_open_w final _ _) as [[u|exc2] w1] eqn:E.
  - destruct (cleanup_total w1) as (w2 & -> & _). done.
  - intros [= <-]. by exists exc2, w1.
Qed.

(** A direct write that cannot fail makes the handler answer [True]. *)
Lemma fallback_ok (exc : exn) (w : Posix.world) :
  fault w (SysOpen final) = None →
  fault w (SysWrite final text) = None →
  fault w (SysClose final) = None →
  dirlike final = false → kf.2 ≠ [] →
  is_dir (tree w) (parent kf) = true →
  tree w !! kf ≠ Some Dir →
  ∃ w', fallback_publish tmp final payload exc w = (Ok true, w')
        ∧ stdout w' = stdout w ++ [msg_degraded exc; msg_fallback final]
        ∧ file_step w w'.
Proof.
  intros Fo Fw Fc Hd Hn Hp Hf.
  rewrite fallback_publish_unfold.
  pose proof (keeps_with_open_w final (fun f => json_dump payload f)
                (fun f => keeps_write f _)) as Hkeep.
  rewrite direct_write_ok in * by done.
  destruct (cleanup_total (after_direct final text (add_line (msg_degraded exc) w)))
    as (w2 & E & Hout).
  rewrite E. eexists; split; [reflexivity |]. split.
  - cbn [stdout add_line]. rewrite Hout. cbn [stdout after_direct record_call set_tree add_line].
    by rewrite <- app_assoc.
  - eapply file_step_trans; [| eapply file_step_trans].
    + apply (keeps_print (msg_degraded exc) w (Ok tt)). reflexivity.
    + eapply Hkeep. apply direct_write_ok; done.
    + eapply file_step_trans; [eapply keeps_cleanup; exact E |].
      apply (keeps_print (msg_fallback final) w2 (Ok tt)). reflexivity.
Qed.

(** The fallback when nothing in it fails and the temporary file is
    there: the marker is written directly and the temporary file removed. *)
Lemma fallback_full_ok (exc : exn) (w : Posix.world) (d : string) :
  fault w (SysOpen final) = None →
  fault w (SysWrite final text) = None →
  fault w (SysClose final) = None →
  fault w (SysStat tmp) = None →
  fault w (SysRemove tmp) = None →
  dirlike final = false → kf.2 ≠ [] →
  dirlike tmp = false → kt.2 ≠ [] →
  is_dir (tree w) (parent kf) = true →
  tree w !! kf ≠ Some Dir →
  tree w !! kt = Some (File d) →
  kt ≠ kf →
  fallback_publish tmp final payload exc w
  = (Ok true, after_fallback tmp final text exc w).
Proof.
  intros Fo Fw Fc Fs Fr Hdf Hnf Hdt Hnt Hp Hf Ht Hne.
  rewrite fallback_publish_unfold.
  rewrite direct_write_ok by done.
  erewrite cleanup_removes; [reflexivity | done | done |].
  rewrite (node_at_lookup _ _ Hdt Hnt), tree_after_direct.
  cbn [tree add_line]. rewrite lookup_insert_ne by done. exact Ht.
Qed.

End Publish.

Section MarkerNames.
Import Posix Marker.
Variables (output_dir prefix tmp_ext : string).
Hypothesis Hprefix : Str.slash_free prefix = true.
Hypothesis Hext : Str.slash_free tmp_ext = true.

Lemma final_name_free : Str.slash_free (final_name prefix) = true.
Proof. unfold final_name. rewrite slash_free_app, Hprefix. reflexivity. Qed.

Lemma tmp_name_free : Str.slash_free (tmp_name prefix tmp_ext) = true.
Proof.
  unfold tmp_name. rewrite !slash_free_app, Hprefix, Hext. reflexivity.
Qed.

Lemma final_name_real : real_name (final_name prefix).
Proof.
  unfold final_name. rewrite <- (append_nil_r ".done"). apply real_name_done.
Qed.

Lemma tmp_name_real : real_name (tmp_name prefix tmp_ext).
Proof. apply real_name_done. Qed.

Lemma resolve_final :
  resolve (final_path output_dir prefix) =
    ((resolve output_dir).1, (resolve output_dir).2 ++ [final_name prefix]).
Proof. apply resolve_join; [apply final_name_free | apply final_name_real]. Qed.

Lemma resolve_tmp :
  resolve (tmp_path output_dir prefix tmp_ext) =
    ((resolve output_dir).1, (resolve output_dir).2 ++ [tmp_name prefix tmp_ext]).
Proof. apply resolve_join; [apply tmp_name_free | apply tmp_name_real]. Qed.

Lemma dirlike_final : dirlike (final_path output_dir prefix) = false.
Proof. apply dirlike_join; [apply final_name_free | apply final_name_real]. Qed.

Lemma dirlike_tmp : dirlike (tmp_path output_dir prefix tmp_ext) = false.
Proof. apply dirlike_join; [apply tmp_name_free | apply tmp_name_real]. Qed.

Lemma parent_final : parent (resolve (final_path output_dir prefix)) = resolve output_dir.
Proof. rewrite resolve_final. apply parent_snoc. Qed.

Lemma parent_tmp :
  parent (resolve (tmp_path output_dir prefix tmp_ext)) = resolve output_dir.
Proof. rewrite resolve_tmp. apply parent_snoc. Qed.

Lemma final_has_name : (resolve (final_path output_dir prefix)).2 ≠ [].
Proof. rewrite resolve_final. cbn [snd]. by destruct ((resolve output_dir).2). Qed.

Lemma tmp_has_name : (resolve (tmp_path output_dir prefix tmp_ext)).2 ≠ [].
Proof. rewrite resolve_tmp. cbn [snd]. by destruct ((resolve output_dir).2). Qed.

(** The temporary path is the final path with the extension appended
    (whatever the prefix and the extension are). *)
Lemma path_join_app (d a e : string) :
  a ≠ EmptyString → path_join d (a +:+ e) = path_join d a +:+ e.
Proof.
  intros Ha. unfold path_join. rewrite (startswith_slash_app a e Ha).
  destruct (Str.startswith "/" a); [done |].
  destruct (String.eqb d EmptyString || Str.endswith_slash d).
  - by rewrite append_assoc.
  - rewrite append_assoc. f_equal.
Qed.

Lemma tmp_is_final_ext :
  tmp_path output_dir prefix tmp_ext = final_path output_dir prefix +:+ tmp_ext.
Proof.
  unfold tmp_path, final_path, tmp_name, final_name.
  rewrite <- path_join_app.
  - by rewrite append_assoc.
  - intros H. apply (f_equal String.length) in H.
    rewrite length_append in H. simpl in H. lia.
Qed.

(** The two paths differ as soon as the extension is not empty. *)
Lemma tmp_key_differs :
  tmp_ext ≠ EmptyString →
  resolve (tmp_path output_dir prefix tmp_ext) ≠ resolve (final_path output_dir prefix).
Proof.
  intros Hne. rewrite resolve_tmp, resolve_final. intros [=H].
  apply app_inv_head in H. injection H as H.
  unfold tmp_name, final_name in H.
  apply Hne. revert H. generalize prefix. intros s.
  induction s as [|c s IH]; intros H.
  - by injection H.
  - injection H as H. by apply IH.
Qed.

End MarkerNames.

Section Chains.
Import Posix Marker.

Lemma heads_self {A} (l : list A) : l ≠ [] → In l (heads l).
Proof.
  induction l as [|x l IH]; [done |]. intros _. cbn [heads].
  destruct l as [|y l]; [by left |].
  right. apply in_map. by apply IH.
Qed.

Lemma heads_length {A} (l q : list A) : In q (heads l) → (length q ≤ length l)%nat.
Proof.
  revert q. induction l as [|x l IH]; intros q; [done |].
  cbn [heads]. intros [<-|Hq]; [simpl; lia |].
  apply in_map_iff in Hq as (q' & <- & Hq'). apply IH in Hq'. simpl. lia.
Qed.

Lemma chain_self (k : key) : k.2 ≠ [] → k ∈ chain k.
Proof.
  intros Hne. apply list_elem_of_In. unfold chain, steps.
  apply in_map_iff. exists k.2. split; [by destruct k | by apply heads_self].
Qed.

Lemma chain_shorter (k k' : key) : k' ∈ chain k → (length k'.2 ≤ length k.2)%nat.
Proof.
  intros H%list_elem_of_In. unfold chain, steps in H.
  apply in_map_iff in H as (q & <- & Hq). by apply heads_length.
Qed.

Lemma child_not_in_chain (k : key) (n : string) : (k.1, k.2 ++ [n]) ∉ chain k.
Proof.
  intros H%chain_shorter. cbn [snd] in H. rewrite length_app in H. simpl in H. lia.
Qed.

Lemma is_dir_of_chain (t : gmap key node) (k : key) :
  (∀ k', k' ∈ chain k → t !! k' = Some Dir) → is_dir t k = true.
Proof.
  intros H. unfold is_dir. destruct (k.2) eqn:E; [done |].
  rewrite (H k); [done |]. apply chain_self. by rewrite E.
Qed.

(** What a successful [makedirs] leaves. *)
Lemma after_makedirs (output_dir : string) (w w1 : Posix.world) :
  makedirs output_dir w = (Ok tt, w1) →
  same_env w w1 ∧ stdout w1 = stdout w
  ∧ dir_exists (tree w1) output_dir = true
  ∧ is_dir (tree w1) (resolve output_dir) = true
  ∧ (∀ k, tree w !! k = Some Dir → tree w1 !! k = Some Dir)
  ∧ (∀ k, k ∉ chain (resolve output_dir) → tree w1 !! k = tree w !! k)
  ∧ (∀ k d, tree w1 !! k = Some (File d) ↔ tree w !! k = Some (File d)).
Proof.
  unfold makedirs. destruct (String.eqb output_dir EmptyString); [done |].
  intros H. apply mkdirs_spec in H as (Henv & Hout & Hdir & Hother & Hfile & Hok).
  specialize (Hok eq_refl).
  repeat split; try apply Henv; try done.
  - unfold dir_exists. apply forallb_forall. intros k Hk%list_elem_of_In.
    unfold is_dir_at. by rewrite (Hok k Hk).
  - apply is_dir_of_chain. exact Hok.
  - apply Hfile.
  - apply Hfile.
Qed.

(** When it can succeed. *)
Lemma makedirs_ok (output_dir : string) (w : Posix.world) :
  output_dir ≠ EmptyString →
  (∀ k, fault w (SysMkdir k) = None) →
  clear_way (tree w) output_dir = true →
  ∃ w1, makedirs output_dir w = (Ok tt, w1).
Proof.
  intros Hne Hf Hc. unfold makedirs.
  destruct (String.eqb_spec output_dir EmptyString); [done |].
  by apply mkdirs_ok.
Qed.


End Chains.

Section WriteDoneMarker.
Import Posix Marker.
Local Open Scope py_scope.
Variables (output_dir prefix tmp_ext : string) (frame_count : option Z).
Let final := final_path output_dir prefix.
Let tmp := tmp_path output_dir prefix tmp_ext.

Lemma keeps_atomic_publish (payload : list (string * jvalue)) :
  keeps_dirs (atomic_publish tmp final payload).
Proof.
  unfold atomic_publish.
  apply keeps_bind.
  - apply keeps_with_open_w. intros f.
    apply keeps_bind; [apply keeps_write | intros _].
    apply keeps_bind; [apply keeps_flush | intros _].
    apply keeps_try_except; [apply keeps_fsync | intros; apply keeps_ret].
  - intros _. apply keeps_bind; [apply keeps_os_replace | intros _].
    apply keeps_bind; [apply keeps_print | intros; apply keeps_ret].
Qed.

(** The atomic path answers [True] or raises. *)
Lemma atomic_publish_true (payload : list (string * jvalue)) (w w' : Posix.world) (b : bool) :
  atomic_publish tmp final payload w = (Ok b, w') → b = true.
Proof.
  unfold atomic_publish. intros H.
  apply bind_inv in H as [(a & w1 & _ & H)|(e & _ & ?)]; [| done].
  apply bind_inv in H as [(a' & w2 & _ & H)|(e & _ & ?)]; [| done].
  apply bind_inv in H as [(a'' & w3 & _ & H)|(e & _ & ?)]; [| done].
  by injection H.
Qed.

(** After [makedirs], the function is the [try] with its handler. *)
Lemma write_done_marker_after_makedirs (w w1 : Posix.world) :
  makedirs output_dir w = (Ok tt, w1) →
  write_done_marker output_dir prefix frame_count tmp_ext w =
    try_except
      (atomic_publish tmp final (payload_of (strftime_iso (utc w)) frame_count))
      (fallback_publish tmp final (payload_of (strftime_iso (utc w)) frame_count))
      w1.
Proof.
  intros H. unfold write_done_marker.
  rewrite (bind_ok _ _ _ _ _ H).
  unfold bind at 1, iso_now at 1, bind at 1, get at 1, ret at 1.
  apply after_makedirs in H as ((_ & _ & ->) & _). reflexivity.
Qed.

(** A failing [makedirs] is not caught. *)
Lemma write_done_marker_makedirs_raises (w w1 : Posix.world) (e : exn) :
  makedirs output_dir w = (Raise e, w1) →
  write_done_marker output_dir prefix frame_count tmp_ext w = (Raise e, w1).
Proof. intros H. unfold write_done_marker. by rewrite (bind_raise _ _ _ _ _ H). Qed.

(** Once the directory is there, the function answers [True] or [False]:
    nothing is raised. *)
Lemma write_done_marker_answers (w w1 : Posix.world) :
  makedirs output_dir w = (Ok tt, w1) →
  ∃ b w', write_done_marker output_dir prefix frame_count tmp_ext w = (Ok b, w').
Proof.
  intros H. rewrite (write_done_marker_after_makedirs w w1 H).
  unfold try_except.
  destruct (atomic_publish tmp final _ w1) as [[b|exc] w2]; [by eexists _, _ |].
  apply fallback_total.
Qed.

Hypothesis Hprefix : Str.slash_free prefix = true.

(** [False] needs a failing direct write: when the three calls of the
    direct write cannot fail, the answer is [True], whatever else fails. *)
Lemma write_done_marker_true (w w1 : Posix.world) :
  makedirs output_dir w = (Ok tt, w1) →
  tree w !! resolve final ≠ Some Dir →
  fault w (SysOpen final) = None →
  fault w (SysWrite final (marker_text (utc w) frame_count)) = None →
  fault w (SysClose final) = None →
  ∃ w', write_done_marker output_dir prefix frame_count tmp_ext w = (Ok true, w').
Proof.
  intros Hmk Hf Fo Fw Fc.
  rewrite (write_done_marker_after_makedirs w w1 Hmk).
  destruct (after_makedirs _ _ _ Hmk) as ((E1 & E2 & E3) & _ & _ & Hdir & _ & _ & Hfile).
  unfold try_except.
  destruct (atomic_publish tmp final _ w1) as [[b|exc] w2] eqn:E.
  - apply atomic_publish_true in E as ->. by eexists.
  - apply keeps_atomic_publish in E as [(F1 & F2 & F3) Hkept].
    edestruct (fallback_ok tmp final (payload_of (strftime_iso (utc w)) frame_count)
                exc w2) as (w' & -> & _); [..| by eexists].
    + by rewrite F1, E1.
    + rewrite F1, E1. exact Fw.
    + by rewrite F1, E1.
    + by apply dirlike_final.
    + by apply final_has_name.
    + unfold final. rewrite parent_final by done.
      unfold is_dir in *. destruct ((resolve output_dir).2); [done |].
      destruct (tree w1 !! resolve output_dir) as [[|?]|] eqn:Ed; try done.
      by rewrite (proj2 (Hkept _) Ed).
    + intros Hd. apply Hkept in Hd.
      destruct (tree w !! resolve final) as [[|d]|] eqn:Ew; try done.
      * apply (proj2 (Hfile _ _)) in Ew. fold final in Ew. congruence.
      * assert (resolve final ∉ chain (resolve output_dir)) as Hnot.
        { unfold final. rewrite resolve_final by done. apply child_not_in_chain. }
        destruct (after_makedirs _ _ _ Hmk) as (_ & _ & _ & _ & _ & Hother & _).
        rewrite (Hother _ Hnot) in Hd. congruence.
Qed.

End WriteDoneMarker.

Section Runs.
Import Posix Marker.
Local Open Scope py_scope.
Variables (output_dir prefix tmp_ext : string) (frame_count : option Z).
Hypothesis Hprefix : Str.slash_free prefix = true.
Hypothesis Hext : Str.slash_free tmp_ext = true.
Let final := final_path output_dir prefix.
Let tmp := tmp_path output_dir prefix tmp_ext.

Lemma final_not_in_chain : resolve final ∉ chain (resolve output_dir).
Proof. unfold final. rewrite resolve_final by done. apply child_not_in_chain. Qed.

Lemma tmp_not_in_chain : resolve tmp ∉ chain (resolve output_dir).
Proof. unfold tmp. rewrite resolve_tmp by done. apply child_not_in_chain. Qed.

(** The run in which nothing fails (a failing [fsync] is allowed). *)
Lemma publish_atomic_run (w w1 : Posix.world) :
  makedirs output_dir w = (Ok tt, w1) →
  (∀ c, c ≠ SysFsync tmp → fault w c = None) →
  tree w !! resolve final ≠ Some Dir →
  tree w !! resolve tmp ≠ Some Dir →
  write_done_marker output_dir prefix frame_count tmp_ext w
  = (Ok true, after_atomic tmp final (marker_text (utc w) frame_count) w1).
Proof.
  intros Hmk Hfault Hf Ht.
  pose proof tmp_not_in_chain as Htc. pose proof final_not_in_chain as Hfc.
  unfold tmp, final, marker_text in *.
  rewrite (write_done_marker_after_makedirs _ _ _ _ w w1 Hmk).
  destruct (after_makedirs _ _ _ Hmk) as ((E1 & E2 & E3) & _ & _ & Hdir & _ & Hother & _).
  apply try_except_ok. apply atomic_publish_ok.
  1-5: rewrite E1; by apply Hfault.
  - by apply dirlike_tmp.
  - by apply tmp_has_name.
  - by apply dirlike_final.
  - by apply final_has_name.
  - by rewrite parent_tmp.
  - by rewrite parent_final.
  - by rewrite (Hother _ Htc).
  - by rewrite (Hother _ Hfc).
Qed.

(** The run in which only the replace fails. *)
Lemma publish_degraded_run (w w1 : Posix.world) (msg : string) :
  makedirs output_dir w = (Ok tt, w1) →
  tmp_ext ≠ EmptyString →
  fault w (SysReplace tmp final) = Some msg →
  (∀ c, c ≠ SysReplace tmp final → fault w c = None) →
  tree w !! resolve final ≠ Some Dir →
  tree w !! resolve tmp ≠ Some Dir →
  write_done_marker output_dir prefix frame_count tmp_ext w
  = (Ok true,
     after_fallback tmp final (marker_text (utc w) frame_count) (os_error msg)
       (record_call (SysReplace tmp final)
          (tmp_written tmp (marker_text (utc w) frame_count) w1))).
Proof.
  intros Hmk Hne Hrep Hfault Hf Ht.
  pose proof tmp_not_in_chain as Htc. pose proof final_not_in_chain as Hfc.
  unfold tmp, final, marker_text in *.
  rewrite (write_done_marker_after_makedirs _ _ _ _ w w1 Hmk).
  destruct (after_makedirs _ _ _ Hmk) as ((E1 & E2 & E3) & _ & _ & Hdir & _ & Hother & _).
  pose proof (tmp_key_differs output_dir prefix tmp_ext Hprefix Hext Hne) as Hkeys.
  erewrite try_except_raise.
  2:{ apply atomic_publish_replace_fails.
      1-4: rewrite E1; by apply Hfault.
      - by rewrite E1.
      - by apply dirlike_tmp.
      - by apply tmp_has_name.
      - by rewrite parent_tmp.
      - by rewrite (Hother _ Htc). }
  eapply fallback_full_ok.
  1-5: cbn [fault record_call tmp_written set_tree]; rewrite E1; by apply Hfault.
  - by apply dirlike_final.
  - by apply final_has_name.
  - by apply dirlike_tmp.
  - by apply tmp_has_name.
  - cbn [tree record_call]. rewrite tree_tmp_written, is_dir_insert_file.
    + by rewrite parent_final.
    + by rewrite (Hother _ Htc).
  - cbn [tree record_call]. rewrite tree_tmp_written, lookup_insert_ne by done.
    by rewrite (Hother _ Hfc).
  - cbn [tree record_call]. rewrite tree_tmp_written. apply lookup_insert_eq.
  - done.
Qed.

End Runs.

Section MarkerTheorems.
Import Posix Marker.
Local Open Scope py_scope.

Lemma trace_tmp_written (tmp text : string) (w : Posix.world) :
  trace (tmp_written tmp text w) =
    trace w ++ [SysOpen tmp; SysWrite tmp text; SysFlush tmp; SysFsync tmp; SysClose tmp].
Proof.
  unfold tmp_written. cbn [trace set_tree record_call].
  by rewrite <- !app_assoc.
Qed.

Lemma trace_after_atomic (tmp final text : string) (w : Posix.world) :
  trace (after_atomic tmp final text w) = trace w ++ atomic_calls tmp final text.
Proof.
  unfold after_atomic. cbn [trace add_line set_tree record_call].
  rewrite trace_tmp_written. by rewrite <- !app_assoc.
Qed.

Lemma trace_after_fallback (tmp final text : string) (exc : exn) (w : Posix.world) :
  trace (after_fallback tmp final text exc w) =
    trace w ++ direct_calls final text ++ [SysStat tmp; SysRemove tmp].
Proof.
  unfold after_fallback, after_direct. cbn [trace add_line set_tree record_call].
  by rewrite <- !app_assoc.
Qed.

(** C1. Publish writes the payload to [<final><tmp_ext>], a sibling of the
    final marker, flushes, syncs and closes it, and installs it with one
    [os.replace]; when that replace fails it writes the final path
    directly, removes the temporary file, logs the degraded path and still
    answers [True]; it answers [False] only when the direct write raised
    too.  (Once [os.makedirs] has succeeded nothing is raised.) *)
Theorem C1_publish_atomic_then_fallback
  (output_dir prefix tmp_ext : string) (frame_count : option Z)
  (w w1 : Posix.world) :
  let final := final_path output_dir prefix in
  let tmp := tmp_path output_dir prefix tmp_ext in
  let text := marker_text (utc w) frame_count in
  let payload := payload_of (strftime_iso (utc w)) frame_count in
  let publish := write_done_marker output_dir prefix frame_count tmp_ext in
  Str.slash_free prefix = true →
  Str.slash_free tmp_ext = true →
  tmp_ext ≠ EmptyString →
  makedirs output_dir w = (Ok tt, w1) →
  tree w !! resolve final ≠ Some Dir →
  tree w !! resolve tmp ≠ Some Dir →
  (* the temporary path is a sibling of the final one *)
  (tmp = final +:+ tmp_ext ∧ parent (resolve tmp) = parent (resolve final))
  (* an answer is given *)
  ∧ (∃ b w', publish w = (Ok b, w'))
  (* nothing fails (but perhaps the fsync): the atomic path *)
  ∧ ((∀ c, c ≠ SysFsync tmp → fault w c = None) →
     ∃ w', publish w = (Ok true, w')
           ∧ trace w' = trace w1 ++ atomic_calls tmp final text
           ∧ stdout w' = stdout w1 ++ [msg_atomic final]
           ∧ tree w' !! resolve final = Some (File text)
           ∧ tree w' !! resolve tmp = None)
  (* only the replace fails: the logged fallback *)
  ∧ (∀ msg,
       fault w (SysReplace tmp final) = Some msg →
       (∀ c, c ≠ SysReplace tmp final → fault w c = None) →
       ∃ w', publish w = (Ok true, w')
             ∧ trace w' = trace w1 ++ atomic_calls tmp final text
                          ++ direct_calls final text ++ [SysStat tmp; SysRemove tmp]
             ∧ stdout w' = stdout w1 ++ [msg_degraded (os_error msg); msg_fallback final]
             ∧ tree w' !! resolve final = Some (File text)
             ∧ tree w' !! resolve tmp = None)
  (* a direct write that cannot fail excludes [False] *)
  ∧ (fault w (SysOpen final) = None →
     fault w (SysWrite final text) = None →
     fault w (SysClose final) = None →
     ∃ w', publish w = (Ok true, w'))
  (* [False] means: the atomic path raised, then the direct write raised *)
  ∧ (∀ w', publish w = (Ok false, w') →
     ∃ exc w2 exc2 w3,
       atomic_publish tmp final payload w1 = (Raise exc, w2)
       ∧ with_open_w final (fun f => json_dump payload f)
           (add_line (msg_degraded exc) w2) = (Raise exc2, w3)
       ∧ w' = add_line (msg_failed exc2) w3).
Proof.
  intros final tmp text payload publish Hprefix Hext Hne Hmk Hf Ht.
  pose proof (tmp_key_differs output_dir prefix tmp_ext Hprefix Hext Hne) as Hkeys.
  destruct (after_makedirs _ _ _ Hmk) as ((E1 & E2 & E3) & _).
  repeat apply conj.
  - apply tmp_is_final_ext.
  - unfold tmp, final. by rewrite parent_tmp, parent_final.
  - by apply (write_done_marker_answers _ _ _ _ w w1).
  - intros Hfault. eexists. split.
    { by apply publish_atomic_run. }
    rewrite trace_after_atomic.
    unfold marker_text in *. rewrite tree_after_atomic.
    split; [reflexivity |]. split; [reflexivity |]. split.
    + apply lookup_insert_eq.
    + rewrite lookup_insert_ne by done. apply lookup_delete_eq.
  - intros msg Hrep Hfault. eexists. split.
    { by apply publish_degraded_run. }
    rewrite trace_after_fallback. cbn [trace record_call].
    rewrite trace_tmp_written.
    split; [by rewrite <- !app_assoc |].
    split.
    { unfold after_fallback, after_direct, tmp_written.
      cbn [stdout add_line set_tree record_call]. by rewrite <- app_assoc. }
    unfold after_fallback. cbn [tree add_line set_tree record_call].
    unfold marker_text. split.
    + rewrite lookup_delete_ne by done.
      rewrite tree_after_direct. apply lookup_insert_eq.
    + apply lookup_delete_eq.
  - intros Fo Fw Fc. by apply (write_done_marker_true _ _ _ _ Hprefix w w1).
  - intros w' H.
    unfold publish in H. rewrite (write_done_marker_after_makedirs _ _ _ _ w w1 Hmk) in H.
    apply try_except_inv in H as [(b & H & [= <-])|(exc & w2 & H & Hfb)].
    + by apply atomic_publish_true in H.
    + apply fallback_false in Hfb as (exc2 & w3 & Hd & ->).
      by exists exc, w2, exc2, w3.
Qed.

(** A quiet disk, a fresh directory: the hypotheses of C1 hold and the
    marker lands atomically. *)
Lemma C1_publish_witness :
  ∃ w', write_done_marker "out/scenes" "gemdirect1_scene-001" (Some 25) ".tmp" quiet_disk
        = (Ok true, w')
        ∧ tree w' !! resolve "out/scenes/gemdirect1_scene-001.done"
          = Some (File (marker_text (utc quiet_disk) (Some 25)))
        ∧ tree w' !! resolve "out/scenes/gemdirect1_scene-001.done.tmp" = None.
Proof.
  destruct (C1_publish_atomic_then_fallback
              "out/scenes" "gemdirect1_scene-001" ".tmp" (Some 25)
              quiet_disk (makedirs "out/scenes" quiet_disk).2)
    as (_ & _ & H & _).
  - reflexivity.
  - reflexivity.
  - discriminate.
  - reflexivity.
  - vm_compute. discriminate.
  - vm_compute. discriminate.
  - destruct H as (w' & H1 & _ & _ & H2 & H3); [intros c _; reflexivity |].
    exists w'. repeat split; assumption.
Defined.

Lemma dir_exists_lookup (t : gmap key node) (p : string) :
  dir_exists t p = true ↔ ∀ k, k ∈ chain (resolve p) → t !! k = Some Dir.
Proof.
  unfold dir_exists. rewrite forallb_forall. split.
  - intros H k Hk%list_elem_of_In. specialize (H k Hk). unfold is_dir_at in H.
    by destruct (t !! k) as [[|?]|].
  - intros H k Hk%list_elem_of_In. unfold is_dir_at. by rewrite (H k Hk).
Qed.

Lemma dir_exists_clear_way (t : gmap key node) (p : string) :
  dir_exists t p = true → clear_way t p = true.
Proof.
  rewrite dir_exists_lookup. intros H. unfold clear_way.
  apply forallb_forall. intros k Hk%list_elem_of_In.
  unfold is_file_at. by rewrite (H k Hk).
Qed.

(** The healthy run, from the conditions on the initial world. *)
Lemma publish_healthy (output_dir prefix tmp_ext : string) (frame_count : option Z)
  (w : Posix.world) :
  output_dir ≠ EmptyString →
  Str.slash_free prefix = true →
  Str.slash_free tmp_ext = true →
  no_faults w →
  clear_way (tree w) output_dir = true →
  tree w !! resolve (final_path output_dir prefix) ≠ Some Dir →
  tree w !! resolve (tmp_path output_dir prefix tmp_ext) ≠ Some Dir →
  ∃ w1, makedirs output_dir w = (Ok tt, w1)
        ∧ write_done_marker output_dir prefix frame_count tmp_ext w
          = (Ok true,
             after_atomic (tmp_path output_dir prefix tmp_ext)
               (final_path output_dir prefix)
               (marker_text (utc w) frame_count) w1).
Proof.
  intros Hne Hprefix Hext Hnf Hc Hf Ht.
  destruct (makedirs_ok output_dir w Hne (fun k => Hnf _) Hc) as [w1 Hmk].
  exists w1. split; [done |].
  apply publish_atomic_run; try done; intros c _; apply Hnf.
Qed.

(** C8. Publishing twice for the same artifact set succeeds both times,
    and the marker then holds the payload of the second call: the marker of
    the first call is overwritten without error. *)
Theorem C8_publish_twice_overwrites
  (output_dir prefix tmp_ext : string) (first_count second_count : option Z)
  (later : struct_time) (w : Posix.world) :
  output_dir ≠ EmptyString →
  Str.slash_free prefix = true →
  Str.slash_free tmp_ext = true →
  no_faults w →
  clear_way (tree w) output_dir = true →
  tree w !! resolve (final_path output_dir prefix) ≠ Some Dir →
  tree w !! resolve (tmp_path output_dir prefix tmp_ext) ≠ Some Dir →
  ∃ w1 w2,
    write_done_marker output_dir prefix first_count tmp_ext w = (Ok true, w1)
    ∧ tree w1 !! resolve (final_path output_dir prefix)
      = Some (File (marker_text (utc w) first_count))
    ∧ write_done_marker output_dir prefix second_count tmp_ext (at_time later w1)
      = (Ok true, w2)
    ∧ tree w2 !! resolve (final_path output_dir prefix)
      = Some (File (marker_text later second_count)).
Proof.
  intros Hne Hprefix Hext Hnf Hc Hf Ht.
  destruct (publish_healthy output_dir prefix tmp_ext first_count w)
    as (w1 & Hmk & Hrun); try done.
  set (tmp := tmp_path output_dir prefix tmp_ext) in *.
  set (final := final_path output_dir prefix) in *.
  set (wa := after_atomic tmp final (marker_text (utc w) first_count) w1) in *.
  assert (tree wa = <[resolve final := File (marker_text (utc w) first_count)]>
                      (delete (resolve tmp) (tree w1))) as Htree.
  { unfold wa, marker_text. apply tree_after_atomic. }
  destruct (after_makedirs _ _ _ Hmk) as ((E1 & _) & _ & Hex & _).
  destruct (publish_healthy output_dir prefix tmp_ext second_count (at_time later wa))
    as (w2 & Hmk2 & Hrun2); try done.
  - intros c. cbn [fault at_time]. unfold wa, after_atomic, tmp_written.
    cbn [fault add_line set_tree record_call]. rewrite E1. apply Hnf.
  - apply dir_exists_clear_way, dir_exists_lookup. intros k Hk.
    cbn [tree at_time]. rewrite Htree.
    rewrite lookup_insert_ne, lookup_delete_ne.
    + by apply (proj1 (dir_exists_lookup _ _) Hex).
    + intros <-. by apply (tmp_not_in_chain output_dir prefix tmp_ext Hprefix Hext).
    + intros <-. by apply (final_not_in_chain output_dir prefix Hprefix).
  - cbn [tree at_time]. fold final. rewrite Htree, lookup_insert_eq. done.
  - cbn [tree at_time]. fold tmp final. rewrite Htree.
    destruct (decide (resolve final = resolve tmp)) as [E|E].
    + rewrite E, lookup_insert_eq. done.
    + rewrite lookup_insert_ne, lookup_delete_eq by done. done.
  - exists wa, (after_atomic tmp final (marker_text later second_count) w2).
    split; [exact Hrun |]. split; [by rewrite Htree, lookup_insert_eq |].
    split; [exact Hrun2 |].
    unfold marker_text. rewrite tree_after_atomic. apply lookup_insert_eq.
Qed.

(** Two publications of one scene on a quiet disk, a minute apart. *)
Lemma C8_publish_twice_witness :
  ∃ w1 w2,
    write_done_marker "out" "scene-001" (Some 25) ".tmp" quiet_disk = (Ok true, w1)
    ∧ write_done_marker "out" "scene-001" (Some 49) ".tmp"
        (at_time {| tm_year := 2025; tm_mon := 11; tm_mday := 3;
                    tm_hour := 9; tm_min := 45; tm_sec := 7 |} w1) = (Ok true, w2)
    ∧ tree w2 !! resolve "out/scene-001.done"
      = Some (File (marker_text {| tm_year := 2025; tm_mon := 11; tm_mday := 3;
                                   tm_hour := 9; tm_min := 45; tm_sec := 7 |} (Some 49))).
Proof.
  destruct (C8_publish_twice_overwrites "out" "scene-001" ".tmp" (Some 25) (Some 49)
              {| tm_year := 2025; tm_mon := 11; tm_mday := 3;
                 tm_hour := 9; tm_min := 45; tm_sec := 7 |} quiet_disk)
    as (w1 & w2 & H1 & _ & H2 & H3).
  - discriminate.
  - reflexivity.
  - reflexivity.
  - intros c. reflexivity.
  - reflexivity.
  - vm_compute. discriminate.
  - vm_compute. discriminate.
  - exists w1, w2. repeat split; assumption.
Defined.



End MarkerTheorems.

Section WaiterSteps.
Import Waiter.
Local Open Scope py_scope.

Lemma same_clock_refl (w : Waiter.world) : same_clock w w.
Proof. by repeat split. Qed.

Lemma same_clock_trans (w1 w2 w3 : Waiter.world) :
  same_clock w1 w2 → same_clock w2 w3 → same_clock w1 w3.
Proof.
  intros (A1 & B1 & C1 & D1) (A2 & B2 & C2 & D2). repeat split; congruence.
Qed.

Lemma quiet_ret {A} (a : A) : clock_quiet (ret a).
Proof. intros w r w' [= <- <-]. apply same_clock_refl. Qed.

Lemma quiet_raise {A} (e : exn) : clock_quiet (@raise _ A e).
Proof. intros w r w' [= <- <-]. apply same_clock_refl. Qed.

Lemma quiet_bind {A B} (c : Py Waiter.world A) (k : A → Py Waiter.world B) :
  clock_quiet c → (∀ a, clock_quiet (k a)) → clock_quiet (bind c k).
Proof.
  intros Hc Hk w r w' H.
  apply bind_inv in H as [(a & w1 & H1 & H2)|(e & H1 & _)].
  - eapply same_clock_trans; [eapply Hc | eapply Hk]; eauto.
  - eapply Hc; eauto.
Qed.

Lemma quiet_print (line : string) : clock_quiet (Waiter.print line).
Proof. intros w r w' [= <- <-]. by repeat split. Qed.

Lemma quiet_ws_close : clock_quiet ws_close.
Proof. intros w r w' [= <- <-]. by repeat split. Qed.

Lemma quiet_py_get (v : json) (k : string) (dflt : json) :
  clock_quiet (py_get v k dflt).
Proof. destruct v; try apply quiet_raise. apply quiet_ret. Qed.

Lemma quiet_pct_text (progress max_progress : json) :
  clock_quiet (pct_text progress max_progress).
Proof.
  unfold pct_text, py_gt0. apply quiet_bind.
  - destruct (as_number max_progress); [apply quiet_ret | apply quiet_raise].
  - intros [|]; [| apply quiet_ret].
    destruct (as_number progress), (as_number max_progress);
      (apply quiet_ret || apply quiet_raise).
Qed.

Ltac quiet_step :=
  first [ apply quiet_ret | apply quiet_raise | apply quiet_print
        | apply quiet_ws_close | apply quiet_py_get | apply quiet_pct_text
        | apply quiet_bind; [| intros ?] ].

Lemma quiet_handle_message (data last_progress : json) :
  clock_quiet (handle_message data last_progress).
Proof.
  unfold handle_message.
  apply quiet_bind; [apply quiet_py_get | intros msg_type].
  repeat first
    [ quiet_step
    | match goal with
      | |- clock_quiet (if ?b then _ else _) => destruct b
      end ].
Qed.

(** [msg_type == 'name'] holds for that string only. *)
Lemma py_eq_string (v : json) (s : string) :
  py_eq v (JString s) = true → v = JString s.
Proof.
  destruct v; try done. cbn [py_eq]. by intros ->%String.eqb_eq.
Qed.

(** A message that ends the wait. *)
Lemma handle_message_terminal (data last_progress : json) (b : bool) (w : Waiter.world) :
  verdict data = Some b →
  ∃ w', handle_message data last_progress w = (Ok (Return b), w')
        ∧ same_clock w w'
        ∧ stdout w' = stdout w ++ [last_line (Text (Some data))]
        ∧ connected w' = false.
Proof.
  unfold verdict. destruct data as [| | | | |fields]; try done.
  cbn zeta. unfold handle_message, last_line, exception_message.
  cbn [py_get]. unfold bind at 1, ret at 1.
  generalize (get_or "type" JNull fields). intros msg_type.
  destruct (py_eq msg_type (JString "executed")) eqn:E1.
  - apply py_eq_string in E1 as ->. intros [= <-].
    eexists. split; [reflexivity |]. by repeat split.
  - destruct (py_eq msg_type (JString "error")) eqn:E2; [| done].
    apply py_eq_string in E2 as ->.
    change (py_eq (JString "error") (JString "executing")) with false.
    change (py_eq (JString "error") (JString "progress")) with false.
    change (py_eq (JString "error") (JString "error")) with true.
    cbv iota. unfold bind at 1, ret at 1.
    destruct (get_or "data" (JObject []) fields) as [| | | | |d]; try done.
    intros [= <-].
    eexists. split; [reflexivity |]. by repeat split.
Qed.

(** A message that does not. *)
Lemma handle_message_goes_on (data last_progress : json) (w w' : Waiter.world)
  (r : res step) :
  verdict data = None →
  handle_message data last_progress w = (r, w') →
  ∀ b, r ≠ Ok (Return b).
Proof.
  unfold verdict. destruct data as [| | | | |fields];
    try (intros _ [= <- <-]; done).
  cbn zeta. unfold handle_message.
  cbn [py_get]. unfold bind at 1, ret at 1.
  generalize (get_or "type" JNull fields). intros msg_type.
  destruct (py_eq msg_type (JString "executing")) eqn:E0.
  { intros _ H b ->.
    apply bind_inv in H as [(a & w1 & _ & H)|(e & _ & ?)]; [| done].
    apply bind_inv in H as [(a' & w2 & _ & H)|(e & _ & ?)]; [| done].
    apply bind_inv in H as [(a'' & w3 & _ & H)|(e & _ & ?)]; [| done].
    done. }
  destruct (py_eq msg_type (JString "progress")) eqn:E1.
  { intros _ H b ->.
    apply bind_inv in H as [(a & w1 & _ & H)|(e & _ & ?)]; [| done].
    apply bind_inv in H as [(a1 & w2 & _ & H)|(e & _ & ?)]; [| done].
    apply bind_inv in H as [(a2 & w3 & _ & H)|(e & _ & ?)]; [| done].
    apply bind_inv in H as [(a3 & w4 & _ & H)|(e & _ & ?)]; [| done].
    destruct (negb _); [| done].
    apply bind_inv in H as [(a4 & w5 & _ & H)|(e & _ & ?)]; [| done].
    apply bind_inv in H as [(a5 & w6 & _ & H)|(e & _ & ?)]; [| done].
    done. }
  destruct (py_eq msg_type (JString "executed")) eqn:E2; [done |].
  destruct (py_eq msg_type (JString "error")) eqn:E3; [| by intros _ [= <- <-]].
  unfold bind at 1, ret at 1.
  destruct (get_or "data" (JObject []) fields) as [| | | | |d] eqn:Ed; try done;
    intros _ [= <- <-]; done.
Qed.

Lemma ws_recv_eq (w : Waiter.world) :
  ws_recv w = (Ok (next_frame w), after_recv w).
Proof.
  unfold ws_recv, next_frame, after_recv, next_wait.
  by destruct (inbox w (received w)).
Qed.

(** The [except] clauses of the loop body go on with the loop. *)
Lemma handler_goes_on (last_progress : json) (e : exn) (w : Waiter.world) :
  ∃ w', (if is_json_decode_error e then ret (Continue last_progress)
         else
           Waiter.print ("   ⚠️  WebSocket error: " +:+ str_of_exn e) ;;
           ret (Continue last_progress)) w = (Ok (Continue last_progress), w')
        ∧ same_clock w w'.
Proof.
  destruct (is_json_decode_error e).
  - exists w. split; [done | apply same_clock_refl].
  - eexists. split; [reflexivity | by repeat split].
Qed.

(** A frame that ends the wait. *)
Lemma iteration_terminal (last_progress : json) (w : Waiter.world) (b : bool) :
  terminal (next_frame w) = Some b →
  ∃ w', iteration last_progress w = (Ok (Return b), w')
        ∧ same_clock (after_recv w) w'
        ∧ stdout w' = stdout w ++ [last_line (next_frame w)]
        ∧ connected w' = false.
Proof.
  intros Ht. unfold iteration, try_except.
  rewrite (bind_ok _ _ _ _ _ (ws_recv_eq w)).
  destruct (next_frame w) as [[data|]| |msg]; try done.
  destruct (handle_message_terminal data last_progress b (after_recv w) Ht)
    as (w' & -> & Hc & Hout & Hconn).
  by exists w'.
Qed.

(** Any other frame: the loop goes on, after the [recv] and nothing else
    that takes time. *)
Lemma iteration_goes_on (last_progress : json) (w : Waiter.world) :
  terminal (next_frame w) = None →
  ∃ last_progress' w',
    iteration last_progress w = (Ok (Continue last_progress'), w')
    ∧ same_clock (after_recv w) w'.
Proof.
  intros Ht. unfold iteration, try_except.
  rewrite (bind_ok _ _ _ _ _ (ws_recv_eq w)).
  destruct (next_frame w) as [[data|]| |msg].
  - destruct (handle_message data last_progress (after_recv w)) as [[[lp|b]|e] w1] eqn:E.
    + exists lp, w1. split; [done |]. by apply quiet_handle_message in E.
    + by destruct (handle_message_goes_on _ _ _ _ _ Ht E b).
    + apply quiet_handle_message in E.
      destruct (handler_goes_on last_progress e w1) as (w' & -> & Hc).
      exists last_progress, w'. split; [done |]. by eapply same_clock_trans.
  - unfold raise.
    destruct (handler_goes_on last_progress (PyError "JSONDecodeError" "Expecting value")
                (after_recv w)) as (w' & -> & Hc).
    by exists last_progress, w'.
  - exists last_progress, (after_recv w). split; [done | apply same_clock_refl].
  - unfold raise.
    destruct (handler_goes_on last_progress (PyError "WebSocketException" msg)
                (after_recv w)) as (w' & -> & Hc).
    by exists last_progress, w'.
Qed.

Lemma ticks_snoc (script : nat → positive * frame) (count from : nat) :
  ticks script from (S count) =
    ticks script from count + Z.pos (script (from + count)%nat).1.
Proof.
  revert from. induction count as [|count IH]; intros from.
  - cbn [ticks]. rewrite Nat.add_0_r. lia.
  - change (ticks script from (S (S count)))
      with (Z.pos (script from).1 + ticks script (S from) (S count)).
    rewrite IH. cbn [ticks]. rewrite Nat.add_succ_r. cbn [Nat.add]. lia.
Qed.

Lemma ticks_nonneg (script : nat → positive * frame) (count from : nat) :
  0 ≤ ticks script from count.
Proof.
  revert from. induction count as [|count IH]; intros from; cbn [ticks]; [lia |].
  specialize (IH (S from)). lia.
Qed.

Lemma ticks_mono (script : nat → positive * frame) (i j from : nat) :
  (i ≤ j)%nat → ticks script from i ≤ ticks script from j.
Proof.
  induction 1 as [|j Hle IH]; [lia |].
  rewrite ticks_snoc. lia.
Qed.

(** One step further into the script. *)
Lemma frame_at_step (w w1 : Waiter.world) (i : nat) :
  same_clock (after_recv w) w1 → frame_at w1 i = frame_at w (S i).
Proof.
  intros (_ & _ & Hi & Hr). unfold frame_at. rewrite Hi, Hr.
  cbn [inbox received after_recv]. by rewrite Nat.add_succ_r.
Qed.

Lemma ticks_before_step (w w1 : Waiter.world) (i : nat) :
  same_clock (after_recv w) w1 →
  ticks_before w (S i) = next_wait w + ticks_before w1 i.
Proof.
  intros (_ & _ & Hi & Hr). unfold ticks_before. rewrite Hi, Hr.
  reflexivity.
Qed.

Lemma frame_at_0 (w : Waiter.world) : frame_at w 0 = next_frame w.
Proof. unfold frame_at, next_frame. by rewrite Nat.add_0_r. Qed.

Lemma ticks_before_1 (w : Waiter.world) : ticks_before w 1 = next_wait w.
Proof. unfold ticks_before, next_wait. cbn [ticks]. lia. Qed.

(** Every run of the loop with enough fuel ends, in one of two ways. *)
Lemma wait_loop_run (timeout start : Z) (fuel : nat) :
  ∀ (last_progress : json) (w : Waiter.world),
    (Z.to_nat (deadline timeout w - (now w - start)) < fuel)%nat →
    ∃ value w',
      wait_loop fuel timeout start last_progress w = Some (Ok value, w')
      ∧ (exits_on_message timeout start w w' value
         ∨ (value = false ∧ exits_on_timeout timeout start w w')).
Proof.
  induction fuel as [|fuel IH]; intros last_progress w Hfuel; [lia |].
  cbn [wait_loop]. fold (deadline timeout w).
  destruct (Z.ltb_spec (now w - start) (deadline timeout w)) as [Hin|Hout].
  - destruct (terminal (next_frame w)) as [b|] eqn:Ht.
    + destruct (iteration_terminal last_progress w b Ht)
        as (w' & -> & (Hz & Hn & Hi & Hr) & Hout & Hconn).
      exists b, w'. split; [done |]. left. exists 0%nat.
      rewrite frame_at_0, ticks_before_1.
      repeat split; try done.
      * intros i Hi0. lia.
      * unfold ticks_before. cbn [ticks]. lia.
      * rewrite Hr. cbn [received after_recv]. lia.
      * by exists (stdout w).
    + destruct (iteration_goes_on last_progress w Ht)
        as (lp' & w1 & -> & Hc).
      pose proof Hc as (Hz & Hn & Hi & Hr).
      cbn [hz now inbox received after_recv] in Hz, Hn, Hi, Hr.
      assert (deadline timeout w1 = deadline timeout w) as Hd.
      { unfold deadline. by rewrite Hz. }
      assert (0 < next_wait w) as Hpos by (unfold next_wait; lia).
      destruct (IH lp' w1) as (value & w' & -> & Hexit).
      { rewrite Hd, Hn. lia. }
      exists value, w'. split; [done |].
      destruct Hexit as [(j & Hbefore & Hj & Hlt & Hnow & Hrec & Hconn & Hlines)
                        |(-> & k & Hbefore & Hge & Hnow & Hrec & Hconn & Hlines)].
      * left. exists (S j).
        rewrite Hd, Hn in *. rewrite Hr in Hrec.
        rewrite !(frame_at_step w w1 _ Hc) in *.
        rewrite !(ticks_before_step w w1 _ Hc).
        repeat split; try done; try lia.
        intros [|i] Hi'; [by rewrite frame_at_0 |].
        rewrite <- (frame_at_step w w1 _ Hc). apply Hbefore. lia.
      * right. split; [done |]. exists (S k).
        rewrite Hd, Hn in *. rewrite Hr in Hrec.
        rewrite !(ticks_before_step w w1 _ Hc).
        repeat split; try done; try lia.
        -- destruct i as [|i]; [by rewrite frame_at_0 |].
           rewrite <- (frame_at_step w w1 _ Hc). apply Hbefore. lia.
        -- destruct i as [|i].
           ++ unfold ticks_before. cbn [ticks]. lia.
           ++ rewrite (ticks_before_step w w1 _ Hc).
              destruct (Hbefore i) as [_ Hlt]; [lia |].
              rewrite Z.add_assoc. exact Hlt.
  - eexists false, _. split; [reflexivity |]. right. split; [done |].
    exists 0%nat. unfold ticks_before. cbn [ticks].
    repeat split; try done; try lia.
    + cbn [now Waiter.add_line]. lia.
    + by exists (stdout w).
Qed.

End WaiterSteps.

Section WaiterTheorems.
Import Waiter.
Local Open Scope py_scope.

Lemma loop_entry_facts (timeout : Z) (w : Waiter.world) :
  hz (loop_entry timeout w) = hz w
  ∧ now (loop_entry timeout w) = now w + Z.pos (connect_takes w)
  ∧ inbox (loop_entry timeout w) = inbox w
  ∧ received (loop_entry timeout w) = received w.
Proof.
  unfold loop_entry, create_connection. cbn [connect_error Waiter.add_line].
  by destruct (connect_error w).
Qed.

Lemma wait_for_completion_refused (fuel : nat) (timeout : Z) (w : Waiter.world)
  (msg : string) :
  connect_error w = Some msg →
  wait_for_completion fuel timeout w =
    Some (Ok false,
          Waiter.add_line ("❌ WebSocket connection error: " +:+ msg)
            (loop_entry timeout w)).
Proof.
  intros H. unfold wait_for_completion, loop_entry, create_connection.
  cbn [connect_error Waiter.add_line]. rewrite H. reflexivity.
Qed.

Lemma wait_for_completion_connected (fuel : nat) (timeout : Z) (w : Waiter.world) :
  connect_error w = None →
  wait_for_completion fuel timeout w =
    match wait_loop fuel timeout (now (loop_entry timeout w)) (JNum 0)
            (loop_entry timeout w) with
    | None => None
    | Some (Ok value, w3) => Some (Ok value, w3)
    | Some (Raise e, w3) =>
        Some ((Waiter.print ("❌ WebSocket connection error: " +:+ str_of_exn e) ;;
               ret false) w3)
    end.
Proof.
  intros H. unfold wait_for_completion, loop_entry, create_connection.
  cbn [connect_error Waiter.add_line]. rewrite H. reflexivity.
Qed.

(** What a message that ends the wait looks like. *)
Lemma terminal_shape (f : frame) (value : bool) :
  terminal f = Some value →
  ∃ fields, f = Text (Some (JObject fields))
            ∧ get_or "type" JNull fields
              = JString (if value then "executed" else "error").
Proof.
  destruct f as [[data|]| |]; try done. cbn [terminal]. unfold verdict.
  destruct data as [| | | | |fields]; try done. cbn zeta.
  destruct (py_eq _ (JString "executed")) eqn:E1.
  - intros [= <-]. apply py_eq_string in E1. by exists fields.
  - destruct (py_eq _ (JString "error")) eqn:E2; [| done].
    apply py_eq_string in E2.
    destruct (get_or "data" (JObject []) fields); try done.
    intros [= <-]. by exists fields.
Qed.

(** Every run of the wait with enough fuel, by the way it ends. *)
Lemma wait_for_completion_run (fuel : nat) (timeout : Z) (w : Waiter.world) :
  (Z.to_nat (deadline timeout w) < fuel)%nat →
  ∃ value w',
    wait_for_completion fuel timeout w = Some (Ok value, w')
    ∧ match connect_error w with
      | Some msg =>
          value = false
          ∧ now w' = now w + Z.pos (connect_takes w)
          ∧ ∃ lines, stdout w' = lines ++ ["❌ WebSocket connection error: " +:+ msg]
      | None =>
          let w0 := loop_entry timeout w in
          (exits_on_message timeout (now w0) w0 w' value
           ∧ ∃ j fields,
               frame_at w0 j = Text (Some (JObject fields))
               ∧ get_or "type" JNull fields
                 = JString (if value then "executed" else "error")
               ∧ ∃ lines, stdout w' = lines ++ [last_line (frame_at w0 j)])
          ∨ (value = false ∧ exits_on_timeout timeout (now w0) w0 w')
      end.
Proof.
  intros Hfuel. destruct (connect_error w) as [msg|] eqn:Hc.
  - rewrite (wait_for_completion_refused fuel timeout w msg Hc).
    eexists _, _. split; [reflexivity |].
    destruct (loop_entry_facts timeout w) as (_ & Hn & _).
    repeat split.
    + cbn [now Waiter.add_line]. exact Hn.
    + by eexists.
  - rewrite (wait_for_completion_connected fuel timeout w Hc).
    destruct (loop_entry_facts timeout w) as (Hz & Hn & _).
    destruct (wait_loop_run timeout (now (loop_entry timeout w)) fuel (JNum 0)
                (loop_entry timeout w)) as (value & w' & -> & Hexit).
    { unfold deadline in *. rewrite Hz.
      replace (now (loop_entry timeout w) - now (loop_entry timeout w)) with 0 by lia.
      by rewrite Z.sub_0_r. }
    exists value, w'. split; [done |]. cbn zeta.
    destruct Hexit as [Hmsg|Htime]; [left | by right].
    split; [done |].
    destruct Hmsg as (j & _ & Hj & _ & _ & _ & _ & Hlines).
    destruct (terminal_shape _ _ Hj) as (fields & Hf & Hty).
    by exists j, fields.
Qed.

(** C2, as the code has it.  The wait consults the event stream only
    (there is no marker check) and answers with one boolean: [True] on the
    first ['executed'] message that arrives before the timeout has
    elapsed; [False] on the first ['error'] message (its exception message
    is printed, not returned), [False] when the timeout has elapsed, and
    [False] when the connection cannot be opened. *)
Theorem C2_wait_answers_one_boolean (fuel : nat) (timeout : Z) (w : Waiter.world) :
  (Z.to_nat (deadline timeout w) < fuel)%nat →
  ∃ value w',
    wait_for_completion fuel timeout w = Some (Ok value, w')
    ∧ match connect_error w with
      | Some msg =>
          value = false
          ∧ now w' = now w + Z.pos (connect_takes w)
          ∧ ∃ lines, stdout w' = lines ++ ["❌ WebSocket connection error: " +:+ msg]
      | None =>
          let w0 := loop_entry timeout w in
          (exits_on_message timeout (now w0) w0 w' value
           ∧ ∃ j fields,
               frame_at w0 j = Text (Some (JObject fields))
               ∧ get_or "type" JNull fields
                 = JString (if value then "executed" else "error")
               ∧ ∃ lines, stdout w' = lines ++ [last_line (frame_at w0 j)])
          ∨ (value = false ∧ exits_on_timeout timeout (now w0) w0 w')
      end.
Proof. apply wait_for_completion_run. Qed.

(** A run that ends on ['executed']: the hypothesis of C2 holds and the
    answer is [True]. *)
Lemma C2_wait_witness :
  ∃ w', wait_for_completion 40 25 (waiting_for finishing) = Some (Ok true, w').
Proof.
  destruct (C2_wait_answers_one_boolean 40 25 (waiting_for finishing))
    as (value & w' & H & _).
  - vm_compute. lia.
  - exists w'. rewrite H. vm_compute in H. by injection H as <- _.
Defined.

(** C2 as stated fails: an ['error'] event and a timeout give the same
    answer, a bare [False] that carries no reason. *)
Lemma C2_failed_and_timed_out_coincide :
  terminal (frame_at (loop_entry 25 (waiting_for failing)) 0) = Some false
  ∧ (∀ k, terminal (silent k).2 = None)
  ∧ fst <$> wait_for_completion 40 25 (waiting_for failing) = Some (Ok false)
  ∧ fst <$> wait_for_completion 40 25 (waiting_for silent) = Some (Ok false).
Proof.
  split; [reflexivity |]. split; [intros k; reflexivity |].
  split; vm_compute; reflexivity.
Qed.






End WaiterTheorems.

Section AdapterSteps.
Import Posix FastVideo.
Local Open Scope py_scope.

Lemma keeps_generator_ret {A} (a : A) : keeps_generator (ret a).
Proof. by intros w r w' [= <- <-]. Qed.

Lemma keeps_generator_raise {A} (e : exn) : keeps_generator (@raise _ A e).
Proof. by intros w r w' [= <- <-]. Qed.

Lemma keeps_generator_get : keeps_generator (@get FastVideo.world).
Proof. by intros w r w' [= <- <-]. Qed.

Lemma keeps_generator_bind {A B} (c : Py FastVideo.world A)
  (k : A → Py FastVideo.world B) :
  keeps_generator c → (∀ a, keeps_generator (k a)) → keeps_generator (bind c k).
Proof.
  intros Hc Hk w r w' H.
  apply bind_inv in H as [(a & w1 & H1 & H2)|(e & H1 & _)].
  - destruct (Hc _ _ _ H1) as [E1 E2]. destruct (Hk a _ _ _ H2) as [E3 E4].
    split; congruence.
  - by apply (Hc _ _ _ H1).
Qed.

Lemma keeps_generator_try_except {A} (c : Py FastVideo.world A)
  (h : exn → Py FastVideo.world A) :
  keeps_generator c → (∀ e, keeps_generator (h e)) → keeps_generator (try_except c h).
Proof.
  intros Hc Hh w r w' H.
  apply try_except_inv in H as [(a & H1 & _)|(e & w1 & H1 & H2)].
  - by apply (Hc _ _ _ H1).
  - destruct (Hc _ _ _ H1) as [E1 E2]. destruct (Hh e _ _ _ H2) as [E3 E4].
    split; congruence.
Qed.

Lemma keeps_generator_on_disk {A} (c : Py Posix.world A) : keeps_generator (on_disk c).
Proof.
  intros w r w'. unfold on_disk. destruct (c (disk w)) as [r1 d']. by intros [= <- <-].
Qed.

Lemma keeps_generator_of_res {A} (x : res A) : keeps_generator (of_res x).
Proof. destruct x; [apply keeps_generator_ret | apply keeps_generator_raise]. Qed.

Lemma keeps_generator_set_warnings (ws : list string) :
  keeps_generator (modify (set_warnings ws)).
Proof. by intros w r w' [= <- <-]. Qed.

Lemma keeps_generator_time : keeps_generator time_time.
Proof. by intros w r w' [= <- <-]. Qed.

Lemma keeps_generator_worker (g : nat) (sp : SamplingParam) :
  keeps_generator (worker_generate g sp).
Proof.
  intros w r w'. unfold worker_generate.
  destruct (generate _ _ _ _ _) as [[took r1] files]. by intros [= <- <-].
Qed.

Ltac kg_step :=
  first [ apply keeps_generator_ret | apply keeps_generator_raise
        | apply keeps_generator_get | apply keeps_generator_on_disk
        | apply keeps_generator_of_res | apply keeps_generator_set_warnings
        | apply keeps_generator_time | apply keeps_generator_worker
        | apply keeps_generator_bind; [| intros ?]
        | apply keeps_generator_try_except; [| intros ?] ].

Lemma keeps_generator_decode (s : string) : keeps_generator (decode_base64_image s).
Proof.
  unfold decode_base64_image. apply keeps_generator_bind.
  - destruct (Str.startswith "data:" s); [| kg_step].
    destruct (Str.split_comma_once s) as [|? [|? ?]]; kg_step.
  - intros ?. repeat kg_step.
Qed.

Lemma keeps_generator_keyframe (request : GenerateVideoRequest) :
  keeps_generator (load_keyframe request).
Proof.
  unfold load_keyframe. destruct (keyframeBase64 request) as [kf|]; [| kg_step].
  destruct (truthy_str kf); [| kg_step].
  kg_step; [| kg_step].
  apply keeps_generator_bind; [apply keeps_generator_decode | intros img].
  destruct (bool_decide _); repeat kg_step.
Qed.

Lemma keeps_generator_run_worker (g : nat) (sp : SamplingParam) :
  keeps_generator (run_worker g sp).
Proof.
  unfold run_worker. kg_step; [| kg_step]. kg_step; [kg_step |].
  destruct (negb _); kg_step.
Qed.

Lemma keeps_generator_mimsave (path : string) (video : pyval) (rate : Z) :
  keeps_generator (mimsave path video rate).
Proof. destruct video; repeat kg_step. Qed.

Lemma keeps_generator_fresh (k : bool * list string) :
  keeps_generator (fresh_output_path k).
Proof. unfold fresh_output_path. repeat kg_step. Qed.

Lemma keeps_generator_resolve (request : GenerateVideoRequest)
  (k : bool * list string) (result : worker_result) :
  keeps_generator (resolve_output request k result).
Proof.
  destruct result as [items|video|cls t]; cbn [resolve_output].
  - destruct (negb _); [| kg_step].
    kg_step; [apply keeps_generator_fresh |].
    destruct (dict_lookup "video" items); [| kg_step].
    kg_step; [apply keeps_generator_mimsave | kg_step].
  - kg_step; [apply keeps_generator_fresh |].
    kg_step; [apply keeps_generator_mimsave | kg_step].
  - kg_step.
Qed.

Lemma keeps_generator_finish (request : GenerateVideoRequest) (d : Z) (p : pyval) :
  keeps_generator (finish request d p).
Proof.
  unfold finish, as_path. kg_step.
  - destruct p; kg_step.
  - kg_step; [kg_step |]. destruct (negb _); repeat kg_step.
Qed.

Lemma keeps_generator_outer (e : exn) : keeps_generator (outer_except e).
Proof. destruct e; [kg_step |]. unfold error_response. repeat kg_step. Qed.

(** A loaded generator is handed out as it is: the world does not change. *)
Lemma get_generator_cached (w : FastVideo.world) (g : nat) :
  _generator w = Some g → get_generator w = (Ok g, w).
Proof. intros H. unfold get_generator, bind, get. by rewrite H. Qed.

(** With no generator loaded, one construction is attempted; only its
    success is remembered. *)
Lemma get_generator_loads (w : FastVideo.world) :
  _generator w = None →
  ∃ w', get_generator w = ((construct (lib w) (loads w)).2, w')
        ∧ loads w' = S (loads w)
        ∧ lib w' = lib w
        ∧ _generator w' = match (construct (lib w) (loads w)).2 with
                          | Ok g => Some g
                          | Raise _ => None
                          end.
Proof.
  intros H. unfold get_generator, bind, get, VideoGenerator. rewrite H.
  destruct (construct (lib w) (loads w)) as [took [g|e]];
    (eexists; split; [reflexivity |]; by rewrite ?H).
Qed.

(** Once a generator is loaded, preparing a request neither loads nor
    forgets one. *)
Lemma prepare_loaded (request : GenerateVideoRequest) (w w' : FastVideo.world)
  (g : nat) (r : res nat) :
  _generator w = Some g →
  prepare request w = (r, w') →
  _generator w' = Some g ∧ loads w' = loads w.
Proof.
  intros Hg H. unfold prepare in H.
  apply bind_inv in H as [(a & w1 & H1 & H2)|(e & H1 & _)].
  - apply keeps_generator_on_disk in H1 as [E1 E2].
    unfold try_except in H2.
    rewrite get_generator_cached with (g := g) in H2 by congruence.
    injection H2 as <- <-. split; congruence.
  - apply keeps_generator_on_disk in H1 as [E1 E2]. split; congruence.
Qed.

Lemma generate_video_loaded (request : GenerateVideoRequest) (w w' : FastVideo.world)
  (g : nat) (r : res GenerateVideoResponse) :
  _generator w = Some g →
  generate_video request w = (r, w') →
  _generator w' = Some g ∧ loads w' = loads w.
Proof.
  intros Hg H. unfold generate_video in H.
  unfold bind at 1, time_time at 1, bind at 1, get at 1, ret at 1 in H.
  unfold bind at 1, modify at 1 in H.
  assert (∀ r1 w1,
            (generator <- prepare request ;;
             start_image <- load_keyframe request ;;
             result <- run_worker generator (sampling_param_of request start_image) ;;
             end_time <- time_time ;;
             output_path <- resolve_output request (resolve (outputDir request)) result ;;
             finish request (end_time - time_ms w) output_path) (set_warnings [] w)
            = (r1, w1) →
            _generator w1 = Some g ∧ loads w1 = loads w) as Hbody.
  { intros r1 w1 Hb.
    assert (_generator (set_warnings [] w) = Some g) as Hg' by exact Hg.
    apply bind_inv in Hb as [(gen & w2 & H1 & H2)|(e & H1 & _)];
      [| by apply (prepare_loaded request _ _ g _ Hg' H1)].
    apply (prepare_loaded request _ _ g _ Hg') in H1 as [E1 E2].
    cbn [loads set_warnings] in E2.
    assert (keeps_generator
              (start_image <- load_keyframe request ;;
               result <- run_worker gen (sampling_param_of request start_image) ;;
               end_time <- time_time ;;
               output_path <- resolve_output request (resolve (outputDir request)) result ;;
               finish request (end_time - time_ms w) output_path)) as Hk.
    { kg_step; [apply keeps_generator_keyframe |].
      kg_step; [apply keeps_generator_run_worker |].
      kg_step; [kg_step |].
      kg_step; [apply keeps_generator_resolve | apply keeps_generator_finish]. }
    destruct (Hk _ _ _ H2) as [E3 E4]. split; congruence. }
  apply try_except_inv in H as [(a & H1 & _)|(e & w1 & H1 & H2)].
  - by apply Hbody in H1.
  - apply Hbody in H1 as [E1 E2].
    destruct (keeps_generator_outer e _ _ _ H2) as [E3 E4]. split; congruence.
Qed.

Lemma post_generate_loaded (request : GenerateVideoRequest) (w w' : FastVideo.world)
  (g : nat) (response : http_response) :
  _generator w = Some g →
  post_generate request w = (response, w') →
  _generator w' = Some g ∧ loads w' = loads w.
Proof.
  intros Hg. unfold post_generate.
  destruct (valid_request request); [| by intros [= <- <-]].
  destruct (generate_video request w) as [[r|[code detail|cls msg]] w1] eqn:E;
    intros [= <- <-]; by apply (generate_video_loaded request w w1 g _ Hg E).
Qed.

Lemma serve_loaded (requests : list GenerateVideoRequest) :
  ∀ (w : FastVideo.world) (g : nat),
    _generator w = Some g →
    _generator (serve requests w).2 = Some g ∧ loads (serve requests w).2 = loads w.
Proof.
  induction requests as [|request rest IH]; intros w g Hg; [done |].
  cbn [serve]. destruct (post_generate request w) as [response w1] eqn:E.
  destruct (post_generate_loaded request w w1 g response Hg E) as [E1 E2].
  destruct (serve rest w1) as [responses w2] eqn:Es.
  specialize (IH w1 g E1). rewrite Es in IH. cbn [snd] in *.
  destruct IH as [E3 E4]. split; congruence.
Qed.

End AdapterSteps.

Section AdapterTheorems.
Import Posix FastVideo.
Local Open Scope py_scope.

(** C6, as the code has it.  A loaded generator is handed out without any
    construction, for every later request; with none loaded, one
    construction is attempted, and only its success is kept: a failed
    attempt leaves nothing behind, so the next acquisition constructs
    again. *)
Theorem C6_generator_loaded_once (w : FastVideo.world) :
  (∀ g, _generator w = Some g → get_generator w = (Ok g, w))
  ∧ (_generator w = None →
     ∃ w', get_generator w = ((construct (lib w) (loads w)).2, w')
           ∧ loads w' = S (loads w)
           ∧ _generator w' = match (construct (lib w) (loads w)).2 with
                             | Ok g => Some g
                             | Raise _ => None
                             end)
  ∧ (∀ g requests,
       _generator w = Some g →
       _generator (serve requests w).2 = Some g
       ∧ loads (serve requests w).2 = loads w).
Proof.
  split; [apply get_generator_cached |]. split.
  - intros H. destruct (get_generator_loads w H) as (w' & H1 & H2 & _ & H3).
    by exists w'.
  - intros g requests H. by apply serve_loaded.
Qed.

(** Three requests after a first one has loaded the generator: still one
    construction. *)
Lemma C6_generator_witness :
  let w1 := (post_generate example_request (adapter (example_libs true writes_file))).2 in
  loads w1 = 1%nat
  ∧ loads (serve [example_request; with_frames 400 example_request; example_request] w1).2
    = 1%nat.
Proof.
  intros w1. split; [reflexivity |].
  destruct (C6_generator_loaded_once w1) as (_ & _ & H).
  destruct (H 0%nat [example_request; with_frames 400 example_request; example_request])
    as [_ ->]; reflexivity.
Defined.

(** C6 as stated fails: a failed initialization is not remembered; the
    next acquisition constructs again (and fails again). *)
Lemma C6_failed_load_is_attempted_again :
  let w0 := adapter (example_libs false writes_file) in
  ∃ e w1 w2,
    get_generator w0 = (Raise e, w1)
    ∧ _generator w1 = None ∧ loads w1 = 1%nat
    ∧ get_generator w1 = (Raise e, w2)
    ∧ loads w2 = 2%nat.
Proof.
  intros w0. eexists _, _, _.
  split; [reflexivity |]. split; [reflexivity |]. split; [reflexivity |].
  split; reflexivity.
Qed.

Lemma split_comma_once_found (pre rest : string) :
  comma_free pre = true →
  Str.split_comma_once (pre +:+ String ","%char rest) = [pre; rest].
Proof.
  induction pre as [|c pre IH]; [done |].
  cbn [comma_free]. intros [Hc Hp]%andb_prop.
  change (String c pre +:+ String ","%char rest)
    with (String c (pre +:+ String ","%char rest)).
  cbn [Str.split_comma_once].
  destruct (Ascii.eqb c ","%char); [done |]. by rewrite (IH Hp).
Qed.

Lemma split_comma_once_none (s : string) :
  comma_free s = true → Str.split_comma_once s = [s].
Proof.
  induction s as [|c s IH]; [done |].
  cbn [comma_free Str.split_comma_once]. intros [Hc Hp]%andb_prop.
  destruct (Ascii.eqb c ","%char); [done |]. by rewrite (IH Hp).
Qed.

Lemma decode_payload_rgb (s : string) (w w' : FastVideo.world) (img : image) :
  decode_payload s w = (Ok img, w') → mode img = "RGB" ∧ w' = w.
Proof.
  unfold decode_payload, bind, get, of_res, ret, raise.
  destruct (b64decode (lib w) s) as [data|e]; [| done].
  destruct (image_open (lib w) data) as [i|e]; [| done].
  by intros [= <- <-].
Qed.

Lemma decode_base64_image_unfold (s : string) (w : FastVideo.world) :
  decode_base64_image s w =
    if Str.startswith "data:" s then
      match Str.split_comma_once s with
      | _ :: second :: _ => decode_payload second w
      | _ => (Raise (PyError "IndexError" "list index out of range"), w)
      end
    else decode_payload s w.
Proof.
  unfold decode_base64_image. fold (decode_payload).
  destruct (Str.startswith "data:" s); [| reflexivity].
  by destruct (Str.split_comma_once s) as [|? [|? ?]].
Qed.

Lemma decode_base64_image_rgb (s : string) (w w' : FastVideo.world) (img : image) :
  decode_base64_image s w = (Ok img, w') → mode img = "RGB" ∧ w' = w.
Proof.
  rewrite decode_base64_image_unfold.
  destruct (Str.startswith "data:" s); [| apply decode_payload_rgb].
  destruct (Str.split_comma_once s) as [|? [|? ?]]; try done.
  apply decode_payload_rgb.
Qed.

(** C9, as the code has it.  A keyframe that begins with ["data:"] and
    holds a comma is decoded from what follows its first comma; any other
    keyframe that does not begin with ["data:"] is decoded as it is; every
    image that comes out, and so every start image the worker gets, is in
    RGB mode.  A keyframe that begins with ["data:"] and holds no comma
    raises [IndexError]. *)
Theorem C9_keyframe_decoding (w : FastVideo.world) :
  (∀ pre rest,
     comma_free pre = true →
     Str.startswith "data:" (pre +:+ String ","%char rest) = true →
     decode_base64_image (pre +:+ String ","%char rest) w = decode_payload rest w)
  ∧ (∀ s, Str.startswith "data:" s = false →
          decode_base64_image s w = decode_payload s w)
  ∧ (∀ s img w', decode_base64_image s w = (Ok img, w') → mode img = "RGB" ∧ w' = w)
  ∧ (∀ request img w',
       load_keyframe request w = (Ok (Some img), w') → mode img = "RGB")
  ∧ (∀ s, Str.startswith "data:" s = true → comma_free s = true →
          decode_base64_image s w
          = (Raise (PyError "IndexError" "list index out of range"), w)).
Proof.
  repeat apply conj.
  - intros pre rest Hp Hs. rewrite decode_base64_image_unfold, Hs.
    by rewrite split_comma_once_found.
  - intros s Hs. by rewrite decode_base64_image_unfold, Hs.
  - intros s img w'. apply decode_base64_image_rgb.
  - intros request img w'. unfold load_keyframe.
    destruct (keyframeBase64 request) as [kf|]; [| done].
    destruct (truthy_str kf); [| done].
    intros H. apply try_except_inv in H as [(a & H & [= <-])|(e & w1 & _ & ?)]; [| done].
    apply bind_inv in H as [(i & w1 & H1 & H2)|(e & _ & ?)]; [| done].
    apply decode_base64_image_rgb in H1 as [Hm ->].
    destruct (bool_decide _).
    + by injection H2 as <- _.
    + unfold bind, get, modify, ret in H2. by injection H2 as <- _.
  - intros s Hs Hc. rewrite decode_base64_image_unfold, Hs.
    by rewrite split_comma_once_none.
Qed.

(** A data URL and the same payload without its wrapper decode alike. *)
Lemma C9_keyframe_witness :
  decode_base64_image "data:image/png;base64,iVBORw0KGgo="
    (adapter (example_libs true writes_file))
  = decode_payload "iVBORw0KGgo=" (adapter (example_libs true writes_file)).
Proof.
  destruct (C9_keyframe_decoding (adapter (example_libs true writes_file))) as (H & _).
  apply (H "data:image/png;base64" "iVBORw0KGgo="); reflexivity.
Defined.

(** C9 as stated fails for a keyframe that begins with ["data:"] and has
    no comma at all: nothing is stripped or decoded, the indexing of the
    split raises. *)
Lemma C9_data_prefix_without_comma_raises :
  Str.startswith "data:" "data:image/png;base64" = true
  ∧ decode_base64_image "data:image/png;base64"
      (adapter (example_libs true writes_file))
    = (Raise (PyError "IndexError" "list index out of range"),
       adapter (example_libs true writes_file)).
Proof. split; reflexivity. Qed.

(** The handler is its [try] block, run from [at_start w], with the two
    outer [except] clauses. *)
Lemma generate_video_unfold (request : GenerateVideoRequest) (w : FastVideo.world) :
  generate_video request w =
    try_except
      (generator <- prepare request ;;
       start_image <- load_keyframe request ;;
       result <- run_worker generator (sampling_param_of request start_image) ;;
       end_time <- time_time ;;
       output_path <- resolve_output request (resolve (outputDir request)) result ;;
       finish request (end_time - time_ms w) output_path)
      outer_except (at_start w).
Proof. reflexivity. Qed.

(** An [HTTPException] raised inside the [try] leaves the handler as it
    is. *)
Lemma generate_video_http (request : GenerateVideoRequest) (w w' : FastVideo.world)
  (code : Z) (detail : string) :
  (generator <- prepare request ;;
   start_image <- load_keyframe request ;;
   result <- run_worker generator (sampling_param_of request start_image) ;;
   end_time <- time_time ;;
   output_path <- resolve_output request (resolve (outputDir request)) result ;;
   finish request (end_time - time_ms w) output_path) (at_start w)
  = (Raise (HTTPException code detail), w') →
  post_generate request w =
    (if valid_request request
     then {| http_status := code; body := Detail detail |}
     else {| http_status := 422; body := Invalid (invalid_fields request) |},
     if valid_request request then w' else w).
Proof.
  intros H. unfold post_generate. destruct (valid_request request); [| done].
  rewrite generate_video_unfold. by rewrite (try_except_raise _ _ _ _ _ H).
Qed.

(** Preparing a request calls no worker and makes no file. *)
Lemma prepare_quiet (request : GenerateVideoRequest) (w w' : FastVideo.world)
  (r : res nat) :
  prepare request w = (r, w') →
  calls w' = calls w
  ∧ ∀ k d, tree (disk w') !! k = Some (File d) ↔ tree (disk w) !! k = Some (File d).
Proof.
  unfold prepare. intros H.
  assert (∀ r1 w1, try_except get_generator
            (fun e => raise (HTTPException 500
                               ("Failed to load FastVideo model: " +:+ str_of_exn e))) w1
            = (r1, w') → calls w' = calls w1 ∧ disk w' = disk w1) as Hload.
  { intros r1 w1. unfold try_except, get_generator, bind, get, VideoGenerator, modify, ret, raise.
    destruct (_generator w1); [by intros [= <- <-] |].
    destruct (construct (lib w1) (loads w1)) as [took [g|e]]; by intros [= <- <-]. }
  apply bind_inv in H as [(a & w1 & H1 & H2)|(e & H1 & _)].
  - apply Hload in H2 as [-> ->]. revert H1. unfold on_disk.
    destruct (mkdirs _ _ _ (disk w)) as [r1 d'] eqn:E. intros [= _ <-].
    split; [done |]. by apply mkdirs_spec in E as (_ & _ & _ & _ & Hfile & _).
  - revert H1. unfold on_disk.
    destruct (mkdirs _ _ _ (disk w)) as [r1 d'] eqn:E. intros [= _ <-].
    split; [done |]. by apply mkdirs_spec in E as (_ & _ & _ & _ & Hfile & _).
Qed.

Lemma valid_request_ranges (r : GenerateVideoRequest) :
  valid_request r = true ↔
    (8 ≤ fps r ≤ 30) ∧ (8 ≤ numFrames r ≤ 300)
    ∧ (256 ≤ width r ≤ 1920) ∧ (256 ≤ height r ≤ 1080).
Proof.
  unfold valid_request, fps_ok, numFrames_ok, width_ok, height_ok, in_range.
  rewrite !andb_true_iff, !Z.leb_le. tauto.
Qed.

Lemma invalid_fields_named (r : GenerateVideoRequest) :
  valid_request r = false → invalid_fields r ≠ [].
Proof.
  unfold valid_request, invalid_fields.
  destruct (fps_ok r); [| done]. destruct (numFrames_ok r); [| done].
  destruct (width_ok r); [| done]. by destruct (height_ok r).
Qed.

(** C3, as the code has it.  A request with a field out of range (a
    [numFrames] of 400, say) is answered 422 by the request model before
    the handler runs: no worker call, no file, no change at all.  A
    keyframe that cannot be decoded is answered with HTTP status 400 (not
    in-band under 200), before the worker is called and without any file
    being made. *)
Theorem C3_invalid_requests_stop_early (request : GenerateVideoRequest)
  (w : FastVideo.world) :
  (valid_request request = true ↔
     (8 ≤ fps request ≤ 30) ∧ (8 ≤ numFrames request ≤ 300)
     ∧ (256 ≤ width request ≤ 1920) ∧ (256 ≤ height request ≤ 1080))
  ∧ (valid_request request = false →
     post_generate request w
     = ({| http_status := 422; body := Invalid (invalid_fields request) |}, w)
     ∧ invalid_fields request ≠ [])
  ∧ (∀ generator w2 keyframe e w3,
       valid_request request = true →
       prepare request (at_start w) = (Ok generator, w2) →
       keyframeBase64 request = Some keyframe →
       keyframe ≠ EmptyString →
       decode_base64_image keyframe w2 = (Raise e, w3) →
       post_generate request w
       = ({| http_status := 400;
             body := Detail ("Failed to decode keyframe image: " +:+ str_of_exn e) |},
          w3)
       ∧ calls w3 = calls w
       ∧ ∀ k d, tree (disk w3) !! k = Some (File d) ↔ tree (disk w) !! k = Some (File d)).
Proof.
  split; [apply valid_request_ranges |]. split.
  - intros Hv. split; [| by apply invalid_fields_named].
    unfold post_generate. by rewrite Hv.
  - intros generator w2 keyframe e w3 Hv Hp Hk Hne Hd.
    assert (w3 = w2) as ->.
    { revert Hd. rewrite decode_base64_image_unfold.
      assert (∀ s, decode_payload s w2 = (Raise e, w3) → w3 = w2) as Hpay.
      { intros s. unfold decode_payload, bind, get, of_res, ret, raise.
        destruct (b64decode (lib w2) s) as [data|e1]; [| by intros [= _ <-]].
        destruct (image_open (lib w2) data) as [i|e1]; by intros [= <-] || intros [= _ <-]. }
      destruct (Str.startswith "data:" keyframe); [| apply Hpay].
      destruct (Str.split_comma_once keyframe) as [|? [|? ?]];
        try (by intros [= _ <-]). apply Hpay. }
    split.
    + erewrite generate_video_http; [by rewrite Hv |].
      rewrite (bind_ok _ _ _ _ _ Hp).
      apply bind_raise. unfold load_keyframe. rewrite Hk.
      assert (truthy_str keyframe = true) as ->.
      { unfold truthy_str. by destruct (String.eqb_spec keyframe EmptyString). }
      apply try_except_raise with (e := e) (w' := w2).
      by apply bind_raise.
    + destruct (prepare_quiet _ _ _ _ Hp) as [Hc Hf]. split; [exact Hc | exact Hf].
Qed.

(** A keyframe that is not base64: the hypotheses of C3's last part hold,
    and the answer is a 400. *)
Lemma C3_invalid_requests_witness :
  post_generate (with_keyframe "not base64!" example_request)
    (adapter (example_libs true writes_file))
  = ({| http_status := 400;
        body := Detail "Failed to decode keyframe image: Incorrect padding" |},
     (prepare (with_keyframe "not base64!" example_request)
        (at_start (adapter (example_libs true writes_file)))).2).
Proof.
  destruct (C3_invalid_requests_stop_early
              (with_keyframe "not base64!" example_request)
              (adapter (example_libs true writes_file))) as (_ & _ & H).
  destruct (H 0%nat
              (prepare (with_keyframe "not base64!" example_request)
                 (at_start (adapter (example_libs true writes_file)))).2
              "not base64!" (PyError "binascii.Error" "Incorrect padding")
              (prepare (with_keyframe "not base64!" example_request)
                 (at_start (adapter (example_libs true writes_file)))).2)
    as (Hr & _); [reflexivity | reflexivity | reflexivity | discriminate | reflexivity |].
  exact Hr.
Defined.

(** C3 as stated fails: neither kind of error comes back in-band under
    status 200.  An undecodable keyframe is an HTTP 400, a [numFrames] of
    400 an HTTP 422. *)
Lemma C3_errors_are_not_in_band :
  valid_request (with_keyframe "not base64!" example_request) = true
  ∧ (post_generate (with_keyframe "not base64!" example_request)
       (adapter (example_libs true writes_file))).1
    = {| http_status := 400;
         body := Detail "Failed to decode keyframe image: Incorrect padding" |}
  ∧ (post_generate (with_frames 400 example_request)
       (adapter (example_libs true writes_file))).1
    = {| http_status := 422; body := Invalid ["numFrames"] |}.
Proof. repeat split; reflexivity. Qed.

(** How the [except] around the worker call picks its answer. *)
Lemma classify_worker_error_cases (e : exn) :
  let error_msg := str_of_exn e in
  ∃ code detail,
    classify_worker_error e = HTTPException code detail
    ∧ (oom_signature error_msg = true →
       code = 507
       ∧ detail = "CUDA OOM: Try reducing numFrames, resolution, or closing other GPU processes")
    ∧ (oom_signature error_msg = false → model_signature error_msg = true →
       code = 500 ∧ detail = "Model not found or corrupted: " +:+ error_msg)
    ∧ (oom_signature error_msg = false → model_signature error_msg = false →
       code = 500 ∧ detail = "Generation failed: " +:+ error_msg)
    ∧ (code = 507 ↔ oom_signature error_msg = true).
Proof.
  cbn zeta. unfold classify_worker_error.
  fold (oom_signature (str_of_exn e)). fold (model_signature (str_of_exn e)).
  destruct (oom_signature (str_of_exn e)); [| destruct (model_signature (str_of_exn e))];
    eexists _, _; (split; [reflexivity |]); repeat split; try done.
Qed.

(** C4.  When the worker raises, the handler answers by the first
    signature found in the error text: resource exhaustion (HTTP 507, a
    status no other path uses for worker errors), then a missing or corrupt
    model (500, the text kept), then anything else (500, "Generation
    failed" followed by the worker's text as it is). *)
Theorem C4_worker_errors_classified (request : GenerateVideoRequest)
  (w w2 w3 w4 : FastVideo.world) (generator : nat) (start_image : option image)
  (e : exn) :
  valid_request request = true →
  prepare request (at_start w) = (Ok generator, w2) →
  load_keyframe request w2 = (Ok start_image, w3) →
  worker_generate generator (sampling_param_of request start_image) w3 = (Raise e, w4) →
  let error_msg := str_of_exn e in
  ∃ code detail,
    post_generate request w = ({| http_status := code; body := Detail detail |}, w4)
    ∧ (oom_signature error_msg = true →
       code = 507
       ∧ detail = "CUDA OOM: Try reducing numFrames, resolution, or closing other GPU processes")
    ∧ (oom_signature error_msg = false → model_signature error_msg = true →
       code = 500 ∧ detail = "Model not found or corrupted: " +:+ error_msg)
    ∧ (oom_signature error_msg = false → model_signature error_msg = false →
       code = 500 ∧ detail = "Generation failed: " +:+ error_msg)
    ∧ (code = 507 ↔ oom_signature error_msg = true).
Proof.
  intros Hv Hp Hk Hw. cbn zeta.
  destruct (classify_worker_error_cases e) as (code & detail & Hc & Hcases).
  exists code, detail. split; [| exact Hcases].
  erewrite generate_video_http; [by rewrite Hv |].
  rewrite (bind_ok _ _ _ _ _ Hp), (bind_ok _ _ _ _ _ Hk).
  apply bind_raise. unfold run_worker.
  rewrite (try_except_raise _ _ _ _ _ (bind_raise _ _ _ _ _ Hw)).
  by rewrite Hc.
Qed.

(** A worker whose error text shows both signatures: the first one
    wins. *)
Lemma C4_worker_errors_witness :
  oom_signature "CUDA out of memory while moving the model to the device" = true
  ∧ model_signature "CUDA out of memory while moving the model to the device" = true
  ∧ http_status (post_generate example_request
                   (adapter (example_libs true out_of_memory))).1 = 507.
Proof.
  split; [reflexivity |]. split; [reflexivity |].
  destruct (C4_worker_errors_classified example_request
              (adapter (example_libs true out_of_memory))
              (prepare example_request
                 (at_start (adapter (example_libs true out_of_memory)))).2
              (prepare example_request
                 (at_start (adapter (example_libs true out_of_memory)))).2
              (worker_generate 0 (sampling_param_of example_request None)
                 (prepare example_request
                    (at_start (adapter (example_libs true out_of_memory)))).2).2
              0%nat None
              (PyError "RuntimeError"
                 "CUDA out of memory while moving the model to the device"))
    as (code & detail & -> & H & _); [reflexivity .. |].
  by destruct H as [-> _].
Defined.

(** The check made on the disk leaves the files as they are. *)
Lemma on_disk_path_exists (path : string) (w : FastVideo.world) :
  ∃ there w',
    on_disk (path_exists path) w = (Ok there, w')
    ∧ tree (disk w') = tree (disk w)
    ∧ warnings_var w' = warnings_var w
    ∧ (there = true → is_Some (node_at (tree (disk w)) path))
    ∧ (node_at (tree (disk w)) path = None → there = false).
Proof.
  unfold on_disk, path_exists.
  destruct (fault (disk w) (SysStat path)).
  - eexists _, _. split; [reflexivity |]. repeat split; done.
  - eexists _, _. split; [reflexivity |]. repeat split; try done.
    + by intros ?%bool_decide_eq_true.
    + intros ->. apply bool_decide_eq_false. by intros [? ?].
Qed.

(** The last statements answer "complete" only for a path that is there. *)
Lemma finish_complete (request : GenerateVideoRequest) (duration_ms : Z)
  (output_path : pyval) (w w' : FastVideo.world) (r : GenerateVideoResponse) :
  finish request duration_ms output_path w = (Ok r, w') →
  status r = "complete"
  ∧ ∃ p, outputVideoPath r = Some p ∧ is_Some (node_at (tree (disk w')) p).
Proof.
  unfold finish. destruct output_path as [|p|video]; try done.
  cbn [as_path]. unfold bind at 1, ret at 1.
  destruct (on_disk_path_exists p w) as (there & w1 & E & Ht & _ & Hyes & _).
  rewrite (bind_ok _ _ _ _ _ E).
  destruct there; [| done]. cbn [negb].
  unfold bind, get, ret. intros [= <- <-]. split; [done |].
  exists p. split; [done |]. rewrite Ht. by apply Hyes.
Qed.





End AdapterTheorems.

(* ===================================================================== *)
(** ** write_done_marker.py: what a publication touches and guarantees    *)
(* ===================================================================== *)

Section Footprint.
Import Posix Marker.
Local Open Scope py_scope.

Lemma touches_weaken {A} (ks ks' : list (bool * list string)) (c : Py Posix.world A) :
  (∀ k, k ∈ ks → k ∈ ks') → only_touches ks c → only_touches ks' c.
Proof. intros Hsub Hc w r w' E k Hk. apply (Hc w r w' E). intros ?. by apply Hk, Hsub. Qed.

Lemma touches_ret {A} (ks : list (bool * list string)) (a : A) : only_touches ks (ret a).
Proof. by intros w r w' [= <- <-]. Qed.

Lemma touches_raise {A} (ks : list (bool * list string)) (e : exn) :
  only_touches ks (@raise _ A e).
Proof. by intros w r w' [= <- <-]. Qed.

Lemma touches_get (ks : list (bool * list string)) : only_touches ks (@get Posix.world).
Proof. by intros w r w' [= <- <-]. Qed.

Lemma touches_bind {A B} (ks : list (bool * list string)) (c : Py Posix.world A)
  (k : A → Py Posix.world B) :
  only_touches ks c → (∀ a, only_touches ks (k a)) → only_touches ks (bind c k).
Proof.
  intros Hc Hk w r w' H q Hq.
  apply bind_inv in H as [(a & w1 & H1 & H2)|(e & H1 & _)].
  - rewrite (Hk a _ _ _ H2 q Hq). by apply (Hc _ _ _ H1).
  - by apply (Hc _ _ _ H1).
Qed.

Lemma touches_try_except {A} (ks : list (bool * list string)) (c : Py Posix.world A)
  (h : exn → Py Posix.world A) :
  only_touches ks c → (∀ e, only_touches ks (h e)) → only_touches ks (try_except c h).
Proof.
  intros Hc Hh w r w' H q Hq.
  apply try_except_inv in H as [(a & H1 & _)|(e & w1 & H1 & H2)].
  - by apply (Hc _ _ _ H1).
  - rewrite (Hh e _ _ _ H2 q Hq). by apply (Hc _ _ _ H1).
Qed.

Lemma touches_try_finally {A} (ks : list (bool * list string)) (c : Py Posix.world A)
  (f : Py Posix.world unit) :
  only_touches ks c → only_touches ks f → only_touches ks (try_finally c f).
Proof.
  intros Hc Hf w r w' H q Hq.
  apply try_finally_inv in H as (r1 & w1 & r2 & H1 & H2 & _).
  rewrite (Hf _ _ _ H2 q Hq). by apply (Hc _ _ _ H1).
Qed.

Lemma touches_print (ks : list (bool * list string)) (line : string) :
  only_touches ks (print line).
Proof. by intros w r w' [= <- <-]. Qed.

Lemma touches_call (ks : list (bool * list string)) (c : syscall) :
  only_touches ks (call c).
Proof.
  intros w r w'. unfold call. by destruct (fault w c); intros [= <- <-].
Qed.

Lemma touches_open_w (p : string) : only_touches [resolve p] (open_w p).
Proof.
  intros w r w'. unfold open_w, bind, call, get, modify, raise, ret.
  destruct (fault w (SysOpen p)); [by intros [= <- <-] |].
  cbn [tree record_call].
  destruct (dirlike p); [by intros [= <- <-] |].
  destruct (negb _); [by intros [= <- <-] |].
  destruct (node_at (tree w) p) as [[|d]|]; intros [= <- <-] k Hk; try done.
  all: cbn [tree set_tree record_call].
  all: apply lookup_insert_ne; intros <-; apply Hk; by left.
Qed.

Lemma append_to_other (k k' : bool * list string) (data : string)
  (t : gmap (bool * list string) node) :
  k' ≠ k → append_to k data t !! k' = t !! k'.
Proof.
  intros Hne. unfold append_to. destruct (t !! k) as [[|old]|]; try done.
  by apply lookup_insert_ne.
Qed.

Lemma touches_write (f data : string) : only_touches [resolve f] (write f data).
Proof.
  intros w r w'. unfold write.
  destruct (fault w (SysWrite f data)); intros [= <- <-] k Hk;
    cbn [tree set_tree record_call]; apply append_to_other; intros ->; apply Hk; by left.
Qed.

(** A successful [open] hands out the path as the handle and leaves an
    empty file there. *)
Lemma open_w_done (p f : string) (w w1 : Posix.world) :
  open_w p w = (Ok f, w1) →
  f = p ∧ tree w1 = <[resolve p := File EmptyString]> (tree w).
Proof.
  unfold open_w, bind, call, get, modify, raise, ret.
  destruct (fault w (SysOpen p)); [done |]. cbn [tree record_call].
  destruct (dirlike p); [done |]. destruct (negb _); [done |].
  by destruct (node_at (tree w) p) as [[|d]|]; intros [= <- <-].
Qed.

Lemma open_w_raises (p : string) (w w1 : Posix.world) (e : exn) :
  open_w p w = (Raise e, w1) → tree w1 = tree w.
Proof.
  unfold open_w, bind, call, get, modify, raise, ret.
  destruct (fault w (SysOpen p)); [by intros [= _ <-] |]. cbn [tree record_call].
  destruct (dirlike p); [by intros [= _ <-] |].
  destruct (negb _); [by intros [= _ <-] |].
  by destruct (node_at (tree w) p) as [[|d]|]; intros [= _ <-].
Qed.

Lemma touches_with_open_w {A} (p : string) (body : string → Py Posix.world A) :
  only_touches [resolve p] (body p) → only_touches [resolve p] (with_open_w p body).
Proof.
  intros Hb w r w' H k Hk. unfold with_open_w in H.
  apply bind_inv in H as [(f & w1 & Ho & H)|(e & Ho & _)].
  - destruct (open_w_done _ _ _ _ Ho) as [-> _].
    rewrite (touches_try_finally _ _ _ Hb (touches_call _ _) _ _ _ H k Hk).
    by apply (touches_open_w p _ _ _ Ho).
  - by apply (touches_open_w p _ _ _ Ho).
Qed.

Lemma touches_path_exists (ks : list (bool * list string)) (p : string) :
  only_touches ks (path_exists p).
Proof.
  intros w r w'. unfold path_exists. by destruct (fault w (SysStat p)); intros [= <- <-].
Qed.

Lemma touches_os_remove (p : string) : only_touches [resolve p] (os_remove p).
Proof.
  intros w r w'. unfold os_remove, bind, call, get, modify, raise, ret.
  destruct (fault w (SysRemove p)); [by intros [= <- <-] |].
  cbn [tree record_call].
  destruct (node_at (tree w) p) as [[|d]|]; intros [= <- <-] k Hk; try done.
  cbn [tree set_tree record_call].
  apply lookup_delete_ne. intros <-. apply Hk. by left.
Qed.

Lemma touches_os_replace (src dst : string) :
  only_touches [resolve src; resolve dst] (os_replace src dst).
Proof.
  intros w r w'. unfold os_replace, bind, call, get, modify, raise, ret.
  destruct (fault w (SysReplace src dst)); [by intros [= <- <-] |].
  cbn [tree record_call].
  destruct (node_at (tree w) src) as [[|d]|]; [by intros [= <- <-] | | by intros [= <- <-]].
  destruct (node_at (tree w) dst) as [[|d']|]; [by intros [= <- <-] | |].
  all: destruct (dirlike dst || negb _); intros [= <- <-] k Hk; [done |].
  all: cbn [tree set_tree record_call].
  all: rewrite lookup_insert_ne by (intros <-; apply Hk; right; by left).
  all: apply lookup_delete_ne; intros <-; apply Hk; by left.
Qed.

(** What a failing [os.replace] leaves: the tree as it was. *)
Lemma os_replace_raises (src dst : string) (w w' : Posix.world) (e : exn) :
  os_replace src dst w = (Raise e, w') → tree w' = tree w.
Proof.
  unfold os_replace, bind, call, get, modify, raise, ret.
  destruct (fault w (SysReplace src dst)); [by intros [= _ <-] |].
  cbn [tree record_call].
  destruct (node_at (tree w) src) as [[|d]|]; [by intros [= _ <-] | | by intros [= _ <-]].
  destruct (node_at (tree w) dst) as [[|d']|]; [by intros [= _ <-] | |].
  all: destruct (dirlike dst || negb _); [by intros [= _ <-] | done].
Qed.

(** What a successful [os.replace] does. *)
Lemma os_replace_done (src dst : string) (w w' : Posix.world) :
  os_replace src dst w = (Ok tt, w') →
  ∃ d, tree w !! resolve src = Some (File d)
       ∧ tree w' = <[resolve dst := File d]> (delete (resolve src) (tree w)).
Proof.
  unfold os_replace, bind, call, get, modify, raise, ret.
  destruct (fault w (SysReplace src dst)); [done |].
  cbn [tree record_call].
  destruct (node_at (tree w) src) as [[|d]|] eqn:Es; [done | | done].
  apply node_at_file in Es.
  destruct (node_at (tree w) dst) as [[|d']|]; [done | |].
  all: destruct (dirlike dst || negb _); [done |]; intros [= <-]; by exists d.
Qed.

(** A [with open(p, 'w')] block whose body, when it succeeds, has
    appended [data] to the file, has written [data] to [p] when it ends
    without an exception. *)
Lemma with_open_w_done (p data : string) (body : string → Py Posix.world unit)
  (w w' : Posix.world) :
  (∀ f w1 w2, body f w1 = (Ok tt, w2) →
              tree w2 = append_to (resolve f) data (tree w1)) →
  with_open_w p body w = (Ok tt, w') →
  tree w' = <[resolve p := File data]> (tree w).
Proof.
  intros Hbody H. unfold with_open_w in H.
  apply bind_inv in H as [(f & w1 & Ho & H)|(e & _ & ?)]; [| done].
  apply open_w_done in Ho as [-> Ht1].
  apply try_finally_inv in H as (r1 & w2 & r2 & Hb & Hc & Hr).
  assert (tree w' = tree w2) as ->.
  { revert Hc. unfold close, call. by destruct (fault w2 (SysClose p)); intros [= _ <-]. }
  destruct r2 as [[]|e]; [subst r1 | done].
  rewrite (Hbody _ _ _ Hb), Ht1. apply append_to_fresh.
Qed.

Lemma write_done (f data : string) (w w' : Posix.world) :
  write f data w = (Ok tt, w') → tree w' = append_to (resolve f) data (tree w).
Proof.
  unfold write. destruct (fault w (SysWrite f data)); [done |]. by intros [= <-].
Qed.

(** The body of the atomic path's [with] block. *)
Lemma atomic_body_done (payload : list (string * jvalue)) (f : string)
  (w w' : Posix.world) :
  (json_dump payload f ;; flush f ;; try_except (fsync f) (fun _ => ret tt)) w
  = (Ok tt, w') →
  tree w' = append_to (resolve f) (json_dumps payload) (tree w).
Proof.
  intros H.
  apply bind_inv in H as [([] & w1 & Hw & H)|(e & _ & ?)]; [| done].
  apply write_done in Hw as <-.
  assert (only_touches [] (flush f ;; try_except (fsync f) (fun _ => ret tt))) as Hrest.
  { apply touches_bind; [apply touches_call | intros _].
    apply touches_try_except; [apply touches_call | intros _; apply touches_ret]. }
  apply map_eq. intros k. apply (Hrest _ _ _ H). by intros ?%elem_of_nil.
Qed.

Lemma touches_atomic_body (payload : list (string * jvalue)) (f : string) :
  only_touches [resolve f]
    (json_dump payload f ;; flush f ;; try_except (fsync f) (fun _ => ret tt)).
Proof.
  apply touches_bind; [apply touches_write | intros _].
  apply touches_bind; [apply touches_call | intros _].
  apply touches_try_except; [apply touches_call | intros _; apply touches_ret].
Qed.

(** The atomic path is all or nothing for the final path: it ends with
    the whole text installed there, or with an exception and the final
    path as it was. *)
Lemma atomic_publish_outcome (tmp final : string) (payload : list (string * jvalue))
  (w w' : Posix.world) (r : res bool) :
  resolve tmp ≠ resolve final →
  atomic_publish tmp final payload w = (r, w') →
  (r = Ok true
   ∧ tree w' !! resolve final = Some (File (json_dumps payload))
   ∧ tree w' !! resolve tmp = None)
  ∨ (∃ e, r = Raise e ∧ tree w' !! resolve final = tree w !! resolve final).
Proof.
  intros Hne H. unfold atomic_publish in H.
  assert (resolve final ∉ [resolve tmp]) as Hnot.
  { intros Hin%list_elem_of_singleton. by apply Hne. }
  apply bind_inv in H as [([] & w1 & Ho & H)|(e & Ho & ->)].
  - pose proof (with_open_w_done _ _ _ _ _ (atomic_body_done payload) Ho) as Ht1.
    apply bind_inv in H as [([] & w2 & Hr & H)|(e & Hr & ->)].
    + left. apply os_replace_done in Hr as (d & Hd & Ht2).
      rewrite Ht1, lookup_insert_eq in Hd. injection Hd as <-.
      revert H. unfold bind, print, modify, ret. intros [= <- <-].
      cbn [tree add_line]. rewrite Ht2. split; [done |].
      split; [apply lookup_insert_eq |].
      rewrite lookup_insert_ne by (intros E; by apply Hne).
      apply lookup_delete_eq.
    + right. exists e. split; [done |].
      rewrite (os_replace_raises _ _ _ _ _ Hr), Ht1.
      apply lookup_insert_ne. intros E. by apply Hne.
  - right. exists e. split; [done |].
    apply (touches_with_open_w tmp _ (touches_atomic_body payload tmp) _ _ _ Ho _ Hnot).
Qed.

Lemma touches_cleanup (tmp : string) : only_touches [resolve tmp] (cleanup tmp).
Proof.
  unfold cleanup. apply touches_try_except; [| intros _; apply touches_ret].
  apply touches_bind; [apply touches_path_exists | intros [|]].
  - apply touches_os_remove.
  - apply touches_ret.
Qed.

(** A fallback that answers [True] has written the whole text to the
    final path. *)
Lemma fallback_true_written (tmp final : string) (payload : list (string * jvalue))
  (exc : exn) (w w' : Posix.world) :
  resolve tmp ≠ resolve final →
  fallback_publish tmp final payload exc w = (Ok true, w') →
  tree w' !! resolve final = Some (File (json_dumps payload)).
Proof.
  intros Hne. rewrite fallback_publish_unfold.
  destruct (with_open_w final _ _) as [[[]|exc2] w1] eqn:Ho; [| done].
  destruct (cleanup tmp w1) as [[[]|exc2] w2] eqn:Hc; [| done].
  intros [= <-]. cbn [tree add_line].
  rewrite (touches_cleanup tmp _ _ _ Hc).
  - rewrite (with_open_w_done final (json_dumps payload) _ _ _
               (fun f => write_done f (json_dumps payload)) Ho).
    apply lookup_insert_eq.
  - intros Hin%list_elem_of_singleton. by apply Hne.
Qed.

Lemma startswith_refl (s : string) : Str.startswith s s = true.
Proof. induction s as [|c s IH]; [done |]. cbn. by rewrite Ascii.eqb_refl. Qed.

Lemma startswith_substring (n : nat) (s : string) :
  Str.startswith (String.substring 0 n s) s = true.
Proof.
  revert n. induction s as [|c s IH]; intros [|n]; try done.
  cbn. by rewrite Ascii.eqb_refl.
Qed.

(** A direct write that raises leaves the path as it was (the [open]
    failed) or holding a beginning of the text. *)
Lemma direct_write_raises (final data : string) (w w' : Posix.world) (e : exn) :
  with_open_w final (fun f => write f data) w = (Raise e, w') →
  tree w' = tree w
  ∨ ∃ written, Str.startswith written data = true
               ∧ tree w' = <[resolve final := File written]> (tree w).
Proof.
  intros H. unfold with_open_w in H.
  apply bind_inv in H as [(f & w1 & Ho & H)|(e' & Ho & _)].
  - right.
    apply open_w_done in Ho as [-> Ht1].
    apply try_finally_inv in H as (r1 & w2 & r2 & Hb & Hc & Hr).
    assert (tree w' = tree w2) as ->.
    { revert Hc. unfold close, call.
      by destruct (fault w2 (SysClose final)); intros [= _ <-]. }
    revert Hb. unfold write.
    destruct (fault w1 (SysWrite final data)); intros [= _ <-];
      cbn [tree set_tree record_call]; rewrite Ht1, append_to_fresh.
    + eexists. split; [apply startswith_substring | done].
    + eexists. split; [apply startswith_refl | done].
  - left. by apply open_w_raises in Ho.
Qed.

(** [os.makedirs] changes the tree on the way down to the directory
    only, whether it succeeds or not, and prints nothing. *)
Lemma makedirs_footprint (output_dir : string) (w w1 : Posix.world) (r : res unit) :
  makedirs output_dir w = (r, w1) →
  same_env w w1 ∧ stdout w1 = stdout w
  ∧ (∀ k, k ∉ chain (resolve output_dir) → tree w1 !! k = tree w !! k)
  ∧ (∀ k d, tree w1 !! k = Some (File d) ↔ tree w !! k = Some (File d)).
Proof.
  unfold makedirs. destruct (String.eqb output_dir EmptyString).
  - intros [= <- <-]. by repeat split.
  - intros H. apply mkdirs_spec in H as (He & Hs & _ & Ho & Hf & _).
    split; [exact He |]. split; [exact Hs |]. split; [exact Ho | exact Hf].
Qed.

End Footprint.

Section PublicationGuarantees.
Import Posix Marker.
Local Open Scope py_scope.

Lemma append_inj_r (a b c : string) : a +:+ c = b +:+ c → a = b.
Proof.
  revert b. induction a as [|x a IH]; intros [|y b] H; [done | | |].
  - apply (f_equal String.length) in H. rewrite !length_append in H.
    cbn [String.length] in H. lia.
  - apply (f_equal String.length) in H. rewrite !length_append in H.
    cbn [String.length] in H. lia.
  - change (String x (a +:+ c) = String y (b +:+ c)) in H.
    injection H as -> H. by rewrite (IH _ H).
Qed.

(** X1.  Whatever fails on the way, an answer of [True] means that the
    final path holds the whole payload of this call. *)
Theorem X1_true_answer_means_marker_written
  (output_dir prefix tmp_ext : string) (frame_count : option Z) (w w' : Posix.world) :
  Str.slash_free prefix = true →
  Str.slash_free tmp_ext = true →
  tmp_ext ≠ EmptyString →
  write_done_marker output_dir prefix frame_count tmp_ext w = (Ok true, w') →
  tree w' !! resolve (final_path output_dir prefix)
  = Some (File (marker_text (utc w) frame_count)).
Proof.
  intros Hp He Hne H.
  pose proof (tmp_key_differs output_dir prefix tmp_ext Hp He Hne) as Hk.
  destruct (makedirs output_dir w) as [[[]|e] w1] eqn:Hmk.
  - rewrite (write_done_marker_after_makedirs _ _ _ _ _ _ Hmk) in H.
    apply try_except_inv in H as [(b & H & [= <-])|(exc & w2 & _ & H)].
    + by apply atomic_publish_outcome in H as [(_ & H & _)|(e & ? & _)].
    + by apply fallback_true_written in H.
  - by rewrite (write_done_marker_makedirs_raises _ _ _ _ _ _ _ Hmk) in H.
Qed.

(** A disk on which every replace fails: the answer is still [True], and
    the marker is there. *)
Lemma X1_true_answer_witness :
  tree (write_done_marker "out" "scene-001" (Some 25) ".tmp"
          (faulty_disk cross_device 0)).2
    !! resolve (final_path "out" "scene-001")
  = Some (File (marker_text (utc (faulty_disk cross_device 0)) (Some 25))).
Proof.
  apply (X1_true_answer_means_marker_written "out" "scene-001" ".tmp" (Some 25)
           (faulty_disk cross_device 0)).
  - reflexivity.
  - reflexivity.
  - discriminate.
  - vm_compute. reflexivity.
Defined.

(** X2.  The atomic attempt is all or nothing for the final path: it ends
    with the whole payload installed there and the temporary file gone, or
    with an exception and the final path exactly as it was. *)
Theorem X2_atomic_attempt_is_all_or_nothing
  (output_dir prefix tmp_ext : string) (payload : list (string * jvalue))
  (w w' : Posix.world) (r : res bool) :
  let final := final_path output_dir prefix in
  let tmp := tmp_path output_dir prefix tmp_ext in
  Str.slash_free prefix = true →
  Str.slash_free tmp_ext = true →
  tmp_ext ≠ EmptyString →
  atomic_publish tmp final payload w = (r, w') →
  (r = Ok true
   ∧ tree w' !! resolve final = Some (File (json_dumps payload))
   ∧ tree w' !! resolve tmp = None)
  ∨ (∃ e, r = Raise e ∧ tree w' !! resolve final = tree w !! resolve final).
Proof.
  intros final tmp Hp He Hne H.
  apply (atomic_publish_outcome tmp final payload w w' r); [| exact H].
  by apply tmp_key_differs.
Qed.

(** An attempt whose replace fails, over an older marker: the older
    marker is still there. *)
Lemma X2_atomic_attempt_witness :
  let w := set_tree (insert (resolve "scene-001.done") (File "old"))
             (faulty_disk cross_device 0) in
  tree (atomic_publish (tmp_path "." "scene-001" ".tmp") (final_path "." "scene-001")
          (payload_of "2025-11-03T09:44:07Z" None) w).2
    !! resolve (final_path "." "scene-001")
  = Some (File "old").
Proof.
  intros w.
  destruct (X2_atomic_attempt_is_all_or_nothing "." "scene-001" ".tmp"
              (payload_of "2025-11-03T09:44:07Z" None) w
              (atomic_publish (tmp_path "." "scene-001" ".tmp")
                 (final_path "." "scene-001")
                 (payload_of "2025-11-03T09:44:07Z" None) w).2
              (atomic_publish (tmp_path "." "scene-001" ".tmp")
                 (final_path "." "scene-001")
                 (payload_of "2025-11-03T09:44:07Z" None) w).1)
    as [(H & _)|(e & _ & H)].
  - reflexivity.
  - reflexivity.
  - discriminate.
  - vm_compute. reflexivity.
  - vm_compute in H. discriminate.
  - rewrite H. vm_compute. reflexivity.
Defined.

(** The whole function changes the tree on the way down to the output
    directory, at the temporary path and at the final path, nowhere
    else. *)
Lemma write_done_marker_footprint (output_dir prefix tmp_ext : string)
  (frame_count : option Z) (w w' : Posix.world) (r : res bool)
  (k : bool * list string) :
  write_done_marker output_dir prefix frame_count tmp_ext w = (r, w') →
  k ∉ chain (resolve output_dir) →
  k ≠ resolve (final_path output_dir prefix) →
  k ≠ resolve (tmp_path output_dir prefix tmp_ext) →
  tree w' !! k = tree w !! k.
Proof.
  intros H Hc Hf Ht.
  assert (k ∉ [resolve (tmp_path output_dir prefix tmp_ext);
               resolve (final_path output_dir prefix)]) as Hnot.
  { intros [->|[->|[]%elem_of_nil]%elem_of_cons]%elem_of_cons; done. }
  unfold write_done_marker in H.
  apply bind_inv in H as [([] & w1 & Hmk & H)|(e & Hmk & _)].
  - apply makedirs_footprint in Hmk as (_ & _ & Hmk & _).
    rewrite <- (Hmk _ Hc).
    eenough (only_touches [resolve (tmp_path output_dir prefix tmp_ext);
                           resolve (final_path output_dir prefix)] _) as Hall
      by exact (Hall _ _ _ H k Hnot).
    apply touches_bind.
    + unfold iso_now. apply touches_bind; [apply touches_get | intros ?; apply touches_ret].
    + intros timestamp. apply touches_try_except.
      * unfold atomic_publish.
        apply touches_bind.
        { apply touches_weaken with (ks := [resolve (tmp_path output_dir prefix tmp_ext)]).
          - intros q ->%list_elem_of_singleton. by left.
          - apply touches_with_open_w, touches_atomic_body. }
        intros _. apply touches_bind; [apply touches_os_replace | intros _].
        apply touches_bind; [apply touches_print | intros _; apply touches_ret].
      * intros exc. unfold fallback_publish.
        apply touches_bind; [apply touches_print | intros _].
        apply touches_try_except.
        { apply touches_bind.
          - apply touches_weaken with (ks := [resolve (final_path output_dir prefix)]).
            + intros q ->%list_elem_of_singleton. right. by left.
            + apply touches_with_open_w, touches_write.
          - intros _. apply touches_bind.
            + apply touches_weaken
                with (ks := [resolve (tmp_path output_dir prefix tmp_ext)]).
              * intros q ->%list_elem_of_singleton. by left.
              * apply touches_cleanup.
            + intros _. apply touches_bind; [apply touches_print | intros _].
              apply touches_ret. }
        intros exc2. apply touches_bind; [apply touches_print | intros _].
        apply touches_ret.
  - apply makedirs_footprint in Hmk as (_ & _ & Hmk & _). by apply Hmk.
Qed.

(** X3.  Publishing touches nothing but its own paths: whatever happens,
    every node other than the directories on the way to the output
    directory, the temporary path and the final path is left as it was; in
    particular the marker of another prefix in the same directory is. *)
Theorem X3_publish_touches_only_its_own_paths
  (output_dir prefix tmp_ext : string) (frame_count : option Z)
  (w w' : Posix.world) (r : res bool) :
  Str.slash_free prefix = true →
  Str.slash_free tmp_ext = true →
  write_done_marker output_dir prefix frame_count tmp_ext w = (r, w') →
  (∀ k, k ∉ chain (resolve output_dir) →
        k ≠ resolve (final_path output_dir prefix) →
        k ≠ resolve (tmp_path output_dir prefix tmp_ext) →
        tree w' !! k = tree w !! k)
  ∧ (∀ other, Str.slash_free other = true →
              other ≠ prefix →
              final_name other ≠ tmp_name prefix tmp_ext →
              tree w' !! resolve (final_path output_dir other)
              = tree w !! resolve (final_path output_dir other)).
Proof.
  intros Hp He H. split.
  - intros k. apply (write_done_marker_footprint _ _ _ _ _ _ _ k H).
  - intros other Ho Hne Hnt.
    apply (write_done_marker_footprint _ _ _ _ _ _ _ _ H).
    + rewrite resolve_final by done. apply child_not_in_chain.
    + rewrite !resolve_final by done. intros [= E%app_inj_tail].
      destruct E as [_ E]. unfold final_name in E. by apply append_inj_r in E.
    + rewrite resolve_final, resolve_tmp by done. intros [= E%app_inj_tail].
      by destruct E as [_ E].
Qed.

(** Two scenes in one directory: publishing the second leaves the marker
    of the first alone. *)
Lemma X3_publish_touches_witness :
  let w1 := (write_done_marker "out" "scene-001" (Some 25) ".tmp" quiet_disk).2 in
  tree (write_done_marker "out" "scene-002" (Some 25) ".tmp" w1).2
    !! resolve (final_path "out" "scene-001")
  = tree w1 !! resolve (final_path "out" "scene-001").
Proof.
  intros w1.
  destruct (X3_publish_touches_only_its_own_paths "out" "scene-002" ".tmp" (Some 25) w1
              (write_done_marker "out" "scene-002" (Some 25) ".tmp" w1).2
              (write_done_marker "out" "scene-002" (Some 25) ".tmp" w1).1)
    as [_ H].
  - reflexivity.
  - reflexivity.
  - vm_compute. reflexivity.
  - apply H; [reflexivity | discriminate | discriminate].
Defined.

(** X4.  With an empty temporary extension the temporary path is the
    final path.  When the replace then fails, the fallback writes the
    marker and its clean-up removes it again: the answer is [True], the
    console reports a fallback write, and no marker is left. *)
Theorem X4_empty_extension_fallback_removes_marker
  (output_dir prefix : string) (frame_count : option Z) (w w1 : Posix.world)
  (msg : string) :
  let final := final_path output_dir prefix in
  Str.slash_free prefix = true →
  makedirs output_dir w = (Ok tt, w1) →
  tree w !! resolve final ≠ Some Dir →
  fault w (SysReplace final final) = Some msg →
  (∀ c, c ≠ SysReplace final final → fault w c = None) →
  tmp_path output_dir prefix EmptyString = final
  ∧ ∃ w', write_done_marker output_dir prefix frame_count EmptyString w = (Ok true, w')
          ∧ tree w' !! resolve final = None
          ∧ ∃ lines, stdout w' = lines ++ [msg_fallback final].
Proof.
  intros final Hp Hmk Hnd Hfail Hfine. split; [reflexivity |].
  rewrite (write_done_marker_after_makedirs _ _ _ _ _ _ Hmk).
  change (tmp_path output_dir prefix EmptyString) with final.
  set (payload := payload_of (strftime_iso (utc w)) frame_count).
  set (text := json_dumps payload).
  destruct (after_makedirs _ _ _ Hmk) as ((E1 & E2 & E3) & _ & _ & Hdir & _ & Hother & Hfile).
  assert (resolve final ∉ chain (resolve output_dir)) as Hnot.
  { unfold final. rewrite resolve_final by done. apply child_not_in_chain. }
  assert (tree w1 !! resolve final ≠ Some Dir) as Hnd1 by (by rewrite (Hother _ Hnot)).
  assert (is_dir (tree w1) (parent (resolve final)) = true) as Hpar.
  { unfold final. by rewrite parent_final. }
  pose proof (dirlike_final output_dir prefix Hp) as Hdl.
  pose proof (final_has_name output_dir prefix Hp) as Hname.
  fold final in Hdl, Hname.
  assert (∀ c, c ≠ SysReplace final final → fault w1 c = None) as Hfine1.
  { intros c Hc. rewrite E1. by apply Hfine. }
  set (w2 := record_call (SysReplace final final) (tmp_written final text w1)).
  assert (atomic_publish final final payload w1 = (Raise (os_error msg), w2)) as Ha.
  { apply atomic_publish_replace_fails; try done; try (by apply Hfine1).
    by rewrite E1. }
  rewrite (try_except_raise _ _ _ _ _ Ha).
  assert (tree w2 = <[resolve final := File text]> (tree w1)) as Ht2.
  { unfold w2. cbn [tree record_call]. apply tree_tmp_written. }
  rewrite fallback_publish_unfold.
  set (w3 := add_line (msg_degraded (os_error msg)) w2).
  assert (∀ c, fault w3 c = fault w1 c) as Hf3 by done.
  assert (tree w3 = tree w2) as Ht3 by done.
  fold final. rewrite (direct_write_ok final payload w3).
  - fold text.
    erewrite (cleanup_removes final (after_direct final text w3) text).
    + eexists. split; [reflexivity |]. split.
      * cbn [tree add_line set_tree record_call]. apply lookup_delete_eq.
      * eexists. cbn [stdout add_line set_tree record_call]. reflexivity.
    + cbn. rewrite E1. by apply Hfine.
    + cbn. rewrite E1. by apply Hfine.
    + rewrite node_at_lookup by done. unfold text.
      rewrite tree_after_direct. apply lookup_insert_eq.
  - rewrite Hf3. by apply Hfine1.
  - rewrite Hf3. by apply Hfine1.
  - rewrite Hf3. by apply Hfine1.
  - exact Hdl.
  - exact Hname.
  - rewrite Ht3, Ht2. rewrite is_dir_insert_file by done. exact Hpar.
  - rewrite Ht3, Ht2, lookup_insert_eq. done.
Qed.

(** A replace of the marker onto itself that is refused: the marker is
    written, removed again, and reported as created. *)
Lemma X4_empty_extension_witness :
  ∃ w', write_done_marker "out" "scene-001" None EmptyString
          (faulty_disk (only_fails (SysReplace "out/scene-001.done" "out/scene-001.done")
                          "[Errno 13] Permission denied") 0)
        = (Ok true, w')
        ∧ tree w' !! resolve "out/scene-001.done" = None.
Proof.
  destruct (X4_empty_extension_fallback_removes_marker "out" "scene-001" None
              (faulty_disk (only_fails (SysReplace "out/scene-001.done" "out/scene-001.done")
                              "[Errno 13] Permission denied") 0)
              (makedirs "out"
                 (faulty_disk (only_fails (SysReplace "out/scene-001.done" "out/scene-001.done")
                                 "[Errno 13] Permission denied") 0)).2
              "[Errno 13] Permission denied")
    as (_ & w' & H1 & H2 & _).
  - reflexivity.
  - vm_compute. reflexivity.
  - vm_compute. discriminate.
  - reflexivity.
  - intros c Hc. cbn. unfold only_fails. by destruct (decide _).
  - exists w'. split; [exact H1 | exact H2].
Defined.

(** X5.  The exit status of [main] is 0 when the marker was published and
    2 when it was not, provided [os.makedirs] succeeded.  When
    [os.makedirs] raises, as it does for an empty output directory, the
    exception leaves [main]: there is no exit status 2, nothing is
    printed, and no file is written or changed. *)
Theorem X5_main_exit_status
  (output_dir prefix tmp_ext : string) (frames : option Z)
  (w w' : Posix.world) (r : res Z) :
  main output_dir prefix frames tmp_ext w = (r, w') →
  match makedirs output_dir w with
  | (Raise e, w1) =>
      r = Raise e ∧ w' = w1 ∧ stdout w' = stdout w
      ∧ ∀ k d, tree w' !! k = Some (File d) ↔ tree w !! k = Some (File d)
  | (Ok _, _) =>
      (r = Ok 0
       ∧ write_done_marker output_dir prefix frames tmp_ext w = (Ok true, w'))
      ∨ (r = Ok 2
         ∧ write_done_marker output_dir prefix frames tmp_ext w = (Ok false, w'))
  end
  ∧ (output_dir = EmptyString → ∃ e, r = Raise e ∧ w' = w).
Proof.
  intros H. unfold main in H. split.
  - destruct (makedirs output_dir w) as [[[]|e] w1] eqn:Hmk.
    + destruct (write_done_marker_answers output_dir prefix tmp_ext frames w w1 Hmk)
        as (b & w2 & Hb).
      rewrite (bind_ok _ _ _ _ _ Hb) in H. injection H as <- <-.
      destruct b; [left | right]; by rewrite Hb.
    + rewrite (bind_raise _ _ _ _ _
                 (write_done_marker_makedirs_raises _ _ _ _ _ _ _ Hmk)) in H.
      injection H as <- <-.
      apply makedirs_footprint in Hmk as (_ & Hs & _ & Hf).
      split; [done |]. split; [done |]. split; [exact Hs | exact Hf].
  - intros ->. exists (os_error "[Errno 2] No such file or directory").
    revert H. unfold write_done_marker, makedirs, bind, raise. cbn.
    by intros [= <- <-].
Qed.

(** No output directory given: [main] raises and the disk is as it
    was. *)
Lemma X5_main_exit_status_witness :
  ∃ e, main EmptyString "scene-001" (Some 25) ".tmp" quiet_disk = (Raise e, quiet_disk).
Proof.
  destruct (X5_main_exit_status EmptyString "scene-001" ".tmp" (Some 25) quiet_disk
              (main EmptyString "scene-001" (Some 25) ".tmp" quiet_disk).2
              (main EmptyString "scene-001" (Some 25) ".tmp" quiet_disk).1)
    as [_ H].
  - reflexivity.
  - destruct (H eq_refl) as (e & H1 & H2). exists e.
    rewrite <- H1. vm_compute. reflexivity.
Defined.

(** X6.  An answer of [False] does not mean that the final path was left
    alone: it holds what it held before the call, or a beginning of the
    new payload (the direct write truncates the path before it writes). *)
Theorem X6_false_answer_may_leave_partial_marker
  (output_dir prefix tmp_ext : string) (frame_count : option Z) (w w' : Posix.world) :
  let final := final_path output_dir prefix in
  Str.slash_free prefix = true →
  Str.slash_free tmp_ext = true →
  tmp_ext ≠ EmptyString →
  write_done_marker output_dir prefix frame_count tmp_ext w = (Ok false, w') →
  tree w' !! resolve final = tree w !! resolve final
  ∨ ∃ written,
      Str.startswith written (marker_text (utc w) frame_count) = true
      ∧ tree w' !! resolve final = Some (File written).
Proof.
  intros final Hp He Hne H. subst final.
  pose proof (tmp_key_differs output_dir prefix tmp_ext Hp He Hne) as Hk.
  destruct (makedirs output_dir w) as [[[]|e] w1] eqn:Hmk.
  - rewrite (write_done_marker_after_makedirs _ _ _ _ _ _ Hmk) in H.
    apply makedirs_footprint in Hmk as (_ & _ & Hmk & _).
    assert (tree w1 !! resolve (final_path output_dir prefix)
            = tree w !! resolve (final_path output_dir prefix)) as E1.
    { apply Hmk. rewrite resolve_final by done. apply child_not_in_chain. }
    apply try_except_inv in H as [(b & H & [= <-])|(exc & w2 & Ha & H)].
    + by apply atomic_publish_true in H.
    + apply atomic_publish_outcome in Ha as [(? & _)|(e & _ & E2)]; [done | | done].
      apply fallback_false in H as (exc2 & w3 & H & ->).
      apply direct_write_raises in H as [E3|(written & Hw & E3)].
      * left. cbn [tree add_line] in *. by rewrite E3, E2, E1.
      * right. exists written. split; [exact Hw |].
        cbn [tree add_line]. rewrite E3. apply lookup_insert_eq.
  - by rewrite (write_done_marker_makedirs_raises _ _ _ _ _ _ _ Hmk) in H.
Qed.

(** A disk that fills up while the marker is written directly: the
    answer is [False] and the final path holds the first seven bytes of
    the payload. *)
Lemma X6_false_answer_witness :
  let w := faulty_disk (disk_full "out/scene-001.done") 7 in
  ∃ w', write_done_marker "out" "scene-001" (Some 25) ".tmp" w = (Ok false, w')
        ∧ tree w' !! resolve "out/scene-001.done"
          = Some (File (String.substring 0 7 (marker_text (utc w) (Some 25)))).
Proof.
  intros w.
  exists (write_done_marker "out" "scene-001" (Some 25) ".tmp" w).2.
  assert (write_done_marker "out" "scene-001" (Some 25) ".tmp" w
          = (Ok false, (write_done_marker "out" "scene-001" (Some 25) ".tmp" w).2)) as H
    by (vm_compute; reflexivity).
  split; [exact H |].
  destruct (X6_false_answer_may_leave_partial_marker "out" "scene-001" ".tmp" (Some 25)
              w (write_done_marker "out" "scene-001" (Some 25) ".tmp" w).2)
    as [E|(written & _ & E)].
  - reflexivity.
  - reflexivity.
  - discriminate.
  - exact H.
  - vm_compute. reflexivity.
  - vm_compute. reflexivity.
Defined.

End PublicationGuarantees.

(* ===================================================================== *)
(** ** test_workflow.py: the wait and its traffic                         *)
(* ===================================================================== *)

Section WaiterTraffic.
Import Waiter.
Local Open Scope py_scope.

Lemma loop_entry_connected (timeout : Z) (w : Waiter.world) :
  connected (loop_entry timeout w) = bool_decide (connect_error w = None).
Proof.
  unfold loop_entry, create_connection. cbn [connect_error Waiter.add_line].
  by destruct (connect_error w).
Qed.

(** X7.  However the wait ends, it leaves no open connection behind: a
    connection that was opened is closed before the function returns. *)
Theorem X7_wait_leaves_no_open_connection (fuel : nat) (timeout : Z) (w : Waiter.world) :
  (Z.to_nat (deadline timeout w) < fuel)%nat →
  ∃ value w',
    wait_for_completion fuel timeout w = Some (Ok value, w')
    ∧ connected w' = false.
Proof.
  intros Hfuel.
  destruct (wait_for_completion_run fuel timeout w Hfuel) as (value & w' & H & Hrun).
  exists value, w'. split; [exact H |].
  destruct (connect_error w) as [msg|] eqn:Hc.
  - rewrite (wait_for_completion_refused fuel timeout w msg Hc) in H.
    injection H as _ <-. cbn [connected Waiter.add_line].
    by rewrite loop_entry_connected, Hc.
  - cbn zeta in Hrun.
    by destruct Hrun as [[(j & _ & _ & _ & _ & _ & Hconn & _) _]
                        |[_ (k & _ & _ & _ & _ & Hconn & _)]].
Qed.

(** A peer that completes after one progress message: the connection is
    closed when the wait returns. *)
Lemma X7_wait_leaves_witness :
  ∃ value w', wait_for_completion 40 25 (waiting_for finishing) = Some (Ok value, w')
              ∧ connected w' = false.
Proof.
  apply (X7_wait_leaves_no_open_connection 40 25 (waiting_for finishing)).
  vm_compute. lia.
Defined.

(** X8.  No frame can crash the wait.  One pass through the loop body
    never raises, whatever the peer sent (text that is not JSON, JSON that
    is not an object, fields of the wrong type, a failing [recv]): it
    takes exactly one frame, and it returns exactly when that frame is an
    ['executed'] message or an ['error'] message whose ['data'] is a
    dict. *)
Theorem X8_no_frame_crashes_the_wait (last_progress : json) (w : Waiter.world) :
  ∃ s w',
    iteration last_progress w = (Ok s, w')
    ∧ same_clock (after_recv w) w'
    ∧ ∀ b, s = Return b ↔ terminal (next_frame w) = Some b.
Proof.
  destruct (terminal (next_frame w)) as [b|] eqn:Ht.
  - destruct (iteration_terminal last_progress w b Ht) as (w' & H & Hc & _).
    exists (Return b), w'. split; [exact H |]. split; [exact Hc |].
    intros b'. split; [by intros [= ->] | by intros [= ->]].
  - destruct (iteration_goes_on last_progress w Ht) as (lp & w' & H & Hc).
    exists (Continue lp), w'. split; [exact H |]. split; [exact Hc |].
    intros b'. split; done.
Qed.

Lemma ends_wait_unique (timeout : Z) (w : Waiter.world) (j j' : nat) (v v' : bool) :
  ends_wait timeout w j v → ends_wait timeout w j' v' → j = j' ∧ v = v'.
Proof.
  intros (Hb & Hj & _) (Hb' & Hj' & _).
  destruct (Nat.lt_trichotomy j j') as [Hlt|[<-|Hlt]].
  - rewrite (Hb' _ Hlt) in Hj. done.
  - split; [done | congruence].
  - rewrite (Hb _ Hlt) in Hj'. done.
Qed.

(** How the loop is left is settled by the traffic. *)
Lemma exit_settled (timeout : Z) (w w' : Waiter.world) (value : bool) :
  exits_on_message timeout (now w) w w' value
  ∨ (value = false ∧ exits_on_timeout timeout (now w) w w') →
  (∃ j, ends_wait timeout w j value
        ∧ now w' = now w + ticks_before w (S j)
        ∧ received w' = (received w + S j)%nat)
  ∨ (value = false
     ∧ (∀ j v, ¬ ends_wait timeout w j v)
     ∧ ∃ k, (∀ i : nat, (i < k)%nat → ticks_before w i < deadline timeout w)
            ∧ deadline timeout w ≤ ticks_before w k
            ∧ now w' = now w + ticks_before w k
            ∧ received w' = (received w + k)%nat).
Proof.
  intros [(j & Hb & Hj & Hlt & Hn & Hr & _)|(-> & k & Hb & Hge & Hn & Hr & _)].
  - left. exists j. split; [| done]. split; [exact Hb |]. split; [exact Hj | lia].
  - right. split; [done |]. split.
    + intros j v (Hbj & Hj & Hlt).
      destruct (Nat.lt_ge_cases j k) as [Hjk|Hkj].
      * destruct (Hb j Hjk) as [Hnone _]. congruence.
      * pose proof (ticks_mono (inbox w) k j (received w) Hkj) as Hm.
        unfold ticks_before in *. lia.
    + exists k. split; [| split; [lia | done]].
      intros i Hi. destruct (Hb i Hi) as [_ Hlt]. lia.
Qed.

(** X9.  With the connection open, the wait answers [True] exactly when
    the first message that ends it is an ['executed'] message whose [recv]
    began before the timeout had elapsed: it may arrive after the
    timeout, and one whose [recv] begins at the timeout or later is never
    read. *)
Theorem X9_true_exactly_when_executed_in_time (fuel : nat) (timeout : Z)
  (w w' : Waiter.world) (value : bool) :
  (Z.to_nat (deadline timeout w) < fuel)%nat →
  connect_error w = None →
  wait_for_completion fuel timeout w = Some (Ok value, w') →
  value = true ↔ ∃ j, ends_wait timeout (loop_entry timeout w) j true.
Proof.
  intros Hfuel Hc H.
  destruct (wait_for_completion_run fuel timeout w Hfuel) as (value' & w'' & H' & Hrun).
  rewrite H in H'. injection H' as <- <-. rewrite Hc in Hrun. cbn zeta in Hrun.
  assert (exits_on_message timeout (now (loop_entry timeout w)) (loop_entry timeout w)
            w' value
          ∨ (value = false
             ∧ exits_on_timeout timeout (now (loop_entry timeout w))
                 (loop_entry timeout w) w')) as Hexit.
  { destruct Hrun as [[Hm _]|Ht]; [by left | by right]. }
  apply exit_settled in Hexit as [(j & Hj & _)|(-> & Hnone & _)].
  - split.
    + intros ->. by exists j.
    + intros (j' & Hj'). by destruct (ends_wait_unique _ _ _ _ _ _ Hj Hj') as [_ ->].
  - split; [done |]. intros (j & Hj). by destruct (Hnone j true).
Qed.

(** A completion after thirty seconds of silence, with a timeout of
    twenty-five: it is not read, the answer is [False]. *)
Lemma X9_true_exactly_witness :
  terminal (finishing_late 3).2 = Some true
  ∧ ∃ w', wait_for_completion 40 25 (waiting_for finishing_late) = Some (Ok false, w')
          ∧ ¬ ∃ j, ends_wait 25 (loop_entry 25 (waiting_for finishing_late)) j true.
Proof.
  split; [reflexivity |].
  destruct (wait_for_completion 40 25 (waiting_for finishing_late))
    as [[[value|e] w']|] eqn:E; [| by vm_compute in E | by vm_compute in E].
  assert (value = false) as ->.
  { pose proof E as E'. vm_compute in E'. by injection E' as <- _. }
  exists w'. split; [reflexivity |]. intros Hj.
  by apply (X9_true_exactly_when_executed_in_time 40 25 (waiting_for finishing_late)
              w' false) in Hj; [| vm_compute; lia | |].
Defined.

Lemma same_traffic_next (a b : Waiter.world) :
  same_traffic a b →
  next_wait a = next_wait b ∧ terminal (next_frame a) = terminal (next_frame b).
Proof.
  intros (_ & _ & Hr & Hk). unfold next_wait, next_frame. rewrite Hr.
  destruct (Hk (received b)) as [-> ->]. done.
Qed.

Lemma same_traffic_step (a b a1 b1 : Waiter.world) :
  same_traffic a b →
  same_clock (after_recv a) a1 → same_clock (after_recv b) b1 →
  same_traffic a1 b1.
Proof.
  intros Hab (Hz & Hn & Hi & Hr) (Hz' & Hn' & Hi' & Hr').
  destruct (same_traffic_next a b Hab) as [Hw _].
  destruct Hab as (Ez & En & Er & Ek).
  cbn [hz now inbox received after_recv] in *.
  repeat split; try congruence.
  - rewrite Hi, Hi'. apply Ek.
  - rewrite Hi, Hi'. apply Ek.
Qed.

(** The loop runs alike on the same traffic. *)
Lemma wait_loop_same_traffic (timeout start : Z) (fuel : nat) :
  ∀ (lp_a lp_b : json) (a b : Waiter.world),
    same_traffic a b →
    match wait_loop fuel timeout start lp_a a, wait_loop fuel timeout start lp_b b with
    | Some (ra, a'), Some (rb, b') =>
        ra = rb ∧ now a' = now b' ∧ received a' = received b'
    | None, None => True
    | _, _ => False
    end.
Proof.
  induction fuel as [|fuel IH]; intros lp_a lp_b a b Hab; [done |].
  cbn [wait_loop].
  pose proof Hab as (Ez & En & Er & _). rewrite Ez, En.
  destruct (now b - start <? timeout * Z.pos (hz b)).
  - destruct (same_traffic_next a b Hab) as [Hw Ht].
    destruct (terminal (next_frame b)) as [v|] eqn:Hb.
    + destruct (iteration_terminal lp_a a v Ht) as (a' & -> & (_ & Hn & _ & Hr) & _).
      destruct (iteration_terminal lp_b b v Hb) as (b' & -> & (_ & Hn' & _ & Hr') & _).
      cbn [now received after_recv] in *. repeat split; congruence.
    + destruct (iteration_goes_on lp_a a Ht) as (lpa' & a1 & -> & Hca).
      destruct (iteration_goes_on lp_b b Hb) as (lpb' & b1 & -> & Hcb).
      apply IH. by apply (same_traffic_step a b).
  - unfold bind, ws_close, Waiter.print, modify, ret. cbn. done.
Qed.

(** X10.  The answer depends on the traffic only through its timing and
    through which frames end the wait: two clients whose receives take as
    long and bring frames that end the wait, or do not, alike, get the same
    answer at the same time after the same number of receives, whatever
    else the frames hold (progress reports, text that is not JSON, empty
    messages, errors of [recv]). *)
Theorem X10_answer_depends_on_traffic_only (fuel : nat) (timeout : Z)
  (a b : Waiter.world) :
  same_traffic a b →
  connect_takes a = connect_takes b →
  connect_error a = None →
  connect_error b = None →
  match wait_for_completion fuel timeout a, wait_for_completion fuel timeout b with
  | Some (ra, a'), Some (rb, b') =>
      ra = rb ∧ now a' = now b' ∧ received a' = received b'
  | None, None => True
  | _, _ => False
  end.
Proof.
  intros Hab Ht Ha Hb.
  rewrite (wait_for_completion_connected fuel timeout a Ha).
  rewrite (wait_for_completion_connected fuel timeout b Hb).
  destruct (loop_entry_facts timeout a) as (Hza & Hna & Hia & Hra).
  destruct (loop_entry_facts timeout b) as (Hzb & Hnb & Hib & Hrb).
  assert (same_traffic (loop_entry timeout a) (loop_entry timeout b)) as Hentry.
  { destruct Hab as (Ez & En & Er & Ek).
    repeat split; try congruence.
    - rewrite Hia, Hib. apply Ek.
    - rewrite Hia, Hib. apply Ek. }
  assert (now (loop_entry timeout a) = now (loop_entry timeout b)) as -> by apply Hentry.
  pose proof (wait_loop_same_traffic timeout (now (loop_entry timeout b)) fuel
                (JNum 0) (JNum 0) _ _ Hentry) as Hloop.
  destruct (wait_loop fuel timeout _ (JNum 0) (loop_entry timeout a))
    as [[[va|ea] a']|];
    destruct (wait_loop fuel timeout _ (JNum 0) (loop_entry timeout b))
      as [[[vb|eb] b']|]; try done.
  - by destruct Hloop as ([= _] & _).
  - by destruct Hloop as ([= _] & _).
  - destruct Hloop as (_ & Hn & Hr). by cbn.
Qed.

(** A malformed message in place of a progress report changes nothing
    about the answer or its time. *)
Lemma X10_answer_depends_witness :
  match wait_for_completion 40 25 (waiting_for finishing),
        wait_for_completion 40 25 (waiting_for (finishing_after (Text None))) with
  | Some (ra, a'), Some (rb, b') =>
      ra = rb ∧ now a' = now b' ∧ received a' = received b'
  | None, None => True
  | _, _ => False
  end.
Proof.
  apply X10_answer_depends_on_traffic_only.
  - repeat split. all: by destruct k as [|[|k]].
  - reflexivity.
  - reflexivity.
  - reflexivity.
Defined.

End WaiterTraffic.

(* ===================================================================== *)
(** ** test_workflow.py: the workflow checks                              *)
(* ===================================================================== *)

Section WorkflowChecks.
Import Waiter Workflow.
Local Open Scope py_scope.

Lemma lookup_set_eq (k : string) (v : json) (fields : list (string * json)) :
  lookup_field k (set_field k v fields) = Some v.
Proof.
  induction fields as [|[k' v'] rest IH]; cbn [set_field lookup_field].
  - by rewrite String.eqb_refl.
  - destruct (String.eqb k k') eqn:E; cbn [lookup_field]; by rewrite E.
Qed.

Lemma lookup_set_ne (k k' : string) (v : json) (fields : list (string * json)) :
  k' ≠ k → lookup_field k' (set_field k v fields) = lookup_field k' fields.
Proof.
  intros Hne. induction fields as [|[k0 v0] rest IH]; cbn [set_field lookup_field].
  - by destruct (String.eqb_spec k' k).
  - destruct (String.eqb_spec k k0) as [->|Hk]; cbn [lookup_field].
    + by destruct (String.eqb_spec k' k0).
    + by rewrite IH.
Qed.

Lemma lookup_set_some (k k' : string) (v : json) (fields : list (string * json)) :
  lookup_field k' fields ≠ None → lookup_field k' (set_field k v fields) ≠ None.
Proof.
  destruct (String.eqb_spec k' k) as [->|Hne].
  - by rewrite lookup_set_eq.
  - by rewrite lookup_set_ne.
Qed.

Lemma keys_set_field (k : string) (v : json) (fields : list (string * json)) :
  lookup_field k fields ≠ None →
  List.map fst (set_field k v fields) = List.map fst fields.
Proof.
  induction fields as [|[k' v'] rest IH]; cbn [set_field lookup_field]; [done |].
  destruct (String.eqb k k'); [done |]. intros H. cbn [List.map fst]. by rewrite IH.
Qed.

Lemma in_set_field (k k' : string) (v x : json) (fields : list (string * json)) :
  In (k', x) (set_field k v fields) → (k' = k ∧ x = v) ∨ In (k', x) fields.
Proof.
  induction fields as [|[k0 v0] rest IH]; cbn [set_field].
  - intros [[= <- <-]|[]]. by left.
  - destruct (String.eqb_spec k k0) as [->|Hk].
    + intros [[= <- <-]|Hin]; [by left | right; by right].
    + intros [[= <- <-]|Hin]; [right; by left |].
      destruct (IH Hin) as [?|?]; [by left | right; by right].
Qed.

Lemma lookup_field_in (k : string) (v : json) (fields : list (string * json)) :
  lookup_field k fields = Some v → In (k, v) fields.
Proof.
  induction fields as [|[k' v'] rest IH]; cbn [lookup_field]; [done |].
  destruct (String.eqb_spec k k') as [->|Hk].
  - intros [= ->]. by left.
  - intros H. right. by apply IH.
Qed.

(** The issues found so far are kept; what the inputs of one node add is
    empty exactly when they are connected. *)
Lemma check_inputs_nil (workflow : list (string * json)) (node_id : string)
  (inputs : list (string * json)) :
  ∀ issues,
    check_inputs workflow node_id inputs issues = []
    ↔ issues = [] ∧ connected_inputs workflow inputs.
Proof.
  induction inputs as [|[name value] rest IH]; intros issues; cbn [check_inputs].
  - split; [intros ->; split; [done | by intros ? ? ? []] | by intros [-> _]].
  - rewrite IH. unfold connected_inputs. split.
    + intros [Hnil Hrest].
      assert (issues = [] ∧ ∀ first second, value = JArray [first; second] →
                lookup_field (py_str first) workflow ≠ None) as [-> Hv].
      { destruct value as [| | | |[|first [|second [|third more]]]|];
          try (split; [exact Hnil | by intros ? ?]).
        destruct (lookup_field (py_str first) workflow) eqn:E.
        - split; [exact Hnil |]. intros ? ? [= <- <-]. by rewrite E.
        - by destruct issues. }
      split; [done |]. intros input_name first second [[= <- ->]|Hin].
      * by apply (Hv first second).
      * by apply (Hrest input_name first second).
    + intros [-> Hall]. split.
      * destruct value as [| | | |[|first [|second [|]]]|]; try done.
        destruct (lookup_field (py_str first) workflow) eqn:E; [done |].
        by destruct (Hall name first second (or_introl eq_refl)).
      * intros input_name first second Hin.
        apply (Hall input_name first second). by right.
Qed.

(** The loop over the nodes: it raises at a node that is not a dict with
    a dict of inputs, and otherwise ends without an issue exactly when
    there was none before and every node is connected. *)
Lemma check_nodes_spec (workflow nodes : list (string * json)) :
  ∀ (issues : list string) (w : Waiter.world),
    ∃ r, check_nodes workflow nodes issues w = (r, w)
         ∧ match r with
           | Ok out =>
               out = [] ↔
               issues = []
               ∧ ∀ node_id node, In (node_id, node) nodes →
                   ∃ inputs, node_inputs node = Some inputs
                             ∧ connected_inputs workflow inputs
           | Raise e =>
               ∃ node_id node, In (node_id, node) nodes ∧ node_inputs node = None
           end.
Proof.
  induction nodes as [|[node_id node] rest IH]; intros issues w; cbn [check_nodes].
  - exists (Ok issues). split; [done |]. split; [by intros -> | by intros [-> _]].
  - destruct (node_inputs node) as [inputs|] eqn:Hin.
    + assert (∃ fields, node = JObject fields
                        ∧ get_or "inputs" (JObject []) fields = JObject inputs)
        as (fields & -> & Hget).
      { unfold node_inputs in Hin. destruct node as [| | | | |fields]; try done.
        exists fields. split; [done |].
        destruct (get_or "inputs" (JObject []) fields); try done. by injection Hin as ->. }
      cbn [py_get]. unfold bind at 1, ret at 1. rewrite Hget.
      cbn [py_items]. unfold bind at 1, ret at 1.
      destruct (IH (check_inputs workflow node_id inputs issues) w) as (r & -> & Hr).
      exists r. split; [done |]. destruct r as [out|e].
      * rewrite Hr, check_inputs_nil. split.
        -- intros [[-> Hc] Hrest]. split; [done |].
           intros id nd [[= <- <-]|Hi]; [by exists inputs | by apply (Hrest id nd)].
        -- intros [-> Hall]. split; [split; [done |] |].
           ++ destruct (Hall node_id (JObject fields) (or_introl eq_refl))
                as (inputs' & Hi & Hc).
              rewrite Hin in Hi. by injection Hi as <-.
           ++ intros id nd Hi. apply (Hall id nd). by right.
      * destruct Hr as (id & nd & Hi & Hn). exists id, nd. split; [by right | done].
    + assert (∃ e, (inputs <- py_get node "inputs" (JObject []) ;;
                    items <- py_items inputs ;;
                    check_nodes workflow rest
                      (check_inputs workflow node_id items issues)) w = (Raise e, w))
        as (e & ->).
      { unfold node_inputs in Hin. destruct node as [| | | | |fields];
          try (by eexists).
        cbn [py_get]. unfold bind at 1, ret at 1.
        destruct (get_or "inputs" (JObject []) fields); try done; by eexists. }
      exists (Raise e). split; [done |]. exists node_id, node. split; [by left | done].
Qed.

Lemma print_all_eq (lines : list string) :
  ∀ w, print_all lines w
       = (Ok tt, fold_left (fun w line => Waiter.add_line line w) lines w).
Proof.
  induction lines as [|line rest IH]; intros w; cbn [print_all fold_left]; [done |].
  unfold bind, Waiter.print, modify. apply IH.
Qed.

(** What [verify_workflow_connections] answers. *)
Lemma verify_workflow_connections_spec (nodes : list (string * json))
  (w : Waiter.world) :
  ∃ r w',
    verify_workflow_connections (JObject nodes) w = (r, w')
    ∧ match r with
      | Ok b => b = true ↔ all_connected nodes
      | Raise e => ∃ node_id node, In (node_id, node) nodes ∧ node_inputs node = None
      end.
Proof.
  unfold verify_workflow_connections.
  unfold bind at 1, Waiter.print at 1, modify at 1.
  cbn [py_items]. unfold bind at 1, ret at 1.
  destruct (check_nodes_spec nodes nodes []
              (Waiter.add_line (nl +:+ "🔗 Verifying workflow connections...") w))
    as (r & Hr & Hspec).
  unfold bind at 1. rewrite Hr. destruct r as [[|issue issues]|e].
  - eexists (Ok true), _. split; [reflexivity |].
    split; [intros _ | done]. exact (proj2 (proj1 Hspec eq_refl)).
  - eexists (Ok false), _. split.
    + unfold bind at 1, Waiter.print at 1, modify at 1.
      rewrite (bind_ok _ _ _ _ _ (print_all_eq _ _)). reflexivity.
    + split; [done |]. intros Hall. discriminate (proj2 Hspec (conj eq_refl Hall)).
  - eexists (Raise e), _. split; [reflexivity | exact Hspec].
Qed.


Lemma image_slot_some (workflow : json) (inputs : list (string * json)) :
  image_slot workflow = Some inputs →
  ∃ nodes fields,
    workflow = JObject nodes
    ∧ lookup_field "2" nodes = Some (JObject fields)
    ∧ lookup_field "inputs" fields = Some (JObject inputs).
Proof.
  unfold image_slot. destruct workflow as [| | | | |nodes]; try done.
  destruct (lookup_field "2" nodes) as [[| | | | |fields]|] eqn:E2; try done.
  destruct (lookup_field "inputs" fields) as [[| | | | |inputs']|] eqn:Ei; try done.
  intros [= ->]. by exists nodes, fields.
Qed.

(** With the slot there, the update is made and both lines are printed. *)
Lemma update_workflow_image_ok (nodes fields inputs : list (string * json))
  (image_name : string) (w : Waiter.world) :
  lookup_field "2" nodes = Some (JObject fields) →
  lookup_field "inputs" fields = Some (JObject inputs) →
  update_workflow_image (JObject nodes) image_name w =
    (Ok (JObject
           (set_field "2"
              (JObject
                 (set_field "inputs"
                    (JObject (set_field "image" (JString image_name) inputs)) fields))
              nodes)),
     Waiter.add_line ("✅ Workflow updated to use: " +:+ image_name)
       (Waiter.add_line (updating_line image_name) w)).
Proof.
  intros H2 Hi. unfold update_workflow_image.
  unfold bind at 1, Waiter.print at 1, modify at 1.
  cbn [py_getitem]. rewrite H2. unfold bind at 1, ret at 1.
  cbn [py_getitem]. rewrite Hi. unfold bind at 1, ret at 1.
  reflexivity.
Qed.

(** Without it, an exception is raised after the first line. *)
Lemma update_workflow_image_fails (workflow : json) (image_name : string)
  (w : Waiter.world) :
  image_slot workflow = None →
  ∃ e, update_workflow_image workflow image_name w
       = (Raise e, Waiter.add_line (updating_line image_name) w)
       ∧ ∀ nodes, workflow = JObject nodes → lookup_field "2" nodes = None →
                  e = PyError "KeyError" "'2'".
Proof.
  intros Hs. unfold update_workflow_image.
  unfold bind at 1, Waiter.print at 1, modify at 1.
  destruct workflow as [| | | | |nodes];
    try (eexists; split; [reflexivity | by intros ? [=]]).
  cbn [py_getitem image_slot] in *.
  destruct (lookup_field "2" nodes) as [node|] eqn:E2.
  - unfold bind at 1, ret at 1.
    destruct node as [| | | | |fields];
      try (eexists; split; [reflexivity | intros ? [= <-] ?; congruence]).
    cbn [py_getitem].
    destruct (lookup_field "inputs" fields) as [inputs|] eqn:Ei.
    + unfold bind at 1, ret at 1.
      destruct inputs as [| | | | |inputs]; try done;
        (eexists; split; [reflexivity | intros ? [= <-] ?; congruence]).
    + eexists; split; [reflexivity | intros ? [= <-] ?; congruence].
  - eexists; split; [reflexivity |]. by intros ? _ _.
Qed.

(** X12.  [update_workflow_image] needs [workflow['2']['inputs']] to be
    there, all three of them dicts.  Otherwise it raises after its first
    line, and the workflow is not updated; for a workflow without a node
    ["2"] the exception is the [KeyError] of that key. *)
Theorem X12_update_needs_the_image_slot (workflow : json) (image_name : string)
  (w : Waiter.world) :
  (is_Some (image_slot workflow) →
   ∃ workflow' w', update_workflow_image workflow image_name w = (Ok workflow', w'))
  ∧ (image_slot workflow = None →
     ∃ e, update_workflow_image workflow image_name w
          = (Raise e, Waiter.add_line (updating_line image_name) w)
          ∧ ∀ nodes, workflow = JObject nodes → lookup_field "2" nodes = None →
                     e = PyError "KeyError" "'2'").
Proof.
  split.
  - intros [inputs (nodes & fields & -> & H2 & Hi)%image_slot_some].
    eexists _, _. by apply update_workflow_image_ok with (inputs := inputs).
  - apply update_workflow_image_fails.
Qed.

(** A workflow without a node ["2"]: the [KeyError] of that key, after
    the first line. *)
Lemma X12_update_needs_witness :
  update_workflow_image
    (JObject [("1", JObject [("class_type", JString "LoadImage");
                             ("inputs", JObject [("image", JString "example.png")])])])
    "test_keyframe.jpg" console
  = (Raise (PyError "KeyError" "'2'"),
     Waiter.add_line (updating_line "test_keyframe.jpg") console).
Proof.
  destruct (X12_update_needs_the_image_slot
              (JObject [("1", JObject [("class_type", JString "LoadImage");
                                       ("inputs",
                                        JObject [("image", JString "example.png")])])])
              "test_keyframe.jpg" console) as [_ H].
  destruct (H eq_refl) as (e & -> & He).
  by rewrite (He _ eq_refl eq_refl).
Defined.

(** What a successful update is made of. *)
Lemma update_workflow_image_done (workflow workflow' : json) (image_name : string)
  (w w' : Waiter.world) :
  update_workflow_image workflow image_name w = (Ok workflow', w') →
  ∃ nodes fields inputs,
    workflow = JObject nodes
    ∧ lookup_field "2" nodes = Some (JObject fields)
    ∧ lookup_field "inputs" fields = Some (JObject inputs)
    ∧ workflow' =
        JObject
          (set_field "2"
             (JObject
                (set_field "inputs"
                   (JObject (set_field "image" (JString image_name) inputs)) fields))
             nodes).
Proof.
  intros H. destruct (image_slot workflow) as [inputs|] eqn:Hs.
  - apply image_slot_some in Hs as (nodes & fields & -> & H2 & Hi).
    rewrite (update_workflow_image_ok nodes fields inputs image_name w H2 Hi) in H.
    injection H as <- _. by exists nodes, fields, inputs.
  - destruct (update_workflow_image_fails workflow image_name w Hs) as (e & He & _).
    by rewrite He in H.
Qed.

(** X13.  A successful update sets [workflow['2']['inputs']['image']] to
    the image name and changes nothing else: the node ids and their order,
    every other node, every other field of node ["2"] and every other
    input of it are as before. *)
Theorem X13_update_sets_the_image_only (workflow workflow' : json)
  (image_name : string) (w w' : Waiter.world) :
  update_workflow_image workflow image_name w = (Ok workflow', w') →
  ∃ nodes nodes' fields fields' inputs inputs',
    workflow = JObject nodes ∧ workflow' = JObject nodes'
    ∧ List.map fst nodes' = List.map fst nodes
    ∧ (∀ k, k ≠ "2" → lookup_field k nodes' = lookup_field k nodes)
    ∧ lookup_field "2" nodes = Some (JObject fields)
    ∧ lookup_field "2" nodes' = Some (JObject fields')
    ∧ List.map fst fields' = List.map fst fields
    ∧ (∀ k, k ≠ "inputs" → lookup_field k fields' = lookup_field k fields)
    ∧ lookup_field "inputs" fields = Some (JObject inputs)
    ∧ lookup_field "inputs" fields' = Some (JObject inputs')
    ∧ lookup_field "image" inputs' = Some (JString image_name)
    ∧ (∀ k, k ≠ "image" → lookup_field k inputs' = lookup_field k inputs).
Proof.
  intros (nodes & fields & inputs & -> & H2 & Hi & ->)%update_workflow_image_done.
  eexists nodes, _, fields, _, inputs, _.
  split; [reflexivity |]. split; [reflexivity |].
  split; [apply keys_set_field; by rewrite H2 |].
  split; [intros k Hk; by apply lookup_set_ne |].
  split; [exact H2 |].
  split; [apply lookup_set_eq |].
  split; [apply keys_set_field; by rewrite Hi |].
  split; [intros k Hk; by apply lookup_set_ne |].
  split; [exact Hi |].
  split; [apply lookup_set_eq |].
  split; [apply lookup_set_eq |].
  intros k Hk. by apply lookup_set_ne.
Qed.

(** The test image goes into the image loader of the small workflow. *)
Lemma X13_update_sets_witness :
  ∃ nodes' fields' inputs' w',
    update_workflow_image small_workflow "test_keyframe.jpg" console
    = (Ok (JObject nodes'), w')
    ∧ lookup_field "2" nodes' = Some (JObject fields')
    ∧ lookup_field "inputs" fields' = Some (JObject inputs')
    ∧ lookup_field "image" inputs' = Some (JString "test_keyframe.jpg").
Proof.
  destruct (update_workflow_image small_workflow "test_keyframe.jpg" console)
    as [[workflow'|e] w'] eqn:E; [| by vm_compute in E].
  destruct (X13_update_sets_the_image_only small_workflow workflow' "test_keyframe.jpg"
              console w' E)
    as (nodes & nodes' & fields & fields' & inputs & inputs'
        & _ & -> & _ & _ & _ & H2 & _ & _ & _ & Hi & Him & _).
  by exists nodes', fields', inputs', w'.
Defined.

Lemma connected_inputs_set (k : string) (v : json) (workflow inputs : list (string * json)) :
  connected_inputs workflow inputs → connected_inputs (set_field k v workflow) inputs.
Proof.
  intros Hc input_name first second Hin.
  apply lookup_set_some. by apply (Hc input_name first second).
Qed.

(** The update keeps a connected workflow connected. *)
Lemma update_keeps_connected (nodes fields inputs : list (string * json))
  (image_name : string) :
  lookup_field "2" nodes = Some (JObject fields) →
  lookup_field "inputs" fields = Some (JObject inputs) →
  all_connected nodes →
  all_connected
    (set_field "2"
       (JObject
          (set_field "inputs"
             (JObject (set_field "image" (JString image_name) inputs)) fields))
       nodes).
Proof.
  intros H2 Hi Hall node_id node Hin.
  apply in_set_field in Hin as [[-> ->]|Hin].
  - eexists. split.
    + unfold node_inputs, get_or. by rewrite lookup_set_eq.
    + destruct (Hall "2" (JObject fields) (lookup_field_in _ _ _ H2))
        as (inputs0 & Hn & Hc).
      unfold node_inputs, get_or in Hn. rewrite Hi in Hn. injection Hn as <-.
      intros input_name first second Hin.
      apply lookup_set_some.
      apply in_set_field in Hin as [[_ [=]]|Hin].
      by apply (Hc input_name first second).
  - destruct (Hall node_id node Hin) as (inputs0 & Hn & Hc).
    exists inputs0. split; [exact Hn |]. by apply connected_inputs_set.
Qed.

(** X14.  Updating the image keeps a connected workflow connected: a
    workflow that [verify_workflow_connections] accepted is accepted again
    after [update_workflow_image], so the workflow that is queued has
    passed the check. *)
Theorem X14_update_keeps_the_workflow_connected (nodes : list (string * json))
  (image_name : string) (workflow' : json) (w1 w1' w2 w2' w3 : Waiter.world) :
  verify_workflow_connections (JObject nodes) w1 = (Ok true, w1') →
  update_workflow_image (JObject nodes) image_name w2 = (Ok workflow', w2') →
  ∃ w3', verify_workflow_connections workflow' w3 = (Ok true, w3').
Proof.
  intros Hv Hu.
  destruct (verify_workflow_connections_spec nodes w1) as (r & w' & Hr & Hspec).
  rewrite Hv in Hr. injection Hr as <- <-.
  pose proof (proj1 Hspec eq_refl) as Hall. clear Hspec.
  apply update_workflow_image_done in Hu as (nodes0 & fields & inputs & [= <-] & H2 & Hi & ->).
  pose proof (update_keeps_connected nodes fields inputs image_name H2 Hi Hall) as Hall'.
  destruct (verify_workflow_connections_spec
              (set_field "2"
                 (JObject
                    (set_field "inputs"
                       (JObject (set_field "image" (JString image_name) inputs)) fields))
                 nodes) w3) as (r & w3' & Hr & Hspec).
  exists w3'. rewrite Hr. destruct r as [b|e].
  - by rewrite (proj2 Hspec Hall').
  - destruct Hspec as (node_id & node & Hin & Hnone).
    destruct (Hall' node_id node Hin) as (? & Hsome & _). congruence.
Qed.

(** The small workflow passes the check before and after the update. *)
Lemma X14_update_keeps_witness :
  ∃ workflow' w2' w3',
    update_workflow_image small_workflow "test_keyframe.jpg" console
    = (Ok workflow', w2')
    ∧ verify_workflow_connections workflow' w2' = (Ok true, w3').
Proof.
  destruct (update_workflow_image small_workflow "test_keyframe.jpg" console)
    as [[workflow'|e] w2'] eqn:E; [| by vm_compute in E].
  destruct (X14_update_keeps_the_workflow_connected small_nodes "test_keyframe.jpg"
              workflow' console (verify_workflow_connections small_workflow console).2
              console w2' w2')
    as (w3' & H).
  - vm_compute. reflexivity.
  - exact E.
  - by exists workflow', w2', w3'.
Defined.

End WorkflowChecks.

(* ===================================================================== *)
(** ** fastvideo_server.py: the handler, stage by stage                   *)
(* ===================================================================== *)

Section Leaves.
Import Posix FastVideo.
Local Open Scope py_scope.

Context {B : Type} (f : FastVideo.world → B).

Lemma leaves_ret {A} (a : A) : leaves f (ret a).
Proof. by intros w r w' [= <- <-]. Qed.

Lemma leaves_raise {A} (e : exn) : leaves f (@raise _ A e).
Proof. by intros w r w' [= <- <-]. Qed.

Lemma leaves_get : leaves f (@get FastVideo.world).
Proof. by intros w r w' [= <- <-]. Qed.

Lemma leaves_bind {A C} (c : Py FastVideo.world A) (k : A → Py FastVideo.world C) :
  leaves f c → (∀ a, leaves f (k a)) → leaves f (bind c k).
Proof.
  intros Hc Hk w r w' H.
  apply bind_inv in H as [(a & w1 & H1 & H2)|(e & H1 & _)].
  - rewrite (Hk a _ _ _ H2). by apply (Hc _ _ _ H1).
  - by apply (Hc _ _ _ H1).
Qed.

Lemma leaves_try_except {A} (c : Py FastVideo.world A) (h : exn → Py FastVideo.world A) :
  leaves f c → (∀ e, leaves f (h e)) → leaves f (try_except c h).
Proof.
  intros Hc Hh w r w' H.
  apply try_except_inv in H as [(a & H1 & _)|(e & w1 & H1 & H2)].
  - by apply (Hc _ _ _ H1).
  - rewrite (Hh e _ _ _ H2). by apply (Hc _ _ _ H1).
Qed.

Lemma leaves_of_res {A} (x : res A) : leaves f (of_res x).
Proof. destruct x; [apply leaves_ret | apply leaves_raise]. Qed.

Lemma leaves_time : leaves f time_time.
Proof. by intros w r w' [= <- <-]. Qed.

(** From here on [f] looks at the libraries and at the worker's calls
    only. *)
Hypothesis f_sees : ∀ w w', lib w' = lib w → calls w' = calls w → f w' = f w.

Lemma leaves_on_disk {A} (c : Py Posix.world A) : leaves f (on_disk c).
Proof.
  intros w r w'. unfold on_disk. destruct (c (disk w)) as [r1 d'].
  intros [= <- <-]. by apply f_sees.
Qed.

Lemma leaves_set_warnings (ws : list string) : leaves f (modify (set_warnings ws)).
Proof. intros w r w' [= <- <-]. by apply f_sees. Qed.

Lemma leaves_get_generator : leaves f get_generator.
Proof.
  intros w r w'. unfold get_generator, bind, get, VideoGenerator, modify, ret.
  destruct (_generator w); [by intros [= <- <-] |].
  destruct (construct (lib w) (loads w)) as [took [g|e]];
    intros [= <- <-]; by apply f_sees.
Qed.

Ltac leaves_step :=
  first [ apply leaves_ret | apply leaves_raise | apply leaves_get
        | apply leaves_on_disk | apply leaves_of_res | apply leaves_set_warnings
        | apply leaves_time | apply leaves_get_generator
        | apply leaves_bind; [| intros ?]
        | apply leaves_try_except; [| intros ?] ].

Lemma leaves_prepare (request : GenerateVideoRequest) : leaves f (prepare request).
Proof. unfold prepare. repeat leaves_step. Qed.

Lemma leaves_decode (s : string) : leaves f (decode_base64_image s).
Proof.
  unfold decode_base64_image. apply leaves_bind.
  - destruct (Str.startswith "data:" s); [| leaves_step].
    destruct (Str.split_comma_once s) as [|? [|? ?]]; leaves_step.
  - intros ?. repeat leaves_step.
Qed.

Lemma leaves_keyframe (request : GenerateVideoRequest) : leaves f (load_keyframe request).
Proof.
  unfold load_keyframe. destruct (keyframeBase64 request) as [kf|]; [| leaves_step].
  destruct (truthy_str kf); [| leaves_step].
  leaves_step; [| leaves_step].
  apply leaves_bind; [apply leaves_decode | intros img].
  destruct (bool_decide _); repeat leaves_step.
Qed.

Lemma leaves_mimsave (path : string) (video : pyval) (rate : Z) :
  leaves f (mimsave path video rate).
Proof. destruct video; repeat leaves_step. Qed.

Lemma leaves_fresh (k : bool * list string) : leaves f (fresh_output_path k).
Proof. unfold fresh_output_path. repeat leaves_step. Qed.

Lemma leaves_resolve (request : GenerateVideoRequest) (k : bool * list string)
  (result : worker_result) :
  leaves f (resolve_output request k result).
Proof.
  destruct result as [items|video|cls t]; cbn [resolve_output].
  - destruct (negb _); [| leaves_step].
    leaves_step; [apply leaves_fresh |].
    destruct (dict_lookup "video" items); [| leaves_step].
    leaves_step; [apply leaves_mimsave | leaves_step].
  - leaves_step; [apply leaves_fresh |].
    leaves_step; [apply leaves_mimsave | leaves_step].
  - leaves_step.
Qed.

Lemma leaves_finish (request : GenerateVideoRequest) (d : Z) (p : pyval) :
  leaves f (finish request d p).
Proof.
  unfold finish, as_path. leaves_step.
  - destruct p; leaves_step.
  - leaves_step; [leaves_step |]. destruct (negb _); repeat leaves_step.
Qed.

Lemma leaves_outer (e : exn) : leaves f (outer_except e).
Proof. destruct e; [leaves_step |]. unfold error_response. repeat leaves_step. Qed.

(** What follows the worker's call in the handler's [try]. *)
Lemma leaves_after_worker (request : GenerateVideoRequest) (start : Z)
  (result : worker_result) :
  leaves f (end_time <- time_time ;;
            output_path <- resolve_output request (resolve (outputDir request)) result ;;
            finish request (end_time - start) output_path).
Proof.
  leaves_step; [leaves_step |].
  leaves_step; [apply leaves_resolve | apply leaves_finish].
Qed.

End Leaves.

Section HandlerStages.
Import Posix FastVideo.
Local Open Scope py_scope.

Lemma lib_sees (w w' : FastVideo.world) :
  lib w' = lib w → calls w' = calls w → lib w' = lib w.
Proof. done. Qed.

Lemma calls_sees (w w' : FastVideo.world) :
  lib w' = lib w → calls w' = calls w → calls w' = calls w.
Proof. done. Qed.

(** The worker's call is recorded, whatever comes of it. *)
Lemma run_worker_calls (g : nat) (sp : SamplingParam) (w w' : FastVideo.world)
  (r : res worker_result) :
  run_worker g sp w = (r, w') →
  calls w' = calls w ++ [sp] ∧ lib w' = lib w ∧ warnings_var w' = warnings_var w.
Proof.
  unfold run_worker, try_except, bind, worker_generate, raise, ret.
  destruct (generate _ _ _ _ _) as [[took [result|e]] files].
  - by destruct (negb _); intros [= <- <-].
  - by intros [= <- <-].
Qed.

(** [os.makedirs] raises [OSError]s only. *)
Lemma mkdirs_raises (abs : bool) (todo : list string) :
  ∀ (above : list string) (w w' : Posix.world) (e : exn),
    mkdirs abs above todo w = (Raise e, w') → ∃ msg, e = os_error msg.
Proof.
  induction todo as [|c rest IH]; intros above w w' e; [done |].
  rewrite mkdirs_cons.
  destruct (tree w !! (abs, above ++ [c])) as [[|d]|].
  - apply IH.
  - intros [= <- _]. by eexists.
  - destruct (fault w (SysMkdir (abs, above ++ [c]))); [| apply IH].
    intros [= <- _]. by eexists.
Qed.

Lemma call_raises (c : syscall) (w w' : Posix.world) (e : exn) :
  call c w = (Raise e, w') → ∃ msg, e = os_error msg.
Proof. unfold call. destruct (fault w c); [| done]. intros [= <- _]. by eexists. Qed.

(** So does writing a file. *)
Lemma write_file_raises (p data : string) (w w' : Posix.world) (e : exn) :
  with_open_w p (fun f => write f data) w = (Raise e, w') → ∃ msg, e = os_error msg.
Proof.
  intros H. unfold with_open_w in H.
  apply bind_inv in H as [(f & w1 & _ & H)|(e' & Ho & [= ->])].
  - apply try_finally_inv in H as (r1 & w2 & r2 & Hb & Hc & Hr).
    destruct r2 as [[]|e2].
    + subst r1. revert Hb. unfold write.
      destruct (fault w1 (SysWrite f data)); [| done]. intros [= <- _]. by eexists.
    + injection Hr as ->. by apply call_raises in Hc.
  - revert Ho. unfold open_w, bind, call, get, modify, raise, ret.
    destruct (fault w (SysOpen p)); [intros [= <- _]; by eexists |].
    cbn [tree record_call].
    destruct (dirlike p); [intros [= <- _]; by eexists |].
    destruct (negb _); [intros [= <- _]; by eexists |].
    destruct (node_at (tree w) p) as [[|d]|]; try done. intros [= <- _]. by eexists.
Qed.

Lemma prepare_raises (request : GenerateVideoRequest) (w w' : FastVideo.world) (e : exn) :
  prepare request w = (Raise e, w') → from_handler e.
Proof.
  unfold prepare. intros H.
  apply bind_inv in H as [([] & w1 & _ & H)|(e' & H & [= ->])].
  - apply try_except_inv in H as [(a & _ & ?)|(e1 & w2 & _ & H)]; [done |].
    injection H as <- _. cbn. tauto.
  - revert H. unfold on_disk.
    destruct (mkdirs _ _ _ (disk w)) as [r1 d'] eqn:E. intros [= -> _].
    by apply mkdirs_raises in E as [msg ->].
Qed.

Lemma load_keyframe_raises (request : GenerateVideoRequest) (w w' : FastVideo.world)
  (e : exn) :
  load_keyframe request w = (Raise e, w') → ∃ detail, e = HTTPException 400 detail.
Proof.
  unfold load_keyframe. destruct (keyframeBase64 request) as [kf|]; [| done].
  destruct (truthy_str kf); [| done]. intros H.
  apply try_except_inv in H as [(a & _ & ?)|(e1 & w2 & _ & H)]; [done |].
  injection H as <- _. by eexists.
Qed.

Lemma classify_worker_error_codes (e : exn) :
  ∃ code detail, classify_worker_error e = HTTPException code detail
                 ∧ (code = 507 ∨ code = 500).
Proof.
  unfold classify_worker_error.
  destruct (_ || _); [eexists _, _; split; [reflexivity | by left] |].
  destruct (_ || _); eexists _, _; (split; [reflexivity | by right]).
Qed.

Lemma run_worker_raises (g : nat) (sp : SamplingParam) (w w' : FastVideo.world)
  (e : exn) :
  run_worker g sp w = (Raise e, w') →
  ∃ code detail, e = HTTPException code detail ∧ (code = 507 ∨ code = 500).
Proof.
  unfold run_worker. intros H.
  apply try_except_inv in H as [(a & _ & ?)|(e1 & w2 & _ & H)]; [done |].
  injection H as <- _. apply classify_worker_error_codes.
Qed.

Lemma mimsave_raises (path : string) (video : pyval) (rate : Z)
  (w w' : FastVideo.world) (e : exn) :
  plain_encoder (lib w) →
  mimsave path video rate w = (Raise e, w') → ∃ cls msg, e = PyError cls msg.
Proof.
  intros Hplain. destruct video as [|s|frames]; cbn [mimsave];
    try (intros [= <- _]; by eexists _, _).
  unfold bind at 1, get at 1.
  pose proof (Hplain frames rate) as Hn.
  destruct (encode (lib w) frames rate) as [data|e1]; cbn [of_res].
  - unfold bind at 1, ret at 1. unfold on_disk.
    destruct (with_open_w path _ (disk w)) as [r1 d'] eqn:E. intros [= -> _].
    apply write_file_raises in E as [msg ->]. by eexists _, _.
  - unfold bind, raise. intros [= <- _]. destruct e1; [done | by eexists _, _].
Qed.

Lemma fresh_output_path_run (k : bool * list string) (w : FastVideo.world) :
  fresh_output_path k w
  = (Ok (render (k.1, k.2 ++ ["fastvideo_" +:+ pretty (time_ms w) +:+ ".mp4"])), w).
Proof. reflexivity. Qed.

Lemma resolve_output_raises (request : GenerateVideoRequest) (k : bool * list string)
  (result : worker_result) (w w' : FastVideo.world) (e : exn) :
  plain_encoder (lib w) →
  resolve_output request k result w = (Raise e, w') → ∃ cls msg, e = PyError cls msg.
Proof.
  intros Hplain. destruct result as [items|video|cls t]; cbn [resolve_output].
  - destruct (negb _); [| done].
    rewrite (bind_ok _ _ _ _ _ (fresh_output_path_run k w)).
    destruct (dict_lookup "video" items) as [frames|].
    + intros H. apply bind_inv in H as [(a & w1 & _ & ?)|(e1 & H & [= ->])]; [done |].
      by apply mimsave_raises in H.
    + intros [= <- _]. by eexists _, _.
  - rewrite (bind_ok _ _ _ _ _ (fresh_output_path_run k w)).
    intros H. apply bind_inv in H as [(a & w1 & _ & ?)|(e1 & H & [= ->])]; [done |].
    by apply mimsave_raises in H.
  - intros [= <- _]. by eexists _, _.
Qed.

Lemma finish_raises (request : GenerateVideoRequest) (d : Z) (p : pyval)
  (w w' : FastVideo.world) (e : exn) :
  finish request d p w = (Raise e, w') → from_handler e.
Proof.
  unfold finish. intros H.
  apply bind_inv in H as [(path & w1 & _ & H)|(e1 & H & [= ->])].
  - apply bind_inv in H as [(there & w2 & _ & H)|(e1 & H & [= ->])].
    + destruct (negb there); [| done]. injection H as <- _. cbn. tauto.
    + revert H. unfold on_disk, path_exists.
      by destruct (fault (disk w1) (SysStat path)).
  - destruct p; try done; injection H as <- _; done.
Qed.

End HandlerStages.

(** A run of a concrete computation, with its outcome found by
    evaluation and its final world left as it is. *)
Ltac by_evaluation :=
  lazymatch goal with
  | |- ?c = (_, _) =>
      transitivity (fst c, snd c);
      [apply surjective_pairing | f_equal; vm_compute; reflexivity]
  end.

Section HandlerAnswers.
Import Posix FastVideo.
Local Open Scope py_scope.

Lemma generate_video_body (request : GenerateVideoRequest) (w : FastVideo.world) :
  generate_video request w
  = try_except (handler_body request (time_ms w)) outer_except (at_start w).
Proof. reflexivity. Qed.

(** The libraries are the same after the [try] block, and the worker was
    called at most once, with the request's parameters. *)
Lemma handler_body_calls (request : GenerateVideoRequest) (start : Z)
  (w w' : FastVideo.world) (r : res GenerateVideoResponse) :
  handler_body request start w = (r, w') →
  lib w' = lib w
  ∧ (calls w' = calls w
     ∨ ∃ start_image, calls w' = calls w ++ [sampling_param_of request start_image]).
Proof.
  unfold handler_body. intros H.
  apply bind_inv in H as [(g & w1 & H1 & H)|(e & H1 & _)].
  - pose proof (leaves_prepare lib lib_sees request _ _ _ H1) as L1.
    pose proof (leaves_prepare calls calls_sees request _ _ _ H1) as C1.
    apply bind_inv in H as [(img & w2 & H2 & H)|(e & H2 & _)].
    + pose proof (leaves_keyframe lib lib_sees request _ _ _ H2) as L2.
      pose proof (leaves_keyframe calls calls_sees request _ _ _ H2) as C2.
      apply bind_inv in H as [(result & w3 & H3 & H)|(e & H3 & _)].
      * apply run_worker_calls in H3 as (C3 & L3 & _).
        pose proof (leaves_after_worker lib lib_sees request start result _ _ _ H) as L4.
        pose proof (leaves_after_worker calls calls_sees request start result _ _ _ H)
          as C4.
        split; [congruence |]. right. exists img. congruence.
      * apply run_worker_calls in H3 as (C3 & L3 & _).
        split; [congruence |]. right. exists img. congruence.
    + pose proof (leaves_keyframe lib lib_sees request _ _ _ H2) as L2.
      pose proof (leaves_keyframe calls calls_sees request _ _ _ H2) as C2.
      split; [congruence |]. left. congruence.
  - pose proof (leaves_prepare lib lib_sees request _ _ _ H1) as L1.
    pose proof (leaves_prepare calls calls_sees request _ _ _ H1) as C1.
    split; [done | by left].
Qed.

(** Whatever the [try] block raises, it is one of the handler's own
    [HTTPException]s or no [HTTPException] at all. *)
Lemma handler_body_raises (request : GenerateVideoRequest) (start : Z)
  (w w' : FastVideo.world) (e : exn) :
  plain_encoder (lib w) →
  handler_body request start w = (Raise e, w') → from_handler e.
Proof.
  unfold handler_body. intros Hplain H.
  apply bind_inv in H as [(g & w1 & H1 & H)|(e' & H1 & [= ->])];
    [| by apply prepare_raises in H1].
  pose proof (leaves_prepare lib lib_sees request _ _ _ H1) as L1.
  apply bind_inv in H as [(img & w2 & H2 & H)|(e' & H2 & [= ->])];
    [| apply load_keyframe_raises in H2 as [detail ->]; cbn; tauto].
  pose proof (leaves_keyframe lib lib_sees request _ _ _ H2) as L2.
  apply bind_inv in H as [(result & w3 & H3 & H)|(e' & H3 & [= ->])];
    [| apply run_worker_raises in H3 as (code & detail & -> & Hc); cbn; tauto].
  apply run_worker_calls in H3 as (_ & L3 & _).
  apply bind_inv in H as [(t & w4 & H4 & H)|(e' & ? & _)]; [| done].
  injection H4 as <- <-.
  apply bind_inv in H as [(out & w5 & H5 & H)|(e' & H5 & [= ->])].
  - by apply finish_raises in H.
  - apply resolve_output_raises in H5 as (cls & msg & ->); [done |].
    by rewrite L3, L2, L1.
Qed.

(** X15.  The answers of [POST /generate].  A request the model rejects
    is a 422; a response model comes with status 200 and says ["complete"]
    or ["error"]; every other answer is an [HTTPException] of the handler,
    with status 400, 500 or 507.  No exception that is not an
    [HTTPException] ever leaves the handler. *)
Theorem X15_generate_answers_with_known_statuses (request : GenerateVideoRequest)
  (w w' : FastVideo.world) (response : http_response) :
  plain_encoder (lib w) →
  post_generate request w = (response, w') →
  match body response with
  | Invalid fields =>
      http_status response = 422 ∧ valid_request request = false
  | Model r =>
      http_status response = 200
      ∧ (status r = "complete" ∨ status r = "error")
  | Detail detail =>
      (http_status response = 400 ∨ http_status response = 500
       ∨ http_status response = 507)
      ∧ ∃ w1, handler_body request (time_ms w) (at_start w)
              = (Raise (HTTPException (http_status response) detail), w1)
  end.
Proof.
  intros Hplain. unfold post_generate.
  destruct (valid_request request); [| by intros [= <- <-]].
  rewrite generate_video_body. unfold try_except.
  destruct (handler_body request (time_ms w) (at_start w)) as [[r|e] w1] eqn:E.
  - intros [= <- <-]. cbn [body http_status]. split; [done |]. left.
    unfold handler_body in E.
    apply bind_inv in E as [(g & v1 & _ & E)|(e & _ & ?)]; [| done].
    apply bind_inv in E as [(img & v2 & _ & E)|(e & _ & ?)]; [| done].
    apply bind_inv in E as [(res & v3 & _ & E)|(e & _ & ?)]; [| done].
    apply bind_inv in E as [(t & v4 & _ & E)|(e & _ & ?)]; [| done].
    apply bind_inv in E as [(op & v5 & _ & E)|(e & _ & ?)]; [| done].
    by apply finish_complete in E as [E _].
  - pose proof (handler_body_raises request _ (at_start w) _ _ Hplain E) as He.
    destruct e as [code detail|cls msg]; cbn [outer_except].
    + intros [= <- <-]. cbn [body http_status]. split; [exact He | by exists w1].
    + unfold error_response, bind, get, ret. intros [= <- <-].
      cbn [body http_status]. split; [done | by right].
Qed.

(** A worker that runs out of memory: the answer is the handler's 507. *)
Lemma X15_generate_answers_witness :
  http_status (post_generate example_request
                 (adapter (example_libs true out_of_memory))).1 = 507.
Proof.
  pose proof (X15_generate_answers_with_known_statuses example_request
                (adapter (example_libs true out_of_memory))
                (post_generate example_request
                   (adapter (example_libs true out_of_memory))).2
                (post_generate example_request
                   (adapter (example_libs true out_of_memory))).1) as H.
  assert (body (post_generate example_request
                  (adapter (example_libs true out_of_memory))).1
          = Detail "CUDA OOM: Try reducing numFrames, resolution, or closing other GPU processes")
    as Hb by (vm_compute; reflexivity).
  rewrite Hb in H.
  destruct H as [[H|[H|H]] _]; [done | vm_compute; reflexivity | | | exact H].
  - by vm_compute in H.
  - by vm_compute in H.
Defined.

(** X16.  One request makes at most one call of the worker, and that call
    carries the request's own parameters; a request the model rejects
    makes none. *)
Theorem X16_worker_called_at_most_once (request : GenerateVideoRequest)
  (w w' : FastVideo.world) (response : http_response) :
  post_generate request w = (response, w') →
  lib w' = lib w
  ∧ (calls w' = calls w
     ∨ valid_request request = true
       ∧ ∃ start_image,
           calls w' = calls w ++ [sampling_param_of request start_image]).
Proof.
  unfold post_generate.
  destruct (valid_request request); [| intros [= <- <-]; split; [done | by left]].
  assert (∀ r w1, generate_video request w = (r, w1) →
            lib w1 = lib w
            ∧ (calls w1 = calls w
               ∨ ∃ start_image,
                   calls w1 = calls w ++ [sampling_param_of request start_image]))
    as Hgen.
  { intros r w1. rewrite generate_video_body. intros H.
    apply try_except_inv in H as [(a & H & _)|(e & w2 & H & Ho)].
    - by apply handler_body_calls in H.
    - apply handler_body_calls in H as [L C].
      rewrite (leaves_outer lib e _ _ _ Ho).
      rewrite (leaves_outer calls e _ _ _ Ho). by split. }
  destruct (generate_video request w) as [[r|[code detail|cls msg]] w1] eqn:E;
    intros [= <- <-]; destruct (Hgen _ _ eq_refl) as [L [C|C]];
    (split; [exact L |]); (by left) || (right; by split).
Qed.

(** One request to a fresh adapter: one call of the worker. *)
Lemma X16_worker_called_witness :
  ∃ response w',
    post_generate example_request (adapter (example_libs true writes_file))
    = (response, w')
    ∧ calls w' = [sampling_param_of example_request None].
Proof.
  destruct (post_generate example_request (adapter (example_libs true writes_file)))
    as [response w'] eqn:E.
  exists response, w'. split; [reflexivity |].
  assert (calls w'
          = calls (post_generate example_request
                     (adapter (example_libs true writes_file))).2) as Hc
    by (by rewrite E).
  destruct (X16_worker_called_at_most_once example_request
              (adapter (example_libs true writes_file)) w' response E)
    as [_ [H|[_ [img H]]]]; rewrite Hc; vm_compute; reflexivity.
Defined.

(** What [POST /generate] answers, from how the [try] block ends. *)
Lemma post_generate_of_body (request : GenerateVideoRequest) (w w1 : FastVideo.world)
  (r : res GenerateVideoResponse) :
  valid_request request = true →
  handler_body request (time_ms w) (at_start w) = (r, w1) →
  post_generate request w =
    (match r with
     | Ok response => {| http_status := 200; body := Model response |}
     | Raise (HTTPException code detail) =>
         {| http_status := code; body := Detail detail |}
     | Raise (PyError cls msg) =>
         {| http_status := 200; body := Model (error_model msg (warnings_var w1)) |}
     end, w1).
Proof.
  intros Hv H. unfold post_generate. rewrite Hv, generate_video_body.
  unfold try_except. rewrite H. by destruct r as [response|[code detail|cls msg]].
Qed.

(** The [try] block from the worker's result on. *)
Lemma handler_body_after_worker (request : GenerateVideoRequest) (start : Z)
  (w0 w2 w3 w4 : FastVideo.world) (g : nat) (img : option image)
  (result : worker_result) :
  prepare request w0 = (Ok g, w2) →
  load_keyframe request w2 = (Ok img, w3) →
  run_worker g (sampling_param_of request img) w3 = (Ok result, w4) →
  handler_body request start w0 =
    (output_path <- resolve_output request (resolve (outputDir request)) result ;;
     finish request (time_ms w4 - start) output_path) w4.
Proof.
  intros Hp Hk Hw. unfold handler_body.
  by rewrite (bind_ok _ _ _ _ _ Hp), (bind_ok _ _ _ _ _ Hk), (bind_ok _ _ _ _ _ Hw).
Qed.

Lemma run_worker_ok (g : nat) (sp : SamplingParam) (w w' : FastVideo.world)
  (result : worker_result) :
  worker_generate g sp w = (Ok result, w') →
  truthy_result result = true →
  run_worker g sp w = (Ok result, w').
Proof.
  intros Hw Ht. unfold run_worker. apply try_except_ok.
  rewrite (bind_ok _ _ _ _ _ Hw). by rewrite Ht.
Qed.


Lemma worker_generate_keeps (g : nat) (sp : SamplingParam) (w w' : FastVideo.world)
  (r : res worker_result) :
  worker_generate g sp w = (r, w') →
  warnings_var w' = warnings_var w
  ∧ fault (disk w') = fault (disk w)
  ∧ _generator w' = _generator w ∧ loads w' = loads w.
Proof.
  unfold worker_generate. destruct (generate _ _ _ _ _) as [[took r1] files].
  by intros [= <- <-].
Qed.


(** X18.  A worker that returns nothing (an empty dict, an empty list,
    [None]) did not raise, yet the answer is the HTTP 500 of a failed
    generation: the handler raises ["Generator returned empty results"]
    inside the [try] whose [except] classifies worker errors. *)
Theorem X18_empty_result_is_a_failed_generation (request : GenerateVideoRequest)
  (w w2 w3 w4 : FastVideo.world) (generator : nat) (start_image : option image)
  (result : worker_result) :
  valid_request request = true →
  prepare request (at_start w) = (Ok generator, w2) →
  load_keyframe request w2 = (Ok start_image, w3) →
  worker_generate generator (sampling_param_of request start_image) w3
  = (Ok result, w4) →
  truthy_result result = false →
  post_generate request w
  = ({| http_status := 500;
        body := Detail "Generation failed: Generator returned empty results" |}, w4).
Proof.
  intros Hv Hp Hk Hw Ht.
  rewrite (post_generate_of_body request w w4
             (Raise (HTTPException 500
                       "Generation failed: Generator returned empty results")) Hv);
    [done |].
  unfold handler_body.
  rewrite (bind_ok _ _ _ _ _ Hp), (bind_ok _ _ _ _ _ Hk).
  apply bind_raise. unfold run_worker.
  apply try_except_raise
    with (e := PyError "Exception" "Generator returned empty results") (w' := w4).
  rewrite (bind_ok _ _ _ _ _ Hw). by rewrite Ht.
Qed.

(** X19.  A worker result the handler cannot use (a dict that names no
    path and holds no ['video'], or a value that is neither dict nor list)
    is reported in-band: status 200 with a model that says ["error"], the
    message in its [error] field, the warnings gathered so far, and no
    file written. *)
Theorem X19_unusable_result_is_reported_in_band (request : GenerateVideoRequest)
  (w w2 w3 w4 : FastVideo.world) (generator : nat) (start_image : option image)
  (result : worker_result) :
  valid_request request = true →
  prepare request (at_start w) = (Ok generator, w2) →
  load_keyframe request w2 = (Ok start_image, w3) →
  worker_generate generator (sampling_param_of request start_image) w3
  = (Ok result, w4) →
  truthy_result result = true →
  (∀ items,
     result = RDict items →
     truthy_val (py_or (dict_get "save_path" items)
                   (dict_get "output_video_path" items)) = false →
     dict_lookup "video" items = None →
     post_generate request w
     = ({| http_status := 200;
           body := Model (error_model
                            ("Result dict missing save_path and video data: "
                             +:+ show_keys items) (warnings_var w3)) |}, w4))
  ∧ (∀ cls truthy,
       result = ROther cls truthy →
       post_generate request w
       = ({| http_status := 200;
             body := Model (error_model
                              ("Unexpected result type: <class '" +:+ cls +:+ "'>")
                              (warnings_var w3)) |}, w4)).
Proof.
  intros Hv Hp Hk Hw Ht.
  pose proof (run_worker_ok _ _ _ _ _ Hw Ht) as Hrun.
  destruct (worker_generate_keeps _ _ _ _ _ Hw) as (Hws & _).
  split.
  - intros items -> Hfalsy Hvideo.
    rewrite (post_generate_of_body request w w4
               (Raise (PyError "Exception"
                         ("Result dict missing save_path and video data: "
                          +:+ show_keys items))) Hv); [by rewrite Hws |].
    rewrite (handler_body_after_worker _ _ _ _ _ _ _ _ _ Hp Hk Hrun).
    apply bind_raise. cbn [resolve_output]. rewrite Hfalsy. cbn [negb].
    rewrite (bind_ok _ _ _ _ _ (fresh_output_path_run _ w4)). by rewrite Hvideo.
  - intros cls truthy ->.
    rewrite (post_generate_of_body request w w4
               (Raise (PyError "Exception"
                         ("Unexpected result type: <class '" +:+ cls +:+ "'>"))) Hv);
      [by rewrite Hws |].
    rewrite (handler_body_after_worker _ _ _ _ _ _ _ _ _ Hp Hk Hrun).
    by apply bind_raise.
Qed.


(** A worker that returns an empty dict. *)
Lemma X18_empty_result_witness :
  (post_generate example_request (adapter (example_libs true returns_nothing))).1
  = {| http_status := 500;
       body := Detail "Generation failed: Generator returned empty results" |}.
Proof.
  rewrite (X18_empty_result_is_a_failed_generation example_request
             (adapter (example_libs true returns_nothing))
             (prepare example_request
                (at_start (adapter (example_libs true returns_nothing)))).2
             (prepare example_request
                (at_start (adapter (example_libs true returns_nothing)))).2
             (worker_generate 0 (sampling_param_of example_request None)
                (prepare example_request
                   (at_start (adapter (example_libs true returns_nothing)))).2).2
             0%nat None (RDict [])); [reflexivity | reflexivity | by_evaluation ..|].
  reflexivity.
Defined.

(** A worker that returns a dict without a path or frames. *)
Lemma X19_unusable_result_witness :
  (post_generate example_request (adapter (example_libs true returns_metadata))).1
  = {| http_status := 200;
       body := Model (error_model
                        "Result dict missing save_path and video data: dict_keys(['num_frames', 'save_path'])"
                        []) |}.
Proof.
  destruct (X19_unusable_result_is_reported_in_band example_request
              (adapter (example_libs true returns_metadata))
              (prepare example_request
                 (at_start (adapter (example_libs true returns_metadata)))).2
              (prepare example_request
                 (at_start (adapter (example_libs true returns_metadata)))).2
              (worker_generate 0 (sampling_param_of example_request None)
                 (prepare example_request
                    (at_start (adapter (example_libs true returns_metadata)))).2).2
              0%nat None
              (RDict [("num_frames", VStr "25"); ("save_path", VNone)]))
    as [H _]; [reflexivity | by_evaluation | by_evaluation | by_evaluation
              | reflexivity |].
  rewrite (H _ eq_refl); reflexivity.
Defined.

(** X20.  A generator that cannot be loaded: the answer is an HTTP 500
    that carries the loader's message, the worker is not called, and
    nothing is remembered, so that the next request loads again. *)
Theorem X20_failed_load_is_a_500 (request : GenerateVideoRequest)
  (w w1 : FastVideo.world) (e : exn) :
  valid_request request = true →
  _generator w = None →
  on_disk (mkdirs (resolve (outputDir request)).1 [] (resolve (outputDir request)).2)
    (at_start w) = (Ok tt, w1) →
  (construct (lib w) (loads w)).2 = Raise e →
  ∃ w',
    post_generate request w
    = ({| http_status := 500;
          body := Detail ("Failed to load FastVideo model: " +:+ str_of_exn e) |}, w')
    ∧ _generator w' = None
    ∧ loads w' = S (loads w)
    ∧ calls w' = calls w.
Proof.
  intros Hv Hg Hmk Hc.
  assert (_generator w1 = None ∧ loads w1 = loads w ∧ lib w1 = lib w
          ∧ calls w1 = calls w) as (G1 & N1 & L1 & C1).
  { revert Hmk. unfold on_disk. destruct (mkdirs _ _ _ _) as [r1 d'].
    by intros [= _ <-]. }
  destruct (get_generator_loads w1 G1) as (w' & Hload & N2 & L2 & G2).
  rewrite L1, N1, Hc in Hload, G2.
  assert (calls w' = calls w1) as C2
    by apply (leaves_get_generator calls calls_sees _ _ _ Hload).
  exists w'.
  split; [| split; [exact G2 | split; [congruence | congruence]]].
  rewrite (post_generate_of_body request w w'
             (Raise (HTTPException 500
                       ("Failed to load FastVideo model: " +:+ str_of_exn e))) Hv);
    [done |].
  unfold handler_body. apply bind_raise. unfold prepare.
  rewrite (bind_ok _ _ _ _ _ Hmk).
  by rewrite (try_except_raise _ _ _ _ _ Hload).
Qed.

(** No usable GPU: the 500 of the loader. *)
Lemma X20_failed_load_witness :
  ∃ w', post_generate example_request (adapter (example_libs false writes_file))
        = ({| http_status := 500;
              body := Detail "Failed to load FastVideo model: no CUDA-capable device is detected" |},
           w')
        ∧ _generator w' = None.
Proof.
  destruct (X20_failed_load_is_a_500 example_request
              (adapter (example_libs false writes_file))
              (on_disk (mkdirs false [] ["artifacts"; "fastvideo"])
                 (at_start (adapter (example_libs false writes_file)))).2
              (PyError "RuntimeError" "no CUDA-capable device is detected"))
    as (w' & H & Hg & _); [reflexivity | reflexivity | by_evaluation
                          | vm_compute; reflexivity |].
  by exists w'.
Defined.

(** X21.  An output directory that cannot be made is reported in-band
    (status 200, a model that says ["error"] with the [OSError]'s text),
    before the generator is loaded or the worker called. *)
Theorem X21_unusable_output_directory_is_reported_in_band
  (request : GenerateVideoRequest) (w : FastVideo.world) (d' : Posix.world) (e : exn) :
  valid_request request = true →
  mkdirs (resolve (outputDir request)).1 [] (resolve (outputDir request)).2 (disk w)
  = (Raise e, d') →
  post_generate request w
  = ({| http_status := 200; body := Model (error_model (str_of_exn e) []) |},
     set_disk d' (at_start w)).
Proof.
  intros Hv Hmk.
  pose proof (mkdirs_raises _ _ _ _ _ _ Hmk) as [msg ->].
  rewrite (post_generate_of_body request w (set_disk d' (at_start w))
             (Raise (os_error msg)) Hv); [done |].
  unfold handler_body. apply bind_raise. unfold prepare. apply bind_raise.
  unfold on_disk. cbn [disk at_start set_warnings]. by rewrite Hmk.
Qed.

(** A regular file where the directory should go. *)
Lemma X21_unusable_output_directory_witness :
  (post_generate example_request blocked_adapter).1
  = {| http_status := 200;
       body := Model (error_model "[Errno 17] File exists: artifacts" []) |}
  ∧ loads (post_generate example_request blocked_adapter).2 = 0%nat.
Proof.
  rewrite (X21_unusable_output_directory_is_reported_in_band example_request
             blocked_adapter
             (mkdirs false [] ["artifacts"; "fastvideo"] (disk blocked_adapter)).2
             (os_error "[Errno 17] File exists: artifacts"));
    [split; vm_compute; reflexivity | reflexivity | by_evaluation].
Defined.

Lemma decode_base64_image_pure (s : string) (w w' : FastVideo.world) (r : res image) :
  decode_base64_image s w = (r, w') → w' = w.
Proof.
  rewrite decode_base64_image_unfold.
  assert (∀ p, decode_payload p w = (r, w') → w' = w) as Hpay.
  { intros p. unfold decode_payload, bind, get, of_res, ret, raise.
    destruct (b64decode (lib w) p) as [data|e1]; [| by intros [= _ <-]].
    destruct (image_open (lib w) data) as [i|e1]; by intros [= _ <-]. }
  destruct (Str.startswith "data:" s); [| apply Hpay].
  destruct (Str.split_comma_once s) as [|? [|? ?]]; try (by intros [= _ <-]).
  apply Hpay.
Qed.

(** X22.  The start image the worker gets always has the requested size
    and is in RGB mode: a decoded keyframe of that size is passed on as it
    is, without a warning; one of any other size is resized, and exactly
    one warning that names both sizes is added.  An absent or empty
    keyframe gives no start image and no warning. *)
Theorem X22_start_image_has_the_requested_size (request : GenerateVideoRequest)
  (w w' : FastVideo.world) (start_image : option image) :
  load_keyframe request w = (Ok start_image, w') →
  match start_image with
  | Some img =>
      size img = (width request, height request)
      ∧ mode img = "RGB"
      ∧ ∃ keyframe decoded,
          keyframeBase64 request = Some keyframe
          ∧ decode_base64_image keyframe w = (Ok decoded, w)
          ∧ (size decoded = (width request, height request)
             ∧ img = decoded ∧ w' = w
             ∨ size decoded ≠ (width request, height request)
               ∧ img = resize (width request, height request) decoded
               ∧ w' = set_warnings
                        (warnings_var w ++ [resized_line (size decoded) request]) w)
  | None => w' = w ∧ truthy_opt (keyframeBase64 request) = false
  end.
Proof.
  unfold load_keyframe.
  destruct (keyframeBase64 request) as [kf|] eqn:Hkf; [| by intros [= <- <-]].
  cbn [truthy_opt]. destruct (truthy_str kf); [| by intros [= <- <-]].
  intros H. apply try_except_inv in H as [(a & H & [= <-])|(e & w1 & _ & ?)]; [| done].
  apply bind_inv in H as [(decoded & w1 & Hd & H)|(e & _ & ?)]; [| done].
  pose proof (decode_base64_image_pure _ _ _ _ Hd) as ->.
  pose proof (decode_base64_image_rgb _ _ _ _ Hd) as [Hmode _].
  destruct (bool_decide _) eqn:Hsize.
  - apply bool_decide_eq_true in Hsize. injection H as <- <-.
    split; [exact Hsize |]. split; [exact Hmode |].
    exists kf, decoded. split; [done |]. split; [exact Hd |]. by left.
  - apply bool_decide_eq_false in Hsize.
    revert H. unfold bind, get, modify, ret. intros [= <- <-].
    split; [done |]. split; [exact Hmode |].
    exists kf, decoded. split; [done |]. split; [exact Hd |]. by right.
Qed.

(** A keyframe of 300 by 300 for a request of 576 by 1024. *)
Lemma X22_start_image_witness :
  ∃ img w',
    load_keyframe (with_keyframe "iVBORw0KGgo=" example_request)
      (adapter (example_libs true writes_file)) = (Ok (Some img), w')
    ∧ size img = (576, 1024)
    ∧ warnings_var w' = ["Keyframe resized from (300, 300) to (576, 1024)"].
Proof.
  destruct (X22_start_image_has_the_requested_size
              (with_keyframe "iVBORw0KGgo=" example_request)
              (adapter (example_libs true writes_file))
              (load_keyframe (with_keyframe "iVBORw0KGgo=" example_request)
                 (adapter (example_libs true writes_file))).2
              (Some {| mode := "RGB"; size := (576, 1024); raster := "iVBORw0KGgo=" |}))
    as (Hs & _); [by_evaluation |].
  eexists _, _. split; [by_evaluation |].
  split; [exact Hs | vm_compute; reflexivity].
Defined.

End HandlerAnswers.

Section RenderedPaths.
Import Posix FastVideo.
Local Open Scope py_scope.













End RenderedPaths.

Section EncodedOutput.
Import Posix FastVideo.
Local Open Scope py_scope.






End EncodedOutput.

(* ===================================================================== *)
(** ** fastvideo_server.py: the health probe                              *)
(* ===================================================================== *)

Section HealthProbe.
Import Posix Waiter FastVideo Health.
Local Open Scope py_scope.

(** After the directory is ensured and the generator acquired, nothing
    in the handler loads or forgets a generator. *)
Lemma handler_body_loads (request : GenerateVideoRequest) (start : Z)
  (w w' : FastVideo.world) (r : res GenerateVideoResponse) :
  handler_body request start w = (r, w') →
  _generator w' = _generator (prepare request w).2
  ∧ loads w' = loads (prepare request w).2.
Proof.
  unfold handler_body. intros H.
  apply bind_inv in H as [(g & w1 & H1 & H)|(e & H1 & _)]; [| by rewrite H1].
  rewrite H1. cbn [snd].
  assert (keeps_generator
            (start_image <- load_keyframe request ;;
             result <- run_worker g (sampling_param_of request start_image) ;;
             end_time <- time_time ;;
             output_path <- resolve_output request (resolve (outputDir request)) result ;;
             finish request (end_time - start) output_path)) as Hk.
  { apply keeps_generator_bind; [apply keeps_generator_keyframe | intros ?].
    apply keeps_generator_bind; [apply keeps_generator_run_worker | intros ?].
    apply keeps_generator_bind; [apply keeps_generator_time | intros ?].
    apply keeps_generator_bind; [apply keeps_generator_resolve | intros ?].
    apply keeps_generator_finish. }
  exact (Hk _ _ _ H).
Qed.

Lemma post_generate_loads (request : GenerateVideoRequest) (w w' : FastVideo.world)
  (response : http_response) :
  valid_request request = true →
  post_generate request w = (response, w') →
  _generator w' = _generator (prepare request (at_start w)).2
  ∧ loads w' = loads (prepare request (at_start w)).2.
Proof.
  intros Hv. unfold post_generate. rewrite Hv, generate_video_body.
  unfold try_except.
  destruct (handler_body request (time_ms w) (at_start w)) as [[r|e] w1] eqn:E.
  - intros [= _ <-]. by apply handler_body_loads in E.
  - apply handler_body_loads in E as [G L].
    destruct (outer_except e w1) as [r2 w2] eqn:Eo.
    destruct (keeps_generator_outer e _ _ _ Eo) as [G2 L2].
    destruct r2 as [r2|[code detail|cls msg]]; intros [= _ <-]; split; congruence.
Qed.

(** X24.  The health probe only looks: it changes nothing, loads no
    generator and calls no worker.  Its ["modelLoaded"] says what the next
    generation request will do: when it is [true] no request constructs a
    generator and it stays [true]; when it is [false], a valid request
    whose output directory can be made attempts exactly one
    construction. *)
Theorem X24_health_probe_tells_whether_a_request_will_load
  (model_id : string) (environ : string → option string) (w : FastVideo.world) :
  ∃ fields,
    health_check model_id environ w = (Ok (JObject fields), w)
    ∧ get_or "modelLoaded" JNull fields = model_loaded w
    ∧ (model_loaded w = JBool true ∨ model_loaded w = JBool false)
    ∧ (model_loaded w = JBool true →
       ∀ requests,
         loads (serve requests w).2 = loads w
         ∧ model_loaded (serve requests w).2 = JBool true)
    ∧ (model_loaded w = JBool false →
       ∀ request w1 response w',
         valid_request request = true →
         on_disk (mkdirs (resolve (outputDir request)).1 []
                    (resolve (outputDir request)).2) (at_start w) = (Ok tt, w1) →
         post_generate request w = (response, w') →
         loads w' = S (loads w)).
Proof.
  eexists. split; [reflexivity |]. split; [reflexivity |].
  unfold model_loaded, health_check, bind, get, ret. cbn [fst get_or lookup_field].
  cbn -[_generator].
  destruct (_generator w) as [g|] eqn:Hg.
  - split; [by left |]. split; [| done]. intros _ requests.
    destruct (serve_loaded requests w g Hg) as [G L]. split; [exact L |].
    unfold model_loaded, health_check, bind, get, ret.
    cbn -[_generator serve]. by rewrite G.
  - split; [by right |]. split; [done |].
    intros _ request w1 response w' Hv Hmk Hpost.
    destruct (post_generate_loads request w w' response Hv Hpost) as [_ ->].
    unfold prepare. rewrite (bind_ok _ _ _ _ _ Hmk).
    assert (_generator w1 = None ∧ loads w1 = loads w) as [G1 L1].
    { revert Hmk. unfold on_disk. destruct (mkdirs _ _ _ _) as [r1 d'].
      by intros [= _ <-]. }
    destruct (get_generator_loads w1 G1) as (w2 & Hload & L2 & _).
    unfold try_except. rewrite Hload.
    destruct ((construct (lib w1) (loads w1)).2); unfold raise; cbn [snd]; congruence.
Qed.

(** A fresh adapter says [false]; one request later it says [true], one
    construction having been made. *)
Lemma X24_health_probe_witness :
  model_loaded (adapter (example_libs true writes_file)) = JBool false
  ∧ loads (post_generate example_request (adapter (example_libs true writes_file))).2
    = 1%nat
  ∧ model_loaded (post_generate example_request
                    (adapter (example_libs true writes_file))).2 = JBool true.
Proof.
  destruct (X24_health_probe_tells_whether_a_request_will_load
              "hao-ai-lab/FastHunyuan-diffusers" (fun _ => None)
              (adapter (example_libs true writes_file)))
    as (fields & _ & _ & _ & _ & H).
  split; [reflexivity |]. split; [| vm_compute; reflexivity].
  apply (H eq_refl example_request
           (on_disk (mkdirs false [] ["artifacts"; "fastvideo"])
              (at_start (adapter (example_libs true writes_file)))).2
           (post_generate example_request
              (adapter (example_libs true writes_file))).1).
  - reflexivity.
  - transitivity
      (fst (on_disk (mkdirs false [] ["artifacts"; "fastvideo"])
              (at_start (adapter (example_libs true writes_file)))),
       snd (on_disk (mkdirs false [] ["artifacts"; "fastvideo"])
              (at_start (adapter (example_libs true writes_file)))));
      [apply surjective_pairing | f_equal; vm_compute; reflexivity].
  - apply surjective_pairing.
Defined.

End HealthProbe.
